(** * nets/resnet.py: residual network assembly, verified over a shallow embedding

    The development follows [src/nets/resnet.py]:
    - Python integers are [Z]; Python floats are IEEE binary64 values, given
      by the executable specification [SpecFloat] of the standard library
      ([prec = 53], [emax = 1024]);
    - exceptions are the constructors of [exn], and fallible code returns a
      [result];
    - [self.inplanes] and [self.dilation], which [_make_layer] mutates, are
      threaded through a small state-and-error monad [M];
    - torch modules are records that keep what the constructors are given;
      a parameter tensor is abstracted to how it was initialised and to its
      [requires_grad] flag; what torch itself refuses to build or to apply
      is stated apart, in [Conv2d_accepted] and [Conv2d_usable]. *)

From Stdlib Require Import ZArith List Bool Lia String.
From Stdlib Require Import Floats.SpecFloat.
Import ListNotations.
Open Scope Z_scope.

(** ** Exceptions and results *)

Inductive exn : Type :=
| ValueError_BasicBlock_groups_width   (* 'BasicBlock only supports groups=1 and base_width=64' *)
| NotImplementedError_BasicBlock_dilation (* "Dilation > 1 not supported in BasicBlock" *)
| ValueError_replace_stride_with_dilation (* "replace_stride_with_dilation should be None or a 3-element tuple" *)
| IndexError                            (* list index out of range *)
| OverflowError                         (* int too large for a float, or int() of an infinity *)
| ValueError_nan                        (* int() or math.ceil() of a NaN *)
| ZeroDivisionError
| LoadError.                            (* raised by the external state-dict loader *)

Inductive result (A : Type) : Type :=
| Ok (a : A)
| Raise (e : exn).
Arguments Ok {A} a.
Arguments Raise {A} e.

Definition rbind {A B} (r : result A) (k : A -> result B) : result B :=
  match r with
  | Ok a => k a
  | Raise e => Raise e
  end.

Declare Scope result_scope.
Delimit Scope result_scope with res.
Notation "'let?' x ':=' r 'in' k" := (rbind r (fun x => k))
  (at level 10, x name, r at level 100, k at level 200) : result_scope.
Notation "'let?' ' p ':=' r 'in' k" := (rbind r (fun x => match x with p => k end))
  (at level 10, p pattern, r at level 100, k at level 200) : result_scope.

(** ** Python floats *)

Module PyFloat.

Definition prec : Z := 53.
Definition emax : Z := 1024.

Definition float := spec_float.

(** [float(z)], the conversion Python applies to an int operand of a
    mixed int/float operation: round to nearest even, [OverflowError]
    when the int is too large. *)
Definition of_int (z : Z) : result float :=
  match binary_normalize prec emax z 0 false with
  | S754_infinity _ => Raise OverflowError
  | f => Ok f
  end.

(** [x / y] on floats. *)
Definition div (x y : float) : result float :=
  match y with
  | S754_zero _ => Raise ZeroDivisionError
  | _ => Ok (SFdiv prec emax x y)
  end.

(** [x * y] on floats. *)
Definition mul (x y : float) : float := SFmul prec emax x y.

(** [a / b] on two ints: the correctly rounded quotient. *)
Definition int_as_finite (z : Z) : float :=
  match z with
  | Z0 => S754_zero false
  | Zpos p => S754_finite false p 0
  | Zneg p => S754_finite true p 0
  end.

Definition int_truediv (a b : Z) : result float :=
  if b =? 0 then Raise ZeroDivisionError
  else match SFdiv prec emax (int_as_finite a) (int_as_finite b) with
       | S754_infinity _ => Raise OverflowError
       | f => Ok f
       end.

(** The integer part of [m * 2^e], [m > 0], rounded down and rounded up. *)
Definition floor_scaled (m : positive) (e : Z) : Z :=
  if 0 <=? e then Zpos m * 2 ^ e else Zpos m / 2 ^ (- e).

Definition ceil_scaled (m : positive) (e : Z) : Z :=
  if 0 <=? e then Zpos m * 2 ^ e else - ((- Zpos m) / 2 ^ (- e)).

(** [int(f)]: truncation toward zero. *)
Definition to_int (f : float) : result Z :=
  match f with
  | S754_zero _ => Ok 0
  | S754_finite false m e => Ok (floor_scaled m e)
  | S754_finite true m e => Ok (- floor_scaled m e)
  | S754_infinity _ => Raise OverflowError
  | S754_nan => Raise ValueError_nan
  end.

(** [math.ceil(f)]. *)
Definition ceil (f : float) : result Z :=
  match f with
  | S754_zero _ => Ok 0
  | S754_finite false m e => Ok (ceil_scaled m e)
  | S754_finite true m e => Ok (- floor_scaled m e)
  | S754_infinity _ => Raise OverflowError
  | S754_nan => Raise ValueError_nan
  end.

End PyFloat.

(** ** torch.nn layers

    A parameter tensor is kept as the way its values were last initialised
    and its [requires_grad] flag; a freshly built parameter is trainable.
    The layers are records of the arguments their constructors are given:
    the constructors below follow the Python code of this file.  The
    checks torch makes on the arguments are given after them, as
    [Conv2d_accepted] and [Conv2d_usable]; the statements that depend on
    them name them in their hypotheses. *)

Inductive initializer : Type :=
| torch_default                 (* the layer's own reset_parameters *)
| kaiming_normal_fan_out_relu   (* nn.init.kaiming_normal_(w, mode='fan_out', nonlinearity='relu') *)
| constant_ (c : Z).            (* nn.init.constant_(w, c) *)

Record Param : Type := mkParam {
  data : initializer;
  requires_grad : bool
}.

Definition new_parameter : Param := mkParam torch_default true.

Definition set_requires_grad (b : bool) (p : Param) : Param :=
  mkParam (data p) b.

Definition set_data (i : initializer) (p : Param) : Param :=
  mkParam i (requires_grad p).

(** [nn.Conv2d(..., bias=False)] *)
Record Conv2d : Type := mkConv2d {
  in_channels : Z;
  out_channels : Z;
  kernel_size : Z;
  conv_stride : Z;
  padding : Z;
  conv_groups : Z;
  conv_dilation : Z;
  conv_weight : Param
}.

Definition nn_Conv2d (cin cout k stride pad groups dilation : Z) : Conv2d :=
  mkConv2d cin cout k stride pad groups dilation new_parameter.

Record BatchNorm2d : Type := mkBatchNorm2d {
  num_features : Z;
  bn_weight : Param;
  bn_bias : Param
}.

Definition nn_BatchNorm2d (n : Z) : BatchNorm2d :=
  mkBatchNorm2d n new_parameter new_parameter.

Record Linear : Type := mkLinear {
  in_features : Z;
  out_features : Z;
  fc_weight : Param;
  fc_bias : Param
}.

Definition nn_Linear (i o : Z) : Linear :=
  mkLinear i o new_parameter new_parameter.

Definition conv3x3 (in_planes out_planes stride groups dilation : Z) : Conv2d :=
  nn_Conv2d in_planes out_planes 3 stride dilation groups dilation.

Definition conv1x1 (in_planes out_planes stride : Z) : Conv2d :=
  nn_Conv2d in_planes out_planes 1 stride 0 1 1.

(** *** What torch accepts

    [nn.Conv2d] refuses a [groups] that is not positive or that does not
    divide both channel counts, and then builds the weight, a tensor of
    shape [(out_channels, in_channels // groups, k, k)].  No tensor is
    built with a negative size, or with a storage, at four bytes per
    element, of more bytes than a signed 64-bit integer counts. *)
Definition tensor_fits (dims : list Z) : bool :=
  forallb (fun d => 0 <=? d) dims && (4 * fold_right Z.mul 1 dims <? 2 ^ 63).

Definition Conv2d_weight (c : Conv2d) : list Z :=
  [out_channels c; in_channels c / conv_groups c; kernel_size c; kernel_size c].

Definition Conv2d_accepted (c : Conv2d) : bool :=
  (0 <? conv_groups c) &&
  (in_channels c mod conv_groups c =? 0) &&
  (out_channels c mod conv_groups c =? 0) &&
  tensor_fits (Conv2d_weight c).

(** A convolution that is built is applied only if its weight has at
    least [groups] output channels: one without output channels is built
    and then refused at the first forward pass. *)
Definition Conv2d_usable (c : Conv2d) : bool :=
  Conv2d_accepted c && (1 <=? in_channels c) && (conv_groups c <=? out_channels c).

(** The projection shortcut: [nn.Sequential(conv1x1(...), norm_layer(...))]. *)
Record Shortcut : Type := mkShortcut {
  sc_conv : Conv2d;
  sc_norm : BatchNorm2d
}.

(** ** The two residual block classes *)

Inductive block_class : Type := BasicBlock | Bottleneck.

Definition expansion (block : block_class) : Z :=
  match block with
  | BasicBlock => 1
  | Bottleneck => 4
  end.

Record BasicBlock_obj : Type := mkBasicBlock {
  bb_conv1 : Conv2d;
  bb_bn1 : BatchNorm2d;
  bb_conv2 : Conv2d;
  bb_bn2 : BatchNorm2d;
  bb_downsample : option Shortcut;
  bb_stride : Z
}.

Record Bottleneck_obj : Type := mkBottleneck {
  bt_conv1 : Conv2d;
  bt_bn1 : BatchNorm2d;
  bt_conv2 : Conv2d;
  bt_bn2 : BatchNorm2d;
  bt_conv3 : Conv2d;
  bt_bn3 : BatchNorm2d;
  bt_downsample : option Shortcut;
  bt_stride : Z
}.

Inductive Block : Type :=
| A_BasicBlock (b : BasicBlock_obj)
| A_Bottleneck (b : Bottleneck_obj).

Local Open Scope result_scope.

(** [BasicBlock.__init__] *)
Definition BasicBlock_init (inplanes planes stride : Z) (downsample : option Shortcut)
    (groups base_width dilation : Z) : result BasicBlock_obj :=
  if negb (groups =? 1) || negb (base_width =? 64)
  then Raise ValueError_BasicBlock_groups_width
  else if 1 <? dilation
  then Raise NotImplementedError_BasicBlock_dilation
  else Ok {| bb_conv1 := conv3x3 inplanes planes stride 1 1;
             bb_bn1 := nn_BatchNorm2d planes;
             bb_conv2 := conv3x3 planes planes 1 1 1;
             bb_bn2 := nn_BatchNorm2d planes;
             bb_downsample := downsample;
             bb_stride := stride |}.

(** [int(planes * (base_width / 64.)) * groups] *)
Definition Bottleneck_width (planes base_width groups : Z) : result Z :=
  let? bw := PyFloat.of_int base_width in
  let? sixty_four := PyFloat.of_int 64 in
  let? q := PyFloat.div bw sixty_four in
  let? p := PyFloat.of_int planes in
  let? w := PyFloat.to_int (PyFloat.mul p q) in
  Ok (w * groups).

(** [Bottleneck.__init__] *)
Definition Bottleneck_init (inplanes planes stride : Z) (downsample : option Shortcut)
    (groups base_width dilation : Z) : result Bottleneck_obj :=
  let? width := Bottleneck_width planes base_width groups in
  Ok {| bt_conv1 := conv1x1 inplanes width 1;
        bt_bn1 := nn_BatchNorm2d width;
        bt_conv2 := conv3x3 width width stride groups dilation;
        bt_bn2 := nn_BatchNorm2d width;
        bt_conv3 := conv1x1 width (planes * expansion Bottleneck) 1;
        bt_bn3 := nn_BatchNorm2d (planes * expansion Bottleneck);
        bt_downsample := downsample;
        bt_stride := stride |}.

(** [block(inplanes, planes, stride, downsample, groups, base_width,
    dilation, norm_layer)] for the class object [block]. *)
Definition construct (block : block_class) (inplanes planes stride : Z)
    (downsample : option Shortcut) (groups base_width dilation : Z) : result Block :=
  match block with
  | BasicBlock =>
      let? b := BasicBlock_init inplanes planes stride downsample groups base_width dilation in
      Ok (A_BasicBlock b)
  | Bottleneck =>
      let? b := Bottleneck_init inplanes planes stride downsample groups base_width dilation in
      Ok (A_Bottleneck b)
  end.

Definition block_downsample (b : Block) : option Shortcut :=
  match b with
  | A_BasicBlock o => bb_downsample o
  | A_Bottleneck o => bt_downsample o
  end.

Definition block_stride (b : Block) : Z :=
  match b with
  | A_BasicBlock o => bb_stride o
  | A_Bottleneck o => bt_stride o
  end.

(** Channels accepted by the first convolution and produced by the last
    normalization of a block's main path. *)
Definition block_in_channels (b : Block) : Z :=
  match b with
  | A_BasicBlock o => in_channels (bb_conv1 o)
  | A_Bottleneck o => in_channels (bt_conv1 o)
  end.

(** The dilation of the 3x3 convolution that carries the block's stride. *)
Definition block_conv_dilation (b : Block) : Z :=
  match b with
  | A_BasicBlock o => conv_dilation (bb_conv1 o)
  | A_Bottleneck o => conv_dilation (bt_conv2 o)
  end.

Definition block_out_channels (b : Block) : Z :=
  match b with
  | A_BasicBlock o => num_features (bb_bn2 o)
  | A_Bottleneck o => num_features (bt_bn3 o)
  end.

(** ** The network under construction

    [self.inplanes] and [self.dilation] are the running width and dilation
    that [_make_layer] reads and updates; [self.groups] and
    [self.base_width] are only read. *)

Record self_state : Type := mkSelf {
  self_inplanes : Z;
  self_dilation : Z;
  self_groups : Z;
  self_base_width : Z
}.

Definition set_inplanes (v : Z) (self : self_state) : self_state :=
  mkSelf v (self_dilation self) (self_groups self) (self_base_width self).

Definition set_dilation (v : Z) (self : self_state) : self_state :=
  mkSelf (self_inplanes self) v (self_groups self) (self_base_width self).

(** A method that may update [self] or raise. *)
Definition M (A : Type) : Type := self_state -> result (A * self_state).

(** The loop [for _ in range(1, blocks): layers.append(block(self.inplanes,
    planes, groups=..., base_width=..., dilation=self.dilation, ...))];
    [n] is the number of iterations left. *)
Fixpoint identity_blocks (block : block_class) (planes : Z) (self : self_state)
    (n : nat) (layers : list Block) : result (list Block) :=
  match n with
  | O => Ok layers
  | S n' =>
      let? b := construct block (self_inplanes self) planes 1 None
                  (self_groups self) (self_base_width self) (self_dilation self) in
      identity_blocks block planes self n' (layers ++ [b])
  end.

(** [len(range(1, blocks))] *)
Definition range1_len (blocks : Z) : nat := Z.to_nat (blocks - 1).

(** [ResNet._make_layer] *)
Definition _make_layer (block : block_class) (planes blocks stride : Z) (dilate : bool)
  : M (list Block) :=
  fun self =>
    let previous_dilation := self_dilation self in
    let self := if dilate then set_dilation (self_dilation self * stride) self else self in
    let stride := if dilate then 1 else stride in
    let downsample :=
      if negb (stride =? 1) || negb (self_inplanes self =? planes * expansion block)
      then Some (mkShortcut (conv1x1 (self_inplanes self) (planes * expansion block) stride)
                            (nn_BatchNorm2d (planes * expansion block)))
      else None in
    let? b1 := construct block (self_inplanes self) planes stride downsample
                 (self_groups self) (self_base_width self) previous_dilation in
    let layers := [] ++ [b1] in
    let self := set_inplanes (planes * expansion block) self in
    let? layers := identity_blocks block planes self (range1_len blocks) layers in
    Ok (layers, self).

(** ** The assembled network *)

Record ResNet : Type := mkResNet {
  block : block_class;
  groups : Z;
  base_width : Z;
  inplanes : Z;
  dilation : Z;
  conv1 : Conv2d;
  bn1 : BatchNorm2d;
  layer1 : list Block;
  layer2 : list Block;
  layer3 : list Block;
  layer4 : list Block;
  fc : Linear
}.

(** [l[i]] for a non-negative literal index. *)
Definition index {A} (l : list A) (i : nat) : result A :=
  match nth_error l i with
  | Some a => Ok a
  | None => Raise IndexError
  end.

(** *** The initialisation pass over [self.modules()] *)

Definition init_Conv2d (c : Conv2d) : Conv2d :=
  mkConv2d (in_channels c) (out_channels c) (kernel_size c) (conv_stride c) (padding c)
    (conv_groups c) (conv_dilation c)
    (set_data kaiming_normal_fan_out_relu (conv_weight c)).

Definition init_BatchNorm2d (b : BatchNorm2d) : BatchNorm2d :=
  mkBatchNorm2d (num_features b)
    (set_data (constant_ 1) (bn_weight b))
    (set_data (constant_ 0) (bn_bias b)).

Definition init_Shortcut (d : Shortcut) : Shortcut :=
  mkShortcut (init_Conv2d (sc_conv d)) (init_BatchNorm2d (sc_norm d)).

Definition init_Block (b : Block) : Block :=
  match b with
  | A_BasicBlock o =>
      A_BasicBlock
        (mkBasicBlock (init_Conv2d (bb_conv1 o)) (init_BatchNorm2d (bb_bn1 o))
           (init_Conv2d (bb_conv2 o)) (init_BatchNorm2d (bb_bn2 o))
           (option_map init_Shortcut (bb_downsample o)) (bb_stride o))
  | A_Bottleneck o =>
      A_Bottleneck
        (mkBottleneck (init_Conv2d (bt_conv1 o)) (init_BatchNorm2d (bt_bn1 o))
           (init_Conv2d (bt_conv2 o)) (init_BatchNorm2d (bt_bn2 o))
           (init_Conv2d (bt_conv3 o)) (init_BatchNorm2d (bt_bn3 o))
           (option_map init_Shortcut (bt_downsample o)) (bt_stride o))
  end.

(** [for m in self.modules(): if isinstance(m, nn.Conv2d): ... elif
    isinstance(m, (nn.BatchNorm2d, nn.GroupNorm)): ...]; the linear head is
    neither. *)
Definition init_modules (net : ResNet) : ResNet :=
  mkResNet (block net) (groups net) (base_width net) (inplanes net) (dilation net)
    (init_Conv2d (conv1 net)) (init_BatchNorm2d (bn1 net))
    (map init_Block (layer1 net)) (map init_Block (layer2 net))
    (map init_Block (layer3 net)) (map init_Block (layer4 net))
    (fc net).

(** [if isinstance(m, Bottleneck): nn.init.constant_(m.bn3.weight, 0)] *)
Definition zero_init_Block (b : Block) : Block :=
  match b with
  | A_BasicBlock o => A_BasicBlock o
  | A_Bottleneck o =>
      A_Bottleneck
        (mkBottleneck (bt_conv1 o) (bt_bn1 o) (bt_conv2 o) (bt_bn2 o) (bt_conv3 o)
           (mkBatchNorm2d (num_features (bt_bn3 o))
              (set_data (constant_ 0) (bn_weight (bt_bn3 o)))
              (bn_bias (bt_bn3 o)))
           (bt_downsample o) (bt_stride o))
  end.

Definition zero_init_modules (net : ResNet) : ResNet :=
  mkResNet (block net) (groups net) (base_width net) (inplanes net) (dilation net)
    (conv1 net) (bn1 net)
    (map zero_init_Block (layer1 net)) (map zero_init_Block (layer2 net))
    (map zero_init_Block (layer3 net)) (map zero_init_Block (layer4 net))
    (fc net).

(** [ResNet.__init__]; [norm_layer] is left at its default,
    [nn.BatchNorm2d]. *)
Definition ResNet_init (block : block_class) (layers : list Z) (num_classes : Z)
    (zero_init_residual : bool) (groups width_per_group : Z)
    (replace_stride_with_dilation : option (list bool)) : result ResNet :=
  let inplanes0 := 64 in
  let dilation0 := 1 in
  let replace_stride_with_dilation :=
    match replace_stride_with_dilation with
    | None => [false; false; false]
    | Some l => l
    end in
  if negb (Nat.eqb (List.length replace_stride_with_dilation) 3)
  then Raise ValueError_replace_stride_with_dilation
  else
    let self := mkSelf inplanes0 dilation0 groups width_per_group in
    let conv1 := nn_Conv2d 3 (self_inplanes self) 7 2 3 1 1 in
    let bn1 := nn_BatchNorm2d (self_inplanes self) in
    let? n0 := index layers 0 in
    let? '(layer1, self) := _make_layer block 64 n0 1 false self in
    let? n1 := index layers 1 in
    let? d0 := index replace_stride_with_dilation 0 in
    let? '(layer2, self) := _make_layer block 128 n1 2 d0 self in
    let? n2 := index layers 2 in
    let? d1 := index replace_stride_with_dilation 1 in
    let? '(layer3, self) := _make_layer block 256 n2 2 d1 self in
    let? n3 := index layers 3 in
    let? d2 := index replace_stride_with_dilation 2 in
    let? '(layer4, self) := _make_layer block 512 n3 2 d2 self in
    let fc := nn_Linear (512 * expansion block) num_classes in
    let net := mkResNet block groups width_per_group
                 (self_inplanes self) (self_dilation self)
                 conv1 bn1 layer1 layer2 layer3 layer4 fc in
    let net := init_modules net in
    let net := if zero_init_residual then zero_init_modules net else net in
    Ok net.

(** *** [module.parameters()] and the trainability switches *)

Definition Conv2d_parameters (c : Conv2d) : list Param := [conv_weight c].

Definition BatchNorm2d_parameters (b : BatchNorm2d) : list Param :=
  [bn_weight b; bn_bias b].

Definition Linear_parameters (l : Linear) : list Param := [fc_weight l; fc_bias l].

Definition Shortcut_parameters (d : Shortcut) : list Param :=
  Conv2d_parameters (sc_conv d) ++ BatchNorm2d_parameters (sc_norm d).

Definition downsample_parameters (d : option Shortcut) : list Param :=
  match d with
  | Some d => Shortcut_parameters d
  | None => []
  end.

Definition Block_parameters (b : Block) : list Param :=
  match b with
  | A_BasicBlock o =>
      Conv2d_parameters (bb_conv1 o) ++ BatchNorm2d_parameters (bb_bn1 o) ++
      Conv2d_parameters (bb_conv2 o) ++ BatchNorm2d_parameters (bb_bn2 o) ++
      downsample_parameters (bb_downsample o)
  | A_Bottleneck o =>
      Conv2d_parameters (bt_conv1 o) ++ BatchNorm2d_parameters (bt_bn1 o) ++
      Conv2d_parameters (bt_conv2 o) ++ BatchNorm2d_parameters (bt_bn2 o) ++
      Conv2d_parameters (bt_conv3 o) ++ BatchNorm2d_parameters (bt_bn3 o) ++
      downsample_parameters (bt_downsample o)
  end.

Definition Sequential_parameters (l : list Block) : list Param :=
  flat_map Block_parameters l.

(** The parameters visited by
    [for module in backbone: for param in module.parameters()]. *)
Definition backbone_parameters (net : ResNet) : list Param :=
  Conv2d_parameters (conv1 net) ++ BatchNorm2d_parameters (bn1 net) ++
  Sequential_parameters (layer1 net) ++ Sequential_parameters (layer2 net) ++
  Sequential_parameters (layer3 net) ++ Sequential_parameters (layer4 net).

(** [for param in module.parameters(): param.requires_grad = flag],
    module by module. *)
Definition Conv2d_set_grad (flag : bool) (c : Conv2d) : Conv2d :=
  mkConv2d (in_channels c) (out_channels c) (kernel_size c) (conv_stride c) (padding c)
    (conv_groups c) (conv_dilation c) (set_requires_grad flag (conv_weight c)).

Definition BatchNorm2d_set_grad (flag : bool) (b : BatchNorm2d) : BatchNorm2d :=
  mkBatchNorm2d (num_features b)
    (set_requires_grad flag (bn_weight b)) (set_requires_grad flag (bn_bias b)).

Definition Shortcut_set_grad (flag : bool) (d : Shortcut) : Shortcut :=
  mkShortcut (Conv2d_set_grad flag (sc_conv d)) (BatchNorm2d_set_grad flag (sc_norm d)).

Definition Block_set_grad (flag : bool) (b : Block) : Block :=
  match b with
  | A_BasicBlock o =>
      A_BasicBlock
        (mkBasicBlock (Conv2d_set_grad flag (bb_conv1 o)) (BatchNorm2d_set_grad flag (bb_bn1 o))
           (Conv2d_set_grad flag (bb_conv2 o)) (BatchNorm2d_set_grad flag (bb_bn2 o))
           (option_map (Shortcut_set_grad flag) (bb_downsample o)) (bb_stride o))
  | A_Bottleneck o =>
      A_Bottleneck
        (mkBottleneck (Conv2d_set_grad flag (bt_conv1 o)) (BatchNorm2d_set_grad flag (bt_bn1 o))
           (Conv2d_set_grad flag (bt_conv2 o)) (BatchNorm2d_set_grad flag (bt_bn2 o))
           (Conv2d_set_grad flag (bt_conv3 o)) (BatchNorm2d_set_grad flag (bt_bn3 o))
           (option_map (Shortcut_set_grad flag) (bt_downsample o)) (bt_stride o))
  end.

Definition backbone_set_grad (flag : bool) (net : ResNet) : ResNet :=
  mkResNet (block net) (groups net) (base_width net) (inplanes net) (dilation net)
    (Conv2d_set_grad flag (conv1 net)) (BatchNorm2d_set_grad flag (bn1 net))
    (map (Block_set_grad flag) (layer1 net)) (map (Block_set_grad flag) (layer2 net))
    (map (Block_set_grad flag) (layer3 net)) (map (Block_set_grad flag) (layer4 net))
    (fc net).

(** [ResNet.freeze_backbone] *)
Definition freeze_backbone (net : ResNet) : ResNet := backbone_set_grad false net.

(** [ResNet.Unfreeze_backbone] *)
Definition Unfreeze_backbone (net : ResNet) : ResNet := backbone_set_grad true net.

(** ** The five presets

    Downloading a state dict and loading it into the model is the work of
    torchvision and torch; it is taken as a function of the key of
    [model_urls] and of the model, which may raise. *)

Section Presets.

Variable load_pretrained : string -> ResNet -> result ResNet.

Definition replace_fc (l : Linear) (net : ResNet) : ResNet :=
  mkResNet (block net) (groups net) (base_width net) (inplanes net) (dilation net)
    (conv1 net) (bn1 net) (layer1 net) (layer2 net) (layer3 net) (layer4 net) l.

(** The body shared by the five functions: build with the default
    arguments, load if asked, replace the head if asked. *)
Definition preset (name : string) (cls : block_class) (layers : list Z)
    (pretrained : bool) (num_classes : Z) : result ResNet :=
  let? model := ResNet_init cls layers 1000 false 1 64 None in
  let? model := if pretrained then load_pretrained name model else Ok model in
  let model :=
    if negb (num_classes =? 1000)
    then replace_fc (nn_Linear (512 * expansion (block model)) num_classes) model
    else model in
  Ok model.

Definition resnet18 := preset "resnet18" BasicBlock [2; 2; 2; 2].
Definition resnet34 := preset "resnet34" BasicBlock [3; 4; 6; 3].
Definition resnet50 := preset "resnet50" Bottleneck [3; 4; 6; 3].
Definition resnet101 := preset "resnet101" Bottleneck [3; 4; 23; 3].
Definition resnet152 := preset "resnet152" Bottleneck [3; 8; 36; 3].

End Presets.

(** ** GhostModule *)

(** [nn.Sequential(nn.Conv2d(...), nn.BatchNorm2d(...), nn.ReLU or
    nn.Sequential())] *)
Record ConvBnAct : Type := mkConvBnAct {
  cba_conv : Conv2d;
  cba_bn : BatchNorm2d;
  cba_relu : bool
}.

Record GhostModule : Type := mkGhostModule {
  oup : Z;
  primary_conv : ConvBnAct;
  cheap_operation : ConvBnAct
}.

(** [math.ceil(oup / ratio)] *)
Definition ceil_div (oup ratio : Z) : result Z :=
  let? q := PyFloat.int_truediv oup ratio in
  PyFloat.ceil q.

(** [GhostModule.__init__] *)
Definition GhostModule_init (inp oup kernel_size ratio dw_size stride : Z) (relu : bool)
  : result GhostModule :=
  let? init_channels := ceil_div oup ratio in
  let new_channels := init_channels * (ratio - 1) in
  Ok {| oup := oup;
        primary_conv :=
          mkConvBnAct (nn_Conv2d inp init_channels kernel_size stride (kernel_size / 2) 1 1)
            (nn_BatchNorm2d init_channels) relu;
        cheap_operation :=
          mkConvBnAct (nn_Conv2d init_channels new_channels dw_size 1 (dw_size / 2)
                         init_channels 1)
            (nn_BatchNorm2d new_channels) relu |}.

(** The length of [t[:stop]] for an axis of length [len]. *)
Definition slice_to (len stop : Z) : Z :=
  if stop <? 0 then Z.max (len + stop) 0 else Z.min stop len.

(** ** The forward passes, on shapes

    A tensor is abstracted to its shape; an image batch is
    [(batch, channels, height, width)].  What a torch layer does to a
    shape, and when it refuses one, is torch's documented behaviour:
    a convolution or pooling window of size [k] maps a side of length [n]
    to [floor((n + 2 * padding - dilation * (k - 1) - 1) / stride) + 1] and
    refuses a padded side shorter than the dilated window; normalization
    keeps the shape, and in training mode refuses a tensor with a single
    value per channel. *)

Inductive torch_error : Type :=
| channels_mismatch         (* a layer given another number of channels or features than it was built for *)
| kernel_larger_than_input  (* a window that does not fit in the padded input *)
| non_positive_stride
| one_value_per_channel     (* batch normalization in training mode *)
| not_broadcastable         (* in-place addition of a tensor that cannot be broadcast *)
| cat_sizes_differ          (* torch.cat of tensors that differ outside the axis *)
| empty_feature_map.        (* adaptive pooling of a map without elements *)

Inductive outcome (A : Type) : Type :=
| Done (a : A)
| Fails (e : torch_error).
Arguments Done {A} a.
Arguments Fails {A} e.

Definition obind {A B} (r : outcome A) (k : A -> outcome B) : outcome B :=
  match r with
  | Done a => k a
  | Fails e => Fails e
  end.

Declare Scope outcome_scope.
Delimit Scope outcome_scope with out.
Notation "'let!' x ':=' r 'in' k" := (obind r (fun x => k))
  (at level 10, x name, r at level 100, k at level 200) : outcome_scope.
Local Open Scope outcome_scope.

Record shape : Type := mkShape {
  sh_batch : Z;
  sh_channels : Z;
  sh_height : Z;
  sh_width : Z
}.

(** One side through a window. *)
Definition window_out (n k stride pad dil : Z) : outcome Z :=
  if stride <=? 0 then Fails non_positive_stride
  else if n + 2 * pad - dil * (k - 1) - 1 <? 0 then Fails kernel_larger_than_input
  else Done ((n + 2 * pad - dil * (k - 1) - 1) / stride + 1).

Definition Conv2d_forward (c : Conv2d) (x : shape) : outcome shape :=
  if negb (sh_channels x =? in_channels c) then Fails channels_mismatch
  else
    let! h := window_out (sh_height x) (kernel_size c) (conv_stride c) (padding c)
                (conv_dilation c) in
    let! w := window_out (sh_width x) (kernel_size c) (conv_stride c) (padding c)
                (conv_dilation c) in
    Done (mkShape (sh_batch x) (out_channels c) h w).

(** [training] is the mode the modules are in ([model.train()] or
    [model.eval()]). *)
Definition BatchNorm2d_forward (training : bool) (b : BatchNorm2d) (x : shape)
  : outcome shape :=
  if training && (sh_batch x * (sh_height x * sh_width x) =? 1)
  then Fails one_value_per_channel
  else if negb (sh_channels x =? num_features b) then Fails channels_mismatch
  else Done x.

(** [nn.MaxPool2d(kernel_size, stride, padding)] *)
Definition MaxPool2d_forward (k stride pad : Z) (x : shape) : outcome shape :=
  let! h := window_out (sh_height x) k stride pad 1 in
  let! w := window_out (sh_width x) k stride pad 1 in
  Done (mkShape (sh_batch x) (sh_channels x) h w).

(** [nn.AdaptiveAvgPool2d((1, 1))] *)
Definition AdaptiveAvgPool2d_1x1_forward (x : shape) : outcome shape :=
  if (sh_channels x =? 0) || (sh_height x =? 0) || (sh_width x =? 0)
  then Fails empty_feature_map
  else Done (mkShape (sh_batch x) (sh_channels x) 1 1).

(** [torch.flatten(x, 1)]: the shape [(batch, features)]. *)
Definition flatten_1 (x : shape) : Z * Z :=
  (sh_batch x, sh_channels x * (sh_height x * sh_width x)).

Definition Linear_forward (l : Linear) (x : Z * Z) : outcome (Z * Z) :=
  if negb (snd x =? in_features l) then Fails channels_mismatch
  else Done (fst x, out_features l).

(** One axis of [out += identity]. *)
Definition broadcasts_to (a out : Z) : bool := (a =? out) || (a =? 1).

(** [out += identity] *)
Definition iadd (out identity : shape) : outcome shape :=
  if broadcasts_to (sh_batch identity) (sh_batch out) &&
     broadcasts_to (sh_channels identity) (sh_channels out) &&
     broadcasts_to (sh_height identity) (sh_height out) &&
     broadcasts_to (sh_width identity) (sh_width out)
  then Done out
  else Fails not_broadcastable.

(** The projection shortcut applied. *)
Definition Shortcut_forward (training : bool) (d : Shortcut) (x : shape) : outcome shape :=
  let! y := Conv2d_forward (sc_conv d) x in
  BatchNorm2d_forward training (sc_norm d) y.

(** [if self.downsample is not None: identity = self.downsample(x)] *)
Definition downsample_forward (training : bool) (d : option Shortcut) (x : shape)
  : outcome shape :=
  match d with
  | Some d => Shortcut_forward training d x
  | None => Done x
  end.

(** [BasicBlock.forward]; the activations keep the shape. *)
Definition BasicBlock_forward (training : bool) (o : BasicBlock_obj) (x : shape)
  : outcome shape :=
  let identity := x in
  let! out := Conv2d_forward (bb_conv1 o) x in
  let! out := BatchNorm2d_forward training (bb_bn1 o) out in
  let! out := Conv2d_forward (bb_conv2 o) out in
  let! out := BatchNorm2d_forward training (bb_bn2 o) out in
  let! identity := downsample_forward training (bb_downsample o) identity in
  let! out := iadd out identity in
  Done out.

(** [Bottleneck.forward] *)
Definition Bottleneck_forward (training : bool) (o : Bottleneck_obj) (x : shape)
  : outcome shape :=
  let identity := x in
  let! out := Conv2d_forward (bt_conv1 o) x in
  let! out := BatchNorm2d_forward training (bt_bn1 o) out in
  let! out := Conv2d_forward (bt_conv2 o) out in
  let! out := BatchNorm2d_forward training (bt_bn2 o) out in
  let! out := Conv2d_forward (bt_conv3 o) out in
  let! out := BatchNorm2d_forward training (bt_bn3 o) out in
  let! identity := downsample_forward training (bt_downsample o) identity in
  let! out := iadd out identity in
  Done out.

Definition Block_forward (training : bool) (b : Block) (x : shape) : outcome shape :=
  match b with
  | A_BasicBlock o => BasicBlock_forward training o x
  | A_Bottleneck o => Bottleneck_forward training o x
  end.

(** The [nn.Sequential] of a stage applied: block after block. *)
Fixpoint Sequential_forward (training : bool) (l : list Block) (x : shape) : outcome shape :=
  match l with
  | [] => Done x
  | b :: l' =>
      let! y := Block_forward training b x in
      Sequential_forward training l' y
  end.

(** [ResNet.forward] *)
Definition ResNet_forward (training : bool) (net : ResNet) (x : shape) : outcome (Z * Z) :=
  let! x := Conv2d_forward (conv1 net) x in
  let! x := BatchNorm2d_forward training (bn1 net) x in
  let! x := MaxPool2d_forward 3 2 1 x in
  let! x := Sequential_forward training (layer1 net) x in
  let! x := Sequential_forward training (layer2 net) x in
  let! x := Sequential_forward training (layer3 net) x in
  let! x := Sequential_forward training (layer4 net) x in
  let! x := AdaptiveAvgPool2d_1x1_forward x in
  let x := flatten_1 x in
  Linear_forward (fc net) x.

(** [nn.Sequential(conv, norm, nn.ReLU or nn.Sequential())] applied. *)
Definition ConvBnAct_forward (training : bool) (m : ConvBnAct) (x : shape) : outcome shape :=
  let! y := Conv2d_forward (cba_conv m) x in
  BatchNorm2d_forward training (cba_bn m) y.

(** [torch.cat([x1, x2], dim=1)] *)
Definition cat_channels (x1 x2 : shape) : outcome shape :=
  if (sh_batch x1 =? sh_batch x2) && (sh_height x1 =? sh_height x2) &&
     (sh_width x1 =? sh_width x2)
  then Done (mkShape (sh_batch x1) (sh_channels x1 + sh_channels x2)
               (sh_height x1) (sh_width x1))
  else Fails cat_sizes_differ.

(** [GhostModule.forward], on whole shapes. *)
Definition GhostModule_forward (training : bool) (m : GhostModule) (x : shape)
  : outcome shape :=
  let! x1 := ConvBnAct_forward training (primary_conv m) x in
  let! x2 := ConvBnAct_forward training (cheap_operation m) x1 in
  let! out := cat_channels x1 x2 in
  Done (mkShape (sh_batch out) (slice_to (sh_channels out) (oup m))
          (sh_height out) (sh_width out)).

(** * Vocabulary of the statements *)

(** The stride and the running dilation after the substitution. *)
Definition effective_stride (stride : Z) (dilate : bool) : Z :=
  if dilate then 1 else stride.

Definition dilation_after (self : self_state) (stride : Z) (dilate : bool) : Z :=
  if dilate then self_dilation self * stride else self_dilation self.

(** The shortcut [_make_layer] builds when it builds one. *)
Definition projection (block : block_class) (inplanes planes stride : Z) : Shortcut :=
  mkShortcut (conv1x1 inplanes (planes * expansion block) stride)
             (nn_BatchNorm2d (planes * expansion block)).

Definition flags_or_default (r : option (list bool)) : list bool :=
  match r with
  | None => [false; false; false]
  | Some l => l
  end.

Definition assemble (block : block_class) (groups width_per_group num_classes : Z)
    (l1 l2 l3 l4 : list Block) (self : self_state) : ResNet :=
  mkResNet block groups width_per_group (self_inplanes self) (self_dilation self)
    (nn_Conv2d 3 64 7 2 3 1 1) (nn_BatchNorm2d 64) l1 l2 l3 l4
    (nn_Linear (512 * expansion block) num_classes).

Definition initialise (zero_init_residual : bool) (net : ResNet) : ResNet :=
  if zero_init_residual then zero_init_modules (init_modules net) else init_modules net.

Definition class_of (b : Block) : block_class :=
  match b with
  | A_BasicBlock _ => BasicBlock
  | A_Bottleneck _ => Bottleneck
  end.

Definition downsample_norms (d : option Shortcut) : list BatchNorm2d :=
  match d with
  | Some d => [sc_norm d]
  | None => []
  end.

(** The normalization layers of a block, the last of the main path apart. *)
Definition Block_inner_norms (b : Block) : list BatchNorm2d :=
  match b with
  | A_BasicBlock o => [bb_bn1 o] ++ downsample_norms (bb_downsample o)
  | A_Bottleneck o => [bt_bn1 o; bt_bn2 o] ++ downsample_norms (bt_downsample o)
  end.

Definition Block_last_norm (b : Block) : BatchNorm2d :=
  match b with
  | A_BasicBlock o => bb_bn2 o
  | A_Bottleneck o => bt_bn3 o
  end.

Definition Block_norms (b : Block) : list BatchNorm2d :=
  Block_last_norm b :: Block_inner_norms b.

Definition blocks_of (net : ResNet) : list Block :=
  layer1 net ++ layer2 net ++ layer3 net ++ layer4 net.

(** Every normalization layer of the network: the stem's and the blocks'. *)
Definition ResNet_norms (net : ResNet) : list BatchNorm2d :=
  bn1 net :: flat_map Block_norms (blocks_of net).

Definition scale (n : BatchNorm2d) : initializer := data (bn_weight n).

Definition init_then (zero_init_residual : bool) (b : Block) : Block :=
  if zero_init_residual then zero_init_Block (init_Block b) else init_Block b.

(** The stem and the four stages. *)
Definition backbone (net : ResNet) :=
  (conv1 net, bn1 net, layer1 net, layer2 net, layer3 net, layer4 net).

(** The five presets with the key, the block class and the repeat counts of
    each. *)
Definition presets (load_pretrained : string -> ResNet -> result ResNet)
  : list ((bool -> Z -> result ResNet) * (string * block_class * list Z)) :=
  [ (resnet18 load_pretrained, ("resnet18"%string, BasicBlock, [2; 2; 2; 2]));
    (resnet34 load_pretrained, ("resnet34"%string, BasicBlock, [3; 4; 6; 3]));
    (resnet50 load_pretrained, ("resnet50"%string, Bottleneck, [3; 4; 6; 3]));
    (resnet101 load_pretrained, ("resnet101"%string, Bottleneck, [3; 4; 23; 3]));
    (resnet152 load_pretrained, ("resnet152"%string, Bottleneck, [3; 8; 36; 3])) ].

(** A loader that leaves the model as it is. *)
Definition keep_model (_ : string) (m : ResNet) : result ResNet := Ok m.

(** The exceptions a block constructor can raise. *)
Definition block_exn (e : exn) : bool :=
  match e with
  | ValueError_BasicBlock_groups_width
  | NotImplementedError_BasicBlock_dilation
  | OverflowError | ValueError_nan | ZeroDivisionError => true
  | _ => false
  end.

(** The canonical float of value [N / 2^k], for [0 < N < 2^53]. *)
Definition canon (N k : Z) : PyFloat.float :=
  S754_finite false (Z.to_pos (N * 2 ^ (53 - Zdigits2 N))) (Zdigits2 N - 53 - k).

(** A positive float of full precision whose exponent is at least [k]: its
    value is at least [2^(k + 52)]. *)
Definition full_from (k : Z) (f : PyFloat.float) : Prop :=
  exists M E, f = S754_finite false M E /\ 2 ^ 52 <= Zpos M < 2 ^ 53 /\ k <= E.

(** The second half of [binary_round_aux]: renormalise after rounding. *)
Definition finish (M1 e1 : Z) : PyFloat.float :=
  let '(mrs, e2) := shr_fexp PyFloat.prec PyFloat.emax M1 e1 loc_Exact in
  match shr_m mrs with
  | Z0 => S754_zero false
  | Zpos m => if e2 <=? PyFloat.emax - PyFloat.prec then S754_finite false m e2 else S754_infinity false
  | Zneg _ => S754_nan
  end.

Definition dilated_plain_fails (n3 : Z) (d0 d1 d2 : bool) : bool :=
  d0 || d1 || (d2 && (2 <=? n3)).

(** Some stage whose stride is replaced by dilation (flag [i] is for stage
    [i + 2], whose repeat count is entry [i + 1]) has two blocks or more, or
    is followed by another stage. *)
Definition inflated_dilation_reaches_a_block (repeats : list Z) (flags : list bool) : Prop :=
  exists i, nth i flags false = true /\
            (2 <= nth (S i) repeats 0 \/ (S (S i) < List.length repeats)%nat).

(** A block's shortcut fits the block: without one the block keeps the
    channel count and has stride 1; with one, the shortcut is a 1x1
    convolution from the block's input to the block's output channels, of
    the block's stride, followed by a normalization of the output
    channels. *)
Definition shortcut_fits (b : Block) : Prop :=
  match block_downsample b with
  | None => block_in_channels b = block_out_channels b /\ block_stride b = 1
  | Some d =>
      in_channels (sc_conv d) = block_in_channels b /\
      out_channels (sc_conv d) = block_out_channels b /\
      kernel_size (sc_conv d) = 1 /\
      padding (sc_conv d) = 0 /\
      conv_stride (sc_conv d) = block_stride b /\
      num_features (sc_norm d) = block_out_channels b
  end.

(** Each block takes the channels the one before it produces, beginning
    with [cin]. *)
Fixpoint chained (cin : Z) (l : list Block) : Prop :=
  match l with
  | [] => True
  | b :: l' => block_in_channels b = cin /\ chained (block_out_channels b) l'
  end.

(** The channels that leave the last block ([cin] when there is none). *)
Definition chain_end (cin : Z) (l : list Block) : Z :=
  fold_left (fun _ b => block_out_channels b) l cin.

(** The stride of a stage: that of its first block. *)
Definition stage_stride (l : list Block) : Z :=
  match l with
  | b :: _ => block_stride b
  | [] => 1
  end.

Definition flag_factor (d : bool) : Z := if d then 2 else 1.

Definition has_shortcut (b : Block) : bool :=
  match block_downsample b with
  | Some _ => true
  | None => false
  end.

Definition downsample_convs (d : option Shortcut) : list Conv2d :=
  match d with
  | Some d => [sc_conv d]
  | None => []
  end.

(** The convolutions of a block. *)
Definition Block_convs (b : Block) : list Conv2d :=
  match b with
  | A_BasicBlock o => [bb_conv1 o; bb_conv2 o] ++ downsample_convs (bb_downsample o)
  | A_Bottleneck o => [bt_conv1 o; bt_conv2 o; bt_conv3 o] ++ downsample_convs (bt_downsample o)
  end.

(** Every convolution of the network: the stem's and the blocks'. *)
Definition ResNet_convs (net : ResNet) : list Conv2d :=
  conv1 net :: flat_map Block_convs (blocks_of net).

(** A block, a stage, all of whose convolutions torch builds and applies. *)
Definition Block_usable (b : Block) : bool := forallb Conv2d_usable (Block_convs b).

Definition Sequential_usable (l : list Block) : bool := forallb Block_usable l.

(** The most channels a feature map has on its way through a block,
    through a stage. *)
Definition Block_widest (b : Block) : Z :=
  fold_right Z.max (block_in_channels b) (map out_channels (Block_convs b)).

Definition Sequential_widest (l : list Block) : Z :=
  fold_right Z.max 0 (map Block_widest l).

(** A block as the constructors leave it: every parameter new. *)
Definition fresh_block (b : Block) : Prop :=
  Forall (fun c => conv_weight c = new_parameter) (Block_convs b) /\
  Forall (fun n => bn_weight n = new_parameter /\ bn_bias n = new_parameter) (Block_norms b).

(** A block all of whose parameters are trainable. *)
Definition trainable_block (b : Block) : Prop :=
  Forall (fun c => requires_grad (conv_weight c) = true) (Block_convs b) /\
  Forall (fun n => requires_grad (bn_weight n) = true /\ requires_grad (bn_bias n) = true)
         (Block_norms b).

(** A side of length [n] after a layer of stride [s] whose window fits
    around every position. *)
Definition reduce (s n : Z) : Z := (n - 1) / s + 1.

(** Batch normalization in training mode refuses a single value per
    channel. *)
Definition bn_refuses (training : bool) (n h w : Z) : bool :=
  training && (n * (h * w) =? 1).

(** The side of the last feature map of the network. *)
Definition final_side (d0 d1 d2 : bool) (n : Z) : Z :=
  reduce (effective_stride 2 d2)
    (reduce (effective_stride 2 d1)
       (reduce (effective_stride 2 d0) (reduce 2 (reduce 2 n)))).

(** The side the primary convolution of a ghost module leaves. *)
Definition primary_side (kernel_size stride n : Z) : Z :=
  (n + 2 * (kernel_size / 2) - (kernel_size - 1) - 1) / stride + 1.

(** The shortcut [_make_layer] gives a block: none when the block keeps
    stride and channels, the projection otherwise. *)
Definition shortcut_as_built (cls : block_class) (inplanes planes stride : Z)
  : option Shortcut :=
  if negb (stride =? 1) || negb (inplanes =? planes * expansion cls)
  then Some (projection cls inplanes planes stride) else None.

(** * Properties *)

Import PyFloat.

(** ** The result monad *)

Lemma rbind_Ok_inv {A B} (r : result A) (k : A -> result B) (b : B) :
  rbind r k = Ok b -> exists a, r = Ok a /\ k a = Ok b.
Proof.
  destruct r as [a|e]; simpl; intros H; [eauto | discriminate].
Qed.

Lemma rbind_Raise_inv {A B} (r : result A) (k : A -> result B) (e : exn) :
  rbind r k = Raise e -> r = Raise e \/ exists a, r = Ok a /\ k a = Raise e.
Proof.
  destruct r as [a|e']; simpl; intros H; [right; eauto | left; congruence].
Qed.

Ltac inv_bind H :=
  let a := fresh "v" in
  let E := fresh "E" in
  apply rbind_Ok_inv in H; destruct H as (a & E & H).

(** ** Binary64 arithmetic on integers below 2^53

    The quotient of two integers is followed for a dividend below 2^53
    and any divisor below 2^1000. *)

Lemma digits2_pos_size p : digits2_pos p = Pos.size p.
Proof. induction p; simpl; congruence. Qed.

Lemma Zdigits2_log2 n : 0 < n -> Zdigits2 n = Z.log2 n + 1.
Proof.
  destruct n as [|p|p]; try lia. intros _. simpl. rewrite digits2_pos_size.
  destruct p; simpl; lia.
Qed.

Lemma Zdigits2_mul_pow2 n j : 0 < n -> 0 <= j -> Zdigits2 (n * 2 ^ j) = Zdigits2 n + j.
Proof.
  intros Hn Hj.
  assert (0 < n * 2 ^ j) by (apply Z.mul_pos_pos; [lia|]; apply Z.pow_pos_nonneg; lia).
  rewrite !Zdigits2_log2 by lia.
  rewrite Z.log2_mul_pow2 by lia. lia.
Qed.

Lemma Zdigits2_bounds n : 0 < n -> 2 ^ (Zdigits2 n - 1) <= n < 2 ^ Zdigits2 n.
Proof.
  intros Hn. rewrite Zdigits2_log2 by lia.
  replace (Z.log2 n + 1 - 1) with (Z.log2 n) by lia.
  replace (Z.log2 n + 1) with (Z.succ (Z.log2 n)) by lia.
  apply Z.log2_spec. lia.
Qed.

Lemma Zdigits2_unique n d : 2 ^ (d - 1) <= n < 2 ^ d -> 0 < n -> Zdigits2 n = d.
Proof.
  intros H Hn. rewrite Zdigits2_log2 by lia.
  assert (0 < d).
  { destruct (Z.ltb_spec 0 d); [assumption|]. 
    assert (2 ^ d <= 2 ^ 0) by (apply Z.pow_le_mono_r; lia). simpl in *. lia. }
  enough (Z.log2 n = d - 1) by lia.
  apply Z.log2_unique; [lia|]. replace (Z.succ (d - 1)) with d by lia. exact H.
Qed.

Lemma shr_1_double k :
  0 <= k -> shr_1 (Build_shr_record (2 * k) false false) = Build_shr_record k false false.
Proof. destruct k as [|p|p]; try lia; reflexivity. Qed.

Lemma pow2_xO n : 2 ^ Zpos n~0 = 2 ^ Zpos n * 2 ^ Zpos n.
Proof.
  assert (E : Zpos n~0 = Zpos n + Zpos n) by lia.
  rewrite E. apply Z.pow_add_r; lia.
Qed.

Lemma pow2_xI n : 2 ^ Zpos n~1 = 2 * (2 ^ Zpos n * 2 ^ Zpos n).
Proof.
  assert (E : Zpos n~1 = 1 + (Zpos n + Zpos n)) by lia.
  rewrite E. rewrite Z.pow_add_r by lia. rewrite Z.pow_add_r by lia. reflexivity.
Qed.

Lemma iter_pos_shr_1_exact n : forall m,
  0 <= m ->
  iter_pos shr_1 n (Build_shr_record (m * 2 ^ Zpos n) false false) =
  Build_shr_record m false false.
Proof.
  induction n as [n IH|n IH|]; intros m Hm; cbn [iter_pos].
  - assert (0 <= m * 2 ^ Zpos n) by (apply Z.mul_nonneg_nonneg; lia).
    replace (m * 2 ^ Zpos n~1) with (2 * ((m * 2 ^ Zpos n) * 2 ^ Zpos n))
      by (rewrite pow2_xI; ring).
    rewrite shr_1_double by (apply Z.mul_nonneg_nonneg; lia).
    rewrite IH by assumption. now apply IH.
  - assert (0 <= m * 2 ^ Zpos n) by (apply Z.mul_nonneg_nonneg; lia).
    replace (m * 2 ^ Zpos n~0) with ((m * 2 ^ Zpos n) * 2 ^ Zpos n)
      by (rewrite pow2_xO; ring).
    rewrite IH by assumption. now apply IH.
  - replace (m * 2 ^ 1) with (2 * m) by (rewrite Z.pow_1_r; ring).
    now apply shr_1_double.
Qed.

Lemma shr_exact m e n :
  0 <= m -> 0 <= n ->
  shr 
    (Build_shr_record (m * 2 ^ n) false false) e n =
  (Build_shr_record m false false, e + n).
Proof.
  intros Hm Hn. destruct n as [|p|p]; try lia.
  - simpl. rewrite Z.mul_1_r, Z.add_0_r. reflexivity.
  - unfold shr. now rewrite iter_pos_shr_1_exact.
Qed.

Lemma fexp_eq x : fexp prec emax x = Z.max (x - 53) (-1074).
Proof. reflexivity. Qed.

Lemma binary_round_aux_exact N j e :
  0 < N -> Zdigits2 N <= 53 -> 53 - Zdigits2 N <= j ->
  -1074 <= e + j - (53 - Zdigits2 N) <= 971 ->
  binary_round_aux prec emax false (N * 2 ^ j) e loc_Exact =
  S754_finite false (Z.to_pos (N * 2 ^ (53 - Zdigits2 N))) (e + j - (53 - Zdigits2 N)).
Proof.
  intros HN Hd Hj He.
  set (d := Zdigits2 N) in *.
  assert (Hd0 : 0 < d) by (pose proof (Zdigits2_log2 N HN); pose proof (Z.log2_nonneg N); lia).
  set (M := N * 2 ^ (53 - d)).
  assert (HM : 0 < M) by (apply Z.mul_pos_pos; [lia|]; apply Z.pow_pos_nonneg; lia).
  assert (HdM : Zdigits2 M = 53).
  { unfold M. rewrite Zdigits2_mul_pow2 by lia. fold d. lia. }
  set (n := j - (53 - d)).
  assert (Hn : 0 <= n) by (unfold n; lia).
  assert (Hen : e + j - (53 - d) = e + n) by (unfold n; lia).
  rewrite Hen in *.
  assert (Hsplit : N * 2 ^ j = M * 2 ^ n).
  { unfold M, n. rewrite <- Z.mul_assoc, <- Z.pow_add_r by lia. f_equal. f_equal. lia. }
  unfold binary_round_aux, shr_fexp.
  rewrite Hsplit. clearbody M n d.
  rewrite Zdigits2_mul_pow2 by lia. rewrite HdM.
  rewrite fexp_eq.
  replace (Z.max (53 + n + e - 53) (-1074) - e) with n by lia.
  cbn [shr_record_of_loc].
  rewrite shr_exact by lia.
  cbn [shr_m loc_of_shr_record round_nearest_even].
  rewrite HdM, fexp_eq.
  replace (Z.max (53 + (e + n) - 53) (-1074) - (e + n)) with 0 by lia.
  cbn [shr shr_m].
  destruct M as [|p|p] eqn:EM; try lia.
  replace (e + n <=? emax - prec) with true.
  - reflexivity.
  - symmetry. apply Z.leb_le. unfold emax, prec. lia.
Qed.

Lemma Pos_iter_xO m d : Zpos (Pos.iter xO m d) = Zpos m * 2 ^ Zpos d.
Proof.
  induction d as [|d IH] using Pos.peano_ind.
  - simpl. lia.
  - rewrite Pos.iter_succ, Pos2Z.inj_xO, IH, Pos2Z.inj_succ, Z.pow_succ_r by lia. ring.
Qed.

Lemma canon_eq N k :
  canon N k = S754_finite false (Z.to_pos (N * 2 ^ (53 - Zdigits2 N))) (Zdigits2 N - 53 - k).
Proof. reflexivity. Qed.

Lemma Zdigits2_le_53 N : 0 < N < 2 ^ 53 -> 0 < Zdigits2 N <= 53.
Proof.
  intros [H0 H1]. rewrite Zdigits2_log2 by lia.
  pose proof (Z.log2_nonneg N).
  assert (Z.log2 N < 53) by (apply Z.log2_lt_pow2; lia). lia.
Qed.

Lemma Zdigits2_le_1000 N : 0 < N < 2 ^ 1000 -> 0 < Zdigits2 N <= 1000.
Proof.
  intros [H0 H1]. rewrite Zdigits2_log2 by lia.
  pose proof (Z.log2_nonneg N).
  assert (Z.log2 N < 1000) by (apply Z.log2_lt_pow2; lia). lia.
Qed.

Lemma binary_normalize_exact N :
  0 < N < 2 ^ 53 ->
  binary_normalize prec emax N 0 false = canon N 0.
Proof.
  intros HN. pose proof (Zdigits2_le_53 N HN) as Hd.
  destruct N as [|p|p]; try lia.
  unfold binary_normalize, binary_round, shl_align.
  change (Zpos (digits2_pos p)) with (Zdigits2 (Zpos p)).
  rewrite fexp_eq.
  replace (Z.max (Zdigits2 (Zpos p) + 0 - 53) (-1074) - 0) with (Zdigits2 (Zpos p) - 53) by lia.
  destruct (Zdigits2 (Zpos p) - 53) as [|q|q] eqn:Eq; try lia.
  - replace (Zpos p) with (Zpos p * 2 ^ 0) at 1 by (rewrite Z.pow_0_r; lia).
    rewrite binary_round_aux_exact by lia.
    unfold canon. f_equal. lia.
  - rewrite Pos_iter_xO.
    rewrite binary_round_aux_exact by lia.
    unfold canon. f_equal. lia.
Qed.

Lemma of_int_exact N : 0 < N < 2 ^ 53 -> of_int N = Ok (canon N 0).
Proof.
  intros HN. unfold of_int. rewrite binary_normalize_exact by assumption. reflexivity.
Qed.

Lemma pow2_pos k : 0 <= k -> 0 < 2 ^ k.
Proof. intros. apply Z.pow_pos_nonneg; lia. Qed.

Lemma canon_mantissa N :
  0 < N < 2 ^ 53 -> Zpos (Z.to_pos (N * 2 ^ (53 - Zdigits2 N))) = N * 2 ^ (53 - Zdigits2 N).
Proof.
  intros HN. pose proof (Zdigits2_le_53 N HN). apply Z2Pos.id.
  apply Z.mul_pos_pos; [lia|]. apply pow2_pos. lia.
Qed.

Lemma sixty_four : of_int 64 = Ok (S754_finite false 4503599627370496 (-46)).
Proof. reflexivity. Qed.

Lemma div_64_exact N :
  0 < N < 2 ^ 53 ->
  div (canon N 0) (S754_finite false 4503599627370496 (-46)) = Ok (canon N 6).
Proof.
  intros HN. pose proof (Zdigits2_le_53 N HN) as Hd.
  unfold div, canon. f_equal.
  unfold SFdiv, SFdiv_core_binary.
  rewrite canon_mantissa by assumption.
  set (d := Zdigits2 N) in *.
  assert (HM : 0 < N * 2 ^ (53 - d)) by (apply Z.mul_pos_pos; [lia|]; apply pow2_pos; lia).
  rewrite Zdigits2_mul_pow2 by lia. fold d.
  change (Zdigits2 4503599627370496) with 53.
  rewrite fexp_eq.
  replace (Z.min (Z.max (d + (53 - d) + (d - 53 - 0) - (53 + -46) - 53) (-1074))
             (d - 53 - 0 - -46)) with (d - 60) by lia.
  replace (d - 53 - 0 - -46 - (d - 60)) with 53 by lia.
  rewrite Z.shiftl_mul_pow2 by lia.
  replace (Z.div_eucl (N * 2 ^ (53 - d) * 2 ^ 53) 4503599627370496)
    with (N * 2 ^ (54 - d), 0).
  - change (new_location 4503599627370496 0) with loc_Exact.
    cbn [xorb]. rewrite binary_round_aux_exact; fold d; try lia.
    f_equal. lia.
  - symmetry.
    pose proof (Z.div_eucl_eq (N * 2 ^ (53 - d) * 2 ^ 53) 4503599627370496 ltac:(lia)) as E.
    pose proof (Z.mod_pos_bound (N * 2 ^ (53 - d) * 2 ^ 53) 4503599627370496 ltac:(lia)) as B.
    unfold Z.modulo in B.
    destruct (Z.div_eucl (N * 2 ^ (53 - d) * 2 ^ 53) 4503599627370496) as [q r].
    assert (E2 : N * 2 ^ (53 - d) * 2 ^ 53 = 4503599627370496 * (N * 2 ^ (54 - d))).
    { replace (54 - d) with (53 - d + 1) by lia.
      rewrite Z.pow_add_r by lia. change (2 ^ 53) with (4503599627370496 * 2).
      change (2 ^ 1) with 2. ring. }
    rewrite E2 in E.
    assert (q = N * 2 ^ (54 - d) /\ r = 0) by nia.
    destruct H; subst; reflexivity.
Qed.

Lemma Zdigits2_mul_lower a b :
  0 < a -> 0 < b -> Zdigits2 a + Zdigits2 b - 1 <= Zdigits2 (a * b).
Proof.
  intros Ha Hb. rewrite !Zdigits2_log2 by lia.
  pose proof (Z.log2_mul_below a b Ha Hb). lia.
Qed.

Lemma mul_exact p b :
  0 < p -> 0 < b -> p * b < 2 ^ 53 ->
  mul (canon p 0) (canon b 6) = canon (p * b) 6.
Proof.
  intros Hp Hb Hpb.
  assert (Hp53 : 0 < p < 2 ^ 53) by nia.
  assert (Hb53 : 0 < b < 2 ^ 53) by nia.
  assert (Hpb53 : 0 < p * b < 2 ^ 53) by nia.
  pose proof (Zdigits2_le_53 p Hp53) as Hdp.
  pose proof (Zdigits2_le_53 b Hb53) as Hdb.
  pose proof (Zdigits2_le_53 (p * b) Hpb53) as Hdpb.
  pose proof (Zdigits2_mul_lower p b Hp Hb) as Hlow.
  unfold mul, canon, SFmul. cbn [xorb].
  rewrite Pos2Z.inj_mul, !canon_mantissa by assumption.
  set (dp := Zdigits2 p) in *. set (db := Zdigits2 b) in *.
  replace (p * 2 ^ (53 - dp) * (b * 2 ^ (53 - db)))
    with (p * b * 2 ^ (106 - dp - db)).
  - rewrite binary_round_aux_exact; try lia.
    f_equal. lia.
  - replace (106 - dp - db) with ((53 - dp) + (53 - db)) by lia.
    rewrite Z.pow_add_r by lia. ring.
Qed.

Lemma to_int_canon_6 N : 0 < N < 2 ^ 53 -> to_int (canon N 6) = Ok (N / 64).
Proof.
  intros HN. pose proof (Zdigits2_le_53 N HN) as Hd.
  unfold to_int, canon, floor_scaled.
  rewrite canon_mantissa by assumption.
  set (d := Zdigits2 N) in *.
  replace (0 <=? d - 53 - 6) with false by (symmetry; apply Z.leb_gt; lia).
  f_equal.
  replace (- (d - 53 - 6)) with (6 + (53 - d)) by lia.
  rewrite Z.pow_add_r by lia.
  rewrite Z.div_mul_cancel_r; [reflexivity | lia |].
  pose proof (pow2_pos (53 - d)). lia.
Qed.

Lemma Bottleneck_width_exact planes base_width groups :
  0 < planes -> 0 < base_width -> planes * base_width < 2 ^ 53 ->
  Bottleneck_width planes base_width groups = Ok (planes * base_width / 64 * groups).
Proof.
  intros Hp Hb Hpb.
  assert (Hp53 : 0 < planes < 2 ^ 53) by nia.
  assert (Hb53 : 0 < base_width < 2 ^ 53) by nia.
  unfold Bottleneck_width.
  rewrite (of_int_exact base_width) by assumption. cbn [rbind].
  rewrite sixty_four. cbn [rbind].
  rewrite div_64_exact by assumption. cbn [rbind].
  rewrite (of_int_exact planes) by assumption. cbn [rbind].
  rewrite mul_exact by assumption.
  rewrite to_int_canon_6 by lia. reflexivity.
Qed.

(** The second half of [binary_round_aux]: renormalise after rounding. *)
Lemma binary_round_aux_finish mx ex lx :
  binary_round_aux prec emax false mx ex lx =
  let '(mrs, e1) := shr_fexp prec emax mx ex lx in
  finish (round_nearest_even (shr_m mrs) (loc_of_shr_record mrs)) e1.
Proof. reflexivity. Qed.

Lemma finish_spec M1 e1 :
  2 ^ 52 <= M1 <= 2 ^ 53 -> -1074 <= e1 <= 900 ->
  exists M E, finish M1 e1 = S754_finite false M E /\
              e1 <= E /\ Zpos M * 2 ^ (E - e1) = M1.
Proof.
  intros HM He. unfold finish, shr_fexp. rewrite fexp_eq.
  destruct (Z.eq_dec M1 (2 ^ 53)) as [->|Hne].
  - change (Zdigits2 (2 ^ 53)) with 54.
    replace (Z.max (54 + e1 - 53) (-1074) - e1) with 1 by lia.
    cbn [shr_record_of_loc shr iter_pos]. change (2 ^ 53) with (2 * 2 ^ 52) at 1.
    rewrite shr_1_double by lia. cbn [shr_m].
    change (2 ^ 52) with (Zpos 4503599627370496) at 1. cbv iota.
    replace (e1 + 1 <=? emax - prec) with true
      by (symmetry; apply Z.leb_le; unfold emax, prec; lia).
    eexists _, _. split; [reflexivity|]. split; [lia|].
    replace (e1 + 1 - e1) with 1 by lia. reflexivity.
  - assert (HM' : 2 ^ (53 - 1) <= M1 < 2 ^ 53) by (change (53 - 1) with 52; lia).
    rewrite (Zdigits2_unique M1 53 HM') by lia.
    replace (Z.max (53 + e1 - 53) (-1074) - e1) with 0 by lia.
    cbn [shr_record_of_loc shr shr_m].
    destruct M1 as [|p|p]; try lia.
    replace (e1 <=? emax - prec) with true
      by (symmetry; apply Z.leb_le; unfold emax, prec; lia).
    eexists _, _. split; [reflexivity|]. split; [lia|].
    rewrite Z.sub_diag. simpl. lia.
Qed.

Lemma loc_of_shr_record_of_loc m l : loc_of_shr_record (shr_record_of_loc m l) = l.
Proof. destruct l as [|[]]; reflexivity. Qed.

Lemma shr_m_record_of_loc m l : shr_m (shr_record_of_loc m l) = m.
Proof. destruct l as [|[]]; reflexivity. Qed.

(** Rounding a 53- or 54-digit mantissa [q] to nearest: the result, read at
    the input's exponent, is [q] or [q + 1], and it is [q] when the
    location is exact.  An odd 54-digit [q] with an exact location (a tie)
    is left out. *)
Lemma binary_round_aux_near q e l :
  2 ^ 52 <= q < 2 ^ 54 -> -1074 <= e <= 800 ->
  (2 ^ 53 <= q -> Z.odd q = true -> l <> loc_Exact) ->
  exists M E,
    binary_round_aux prec emax false q e l = S754_finite false M E /\
    e <= E /\
    (Zpos M * 2 ^ (E - e) = q \/ Zpos M * 2 ^ (E - e) = q + 1) /\
    (l = loc_Exact -> Zpos M * 2 ^ (E - e) = q).
Proof.
  intros Hq He Htie. rewrite binary_round_aux_finish. unfold shr_fexp. rewrite fexp_eq.
  destruct (Z.ltb_spec q (2 ^ 53)) as [Hlt|Hge].
  - assert (Hq' : 2 ^ (53 - 1) <= q < 2 ^ 53) by (change (53 - 1) with 52; lia).
    rewrite (Zdigits2_unique q 53 Hq') by lia.
    replace (Z.max (53 + e - 53) (-1074) - e) with 0 by lia.
    cbn [shr]. rewrite loc_of_shr_record_of_loc, shr_m_record_of_loc.
    assert (HM1 : round_nearest_even q l = q \/ round_nearest_even q l = q + 1).
    { destruct l as [|[]]; simpl; auto. destruct (Z.even q); auto. }
    assert (HM1e : l = loc_Exact -> round_nearest_even q l = q) by (intros ->; reflexivity).
    destruct (finish_spec (round_nearest_even q l) e) as (M & E & HF & HE & HV); [lia|lia|].
    exists M, E. rewrite HF, HV. auto.
  - assert (Hq' : 2 ^ (54 - 1) <= q < 2 ^ 54) by (change (54 - 1) with 53; lia).
    rewrite (Zdigits2_unique q 54 Hq') by lia.
    replace (Z.max (54 + e - 53) (-1074) - e) with 1 by lia.
    cbn [shr iter_pos].
    set (h := q / 2).
    assert (Hh : 2 ^ 52 <= h < 2 ^ 53).
    { unfold h. change (2 ^ 53) with (2 * 2 ^ 52) in Hge.
      change (2 ^ 54) with (2 * 2 ^ 53) in Hq.
      split; [apply Z.div_le_lower_bound | apply Z.div_lt_upper_bound]; lia. }
    assert (HM1 : round_nearest_even (shr_m (shr_1 (shr_record_of_loc q l)))
                    (loc_of_shr_record (shr_1 (shr_record_of_loc q l))) =
                  if Z.odd q then h + 1 else h).
    { specialize (Htie Hge). unfold h. clear - Htie Hge.
      destruct q as [|[p|p|]|]; try (simpl in Hge; lia).
      - (* odd *) assert (Hl : l <> loc_Exact) by (apply Htie; reflexivity).
        change (Zpos p~1 / 2) with (Z.div2 (Zpos p~1)) || rewrite <- Z.div2_div.
        destruct l as [|[]]; try congruence; reflexivity.
      - rewrite <- Z.div2_div. destruct l as [|[]]; reflexivity. }
    rewrite HM1.
    destruct (finish_spec (if Z.odd q then h + 1 else h) (e + 1)) as (M & E & HF & HE & HV).
    { destruct (Z.odd q); lia. }
    { lia. }
    exists M, E. rewrite HF. split; [reflexivity|]. split; [lia|].
    assert (HW : Zpos M * 2 ^ (E - e) = 2 * (if Z.odd q then h + 1 else h)).
    { replace (E - e) with (1 + (E - (e + 1))) by lia.
      rewrite Z.pow_add_r by lia. change (2 ^ 1) with 2. rewrite <- HV. ring. }
    rewrite HW.
    pose proof (Zdiv2_odd_eqn q) as Hdiv. rewrite Z.div2_div in Hdiv. fold h in Hdiv.
    destruct (Z.odd q) eqn:Eo.
    + split; [right; lia|]. intros ->. exfalso. now apply (Htie Hge eq_refl).
    + split; [left; lia|]. intros _. lia.
Qed.

Lemma new_location_zero b : new_location b 0 = loc_Exact.
Proof. unfold new_location, new_location_even, new_location_odd. now destruct (Z.even b). Qed.

Lemma new_location_nonzero b r : r <> 0 -> new_location b r <> loc_Exact.
Proof.
  intros Hr. apply Z.eqb_neq in Hr.
  unfold new_location, new_location_even, new_location_odd.
  destruct (Z.even b); rewrite Hr; discriminate.
Qed.

Lemma SFdiv_core_ints a b :
  0 < a < 2 ^ 53 -> 0 < b < 2 ^ 1000 ->
  let s := 53 + Zdigits2 b - Zdigits2 a in
  SFdiv_core_binary prec emax a 0 b 0 =
  (a * 2 ^ s / b, - s, new_location b ((a * 2 ^ s) mod b)).
Proof.
  intros Ha Hb s.
  pose proof (Zdigits2_le_53 a Ha) as Hda. pose proof (Zdigits2_le_1000 b Hb) as Hdb.
  unfold SFdiv_core_binary. rewrite fexp_eq.
  replace (Z.min (Z.max (Zdigits2 a + 0 - (Zdigits2 b + 0) - 53) (-1074)) (0 - 0))
    with (- s) by (unfold s; lia).
  replace (0 - 0 - - s) with s by lia.
  assert (Hs : 0 < s) by (unfold s; lia).
  destruct s as [|ps|ps] eqn:Es; try lia.
  rewrite Z.shiftl_mul_pow2 by lia.
  unfold Z.div, Z.modulo.
  destruct (Z.div_eucl (a * 2 ^ Zpos ps) b) as [q r]. reflexivity.
Qed.

Lemma ceil_scaled_spec M E s :
  0 <= s -> 0 <= E + s ->
  ceil_scaled M E = - ((- (Zpos M * 2 ^ (E + s))) / 2 ^ s).
Proof.
  intros Hs HE. unfold ceil_scaled.
  pose proof (pow2_pos s Hs) as Hp.
  destruct (Z.leb_spec 0 E) as [H0|H0].
  - rewrite Z.pow_add_r by lia.
    replace (- (Zpos M * (2 ^ E * 2 ^ s))) with ((- (Zpos M * 2 ^ E)) * 2 ^ s) by ring.
    rewrite Z.div_mul by lia. lia.
  - f_equal.
    replace s with ((- E) + (E + s)) at 2 by lia.
    rewrite (Z.pow_add_r 2 (- E) (E + s)) by lia.
    replace (- (Zpos M * 2 ^ (E + s))) with ((- Zpos M) * 2 ^ (E + s)) by ring.
    pose proof (pow2_pos (E + s) HE). pose proof (pow2_pos (- E) ltac:(lia)).
    rewrite Z.div_mul_cancel_r by lia. reflexivity.
Qed.

Lemma ceil_arith a b P W :
  0 < a -> 0 < b -> b < P ->
  (W = a * P / b \/ W = a * P / b + 1) ->
  ((a * P) mod b = 0 -> W = a * P / b) ->
  - ((- W) / P) = (a + b - 1) / b.
Proof.
  intros Ha Hb HP HW HW0.
  pose proof (Z.div_mod (a * P) b ltac:(lia)) as Eq.
  pose proof (Z.mod_pos_bound (a * P) b ltac:(lia)) as Br.
  pose proof (Z.div_mod a b ltac:(lia)) as En.
  pose proof (Z.mod_pos_bound a b ltac:(lia)) as Bn.
  set (q := a * P / b) in *. set (r := (a * P) mod b) in *.
  set (n := a / b) in *. set (rho := a mod b) in *.
  assert (Hn0 : 0 <= n) by (unfold n; apply Z.div_pos; lia).
  destruct (Z.eq_dec rho 0) as [Hrho|Hrho].
  - (* b divides a *)
    assert (Hq : q = n * P /\ r = 0).
    { assert (E1 : b * q + r = b * (n * P)) by (rewrite <- Eq, En, Hrho; ring).
      assert (q = n * P) by nia. split; [assumption|]. nia. }
    destruct Hq as [Hq Hr]. rewrite (HW0 Hr), Hq.
    replace (- (n * P)) with ((- n) * P) by ring.
    rewrite Z.div_mul by lia.
    replace (a + b - 1) with (n * b + (b - 1)) by (rewrite En at 1; lia).
    rewrite Z.div_add_l by lia. rewrite Z.div_small by lia. lia.
  - (* b does not divide a *)
    assert (E1 : b * q + r = b * (n * P) + rho * P) by (rewrite <- Eq, En; ring).
    assert (Hlo : n * P + 1 <= q).
    { assert (rho * P >= P) by nia. nia. }
    assert (Hhi : q <= n * P + P - 1).
    { assert (rho * P <= (b - 1) * P) by nia. nia. }
    assert (HWb : n * P < W <= (n + 1) * P) by lia.
    assert (Hc : (- W) / P = - (n + 1)).
    { symmetry. apply Z.div_unique with (r := (n + 1) * P - W); [lia | ring]. }
    rewrite Hc.
    replace (a + b - 1) with ((n + 1) * b + (rho - 1)) by (rewrite En at 1; lia).
    rewrite Z.div_add_l by lia. rewrite Z.div_small by lia. lia.
Qed.

Lemma odd_times_pow2 q s :
  0 <= s -> Z.odd q = true -> forall b a, q * b = a * 2 ^ s -> (2 ^ s | b).
Proof.
  intros Hs Hq. pattern s. apply natlike_ind; [| |exact Hs]; clear s Hs.
  - intros b a _. exists b. simpl. lia.
  - intros s Hs IH b a E.
    rewrite Z.pow_succ_r in E by assumption.
    assert (Hb : Z.odd b = false).
    { assert (Ho : Z.odd (q * b) = false).
      { rewrite E. replace (a * (2 * 2 ^ s)) with (2 * (a * 2 ^ s)) by ring.
        apply Z.odd_even. }
      rewrite Z.odd_mul, Hq in Ho. exact Ho. }
    pose proof (Zdiv2_odd_eqn b) as Hd. rewrite Hb in Hd.
    destruct (IH (Z.div2 b) a) as [k Hk]; [nia|].
    exists k. rewrite Z.pow_succ_r by assumption. lia.
Qed.

Lemma quotient_digits a b :
  0 < a < 2 ^ 53 -> 0 < b < 2 ^ 1000 ->
  let s := 53 + Zdigits2 b - Zdigits2 a in
  2 ^ 52 <= a * 2 ^ s / b < 2 ^ 54 /\ b < 2 ^ s.
Proof.
  intros Ha Hb s.
  pose proof (Zdigits2_le_53 a Ha) as Hda. pose proof (Zdigits2_le_1000 b Hb) as Hdb.
  pose proof (Zdigits2_bounds a ltac:(lia)) as Ba.
  pose proof (Zdigits2_bounds b ltac:(lia)) as Bb.
  set (da := Zdigits2 a) in *. set (db := Zdigits2 b) in *.
  assert (Hs : s = 53 + db - da) by reflexivity. clearbody s.
  assert (E1 : 2 ^ (da - 1) * 2 ^ s = 2 ^ 52 * 2 ^ db).
  { rewrite <- !Z.pow_add_r by lia. f_equal. lia. }
  assert (E2 : 2 ^ da * 2 ^ s = 2 ^ 54 * 2 ^ (db - 1)).
  { rewrite <- !Z.pow_add_r by lia. f_equal. lia. }
  assert (E3 : 2 ^ s = 2 ^ db * 2 ^ (53 - da)).
  { rewrite <- !Z.pow_add_r by lia. f_equal. lia. }
  pose proof (pow2_pos s ltac:(lia)) as Ps.
  pose proof (pow2_pos (db - 1) ltac:(lia)) as Pdb1.
  pose proof (pow2_pos db ltac:(lia)) as Pdb.
  pose proof (pow2_pos (53 - da) ltac:(lia)) as Pda.
  split; [split|].
  - apply Z.div_le_lower_bound; [lia|].
    (* b * 2^52 <= a * 2^s *)
    assert (b * 2 ^ 52 <= 2 ^ db * 2 ^ 52) by nia.
    assert (2 ^ (da - 1) * 2 ^ s <= a * 2 ^ s) by nia.
    lia.
  - apply Z.div_lt_upper_bound; [lia|].
    assert (a * 2 ^ s < 2 ^ da * 2 ^ s) by nia.
    assert (2 ^ 54 * 2 ^ (db - 1) <= b * 2 ^ 54) by nia.
    lia.
  - rewrite E3. nia.
Qed.

Lemma ceil_div_exact oup ratio :
  0 < oup < 2 ^ 53 -> 0 < ratio < 2 ^ 1000 ->
  ceil_div oup ratio = Ok ((oup + ratio - 1) / ratio).
Proof.
  intros Ha Hb.
  pose proof (Zdigits2_le_53 oup Ha) as Hda. pose proof (Zdigits2_le_1000 ratio Hb) as Hdb.
  pose proof (quotient_digits oup ratio Ha Hb) as [Hq HbP].
  pose proof (SFdiv_core_ints oup ratio Ha Hb) as Hcore.
  set (s := 53 + Zdigits2 ratio - Zdigits2 oup) in *.
  assert (Hs : 0 < s) by (unfold s; lia).
  unfold ceil_div, int_truediv.
  replace (ratio =? 0) with false by (symmetry; apply Z.eqb_neq; lia).
  destruct oup as [|pa|pa]; try lia. destruct ratio as [|pb|pb]; try lia.
  cbn [int_as_finite SFdiv xorb]. rewrite Hcore.
  destruct (binary_round_aux_near (Zpos pa * 2 ^ s / Zpos pb) (- s)
              (new_location (Zpos pb) ((Zpos pa * 2 ^ s) mod Zpos pb)))
    as (M & E & HR & HE & HW & HW0).
  - exact Hq.
  - unfold s. lia.
  - intros _ Hodd. apply new_location_nonzero. intros Hr.
    pose proof (Z.div_mod (Zpos pa * 2 ^ s) (Zpos pb) ltac:(lia)) as Eq.
    rewrite Hr, Z.add_0_r in Eq.
    assert (Hdiv : (2 ^ s | Zpos pb)).
    { apply (odd_times_pow2 _ s ltac:(lia) Hodd _ (Zpos pa)). lia. }
    apply Z.divide_pos_le in Hdiv; lia.
  - rewrite HR. cbn [rbind ceil]. f_equal.
    rewrite (ceil_scaled_spec M E s) by lia.
    replace (E - - s) with (E + s) in * by lia.
    apply ceil_arith; try lia.
    intros Hr. apply HW0. rewrite Hr. apply new_location_zero.
Qed.

(** ** Binary64 arithmetic beyond 2^53: how small a rounded value can be *)

Lemma shr_1_half r :
  0 <= shr_m r -> shr_m (shr_1 r) = shr_m r / 2 /\ 0 <= shr_m (shr_1 r).
Proof.
  destruct r as [m rb sb]. cbn [shr_m]. intros Hm.
  destruct m as [|[p|p|]|]; try lia; cbn [shr_1 shr_m];
    rewrite <- Z.div2_div; cbn; lia.
Qed.

Lemma iter_pos_shr_1_div n : forall r,
  0 <= shr_m r ->
  shr_m (iter_pos shr_1 n r) = shr_m r / 2 ^ Zpos n /\ 0 <= shr_m (iter_pos shr_1 n r).
Proof.
  induction n as [n IH|n IH|]; intros r Hr; cbn [iter_pos].
  - destruct (shr_1_half r Hr) as [E1 P1].
    destruct (IH _ P1) as [E2 P2]. destruct (IH _ P2) as [E3 P3].
    split; [|exact P3]. rewrite E3, E2, E1.
    pose proof (pow2_pos (Zpos n) ltac:(lia)).
    rewrite !Z.div_div by lia. f_equal. rewrite pow2_xI. ring.
  - destruct (IH _ Hr) as [E2 P2]. destruct (IH _ P2) as [E3 P3].
    split; [|exact P3]. rewrite E3, E2.
    pose proof (pow2_pos (Zpos n) ltac:(lia)).
    rewrite !Z.div_div by lia. f_equal. rewrite pow2_xO. ring.
  - destruct (shr_1_half r Hr) as [E1 P1]. split; [|exact P1].
    rewrite E1. reflexivity.
Qed.

Lemma round_nearest_even_near q l :
  round_nearest_even q l = q \/ round_nearest_even q l = q + 1.
Proof. destruct l as [|[]]; simpl; auto. destruct (Z.even q); auto. Qed.

Lemma finish_lower M1 e1 :
  2 ^ 52 <= M1 <= 2 ^ 53 -> -1074 <= e1 ->
  finish M1 e1 = S754_infinity false \/ full_from e1 (finish M1 e1).
Proof.
  intros HM He. unfold finish, shr_fexp. rewrite fexp_eq.
  destruct (Z.eq_dec M1 (2 ^ 53)) as [->|Hne].
  - change (Zdigits2 (2 ^ 53)) with 54.
    replace (Z.max (54 + e1 - 53) (-1074) - e1) with 1 by lia.
    cbn [shr_record_of_loc shr iter_pos]. change (2 ^ 53) with (2 * 2 ^ 52) at 1.
    rewrite shr_1_double by lia. cbn [shr_m].
    change (2 ^ 52) with (Zpos 4503599627370496) at 1. cbv iota.
    destruct (e1 + 1 <=? emax - prec); [right | left; reflexivity].
    eexists _, _. split; [reflexivity|]. split; [|lia].
    change (2 ^ 52) with 4503599627370496. change (2 ^ 53) with 9007199254740992. lia.
  - assert (HM' : 2 ^ (53 - 1) <= M1 < 2 ^ 53) by (change (53 - 1) with 52; lia).
    rewrite (Zdigits2_unique M1 53 HM') by lia.
    replace (Z.max (53 + e1 - 53) (-1074) - e1) with 0 by lia.
    cbn [shr_record_of_loc shr shr_m].
    destruct M1 as [|p|p]; try lia.
    destruct (e1 <=? emax - prec); [right | left; reflexivity].
    eexists _, _. split; [reflexivity|]. split; [lia|lia].
Qed.

(** Rounding a mantissa of at least 53 digits gives an infinity or a float
    of full precision, whose exponent is at least the one that leaves 53
    digits. *)
Lemma binary_round_aux_lower m e :
  2 ^ 52 <= m -> -1074 <= e ->
  binary_round_aux prec emax false m e loc_Exact = S754_infinity false \/
  full_from (e + Zdigits2 m - 53) (binary_round_aux prec emax false m e loc_Exact).
Proof.
  intros Hm He. rewrite binary_round_aux_finish. unfold shr_fexp. rewrite fexp_eq.
  assert (Hm0 : 0 < m) by (pose proof (pow2_pos 52); lia).
  pose proof (Zdigits2_bounds m Hm0) as Bd.
  set (d := Zdigits2 m) in *.
  assert (Hd : 53 <= d).
  { destruct (Z.ltb_spec d 53) as [Hlt|]; [|assumption].
    assert (2 ^ d <= 2 ^ 52) by (apply Z.pow_le_mono_r; lia). lia. }
  replace (Z.max (d + e - 53) (-1074) - e) with (d - 53) by lia.
  cbn [shr_record_of_loc].
  destruct (d - 53) as [|n|n] eqn:En; try lia.
  - cbn [shr shr_m loc_of_shr_record round_nearest_even].
    assert (d = 53) by lia.
    destruct (finish_lower m e) as [Hf|Hf].
    + rewrite H in Bd. change (53 - 1) with 52 in Bd. lia.
    + assumption.
    + now left.
    + right. replace (e + d - 53) with e by lia. exact Hf.
  - unfold shr.
    destruct (iter_pos_shr_1_div n (Build_shr_record m false false)) as [Eq Pq];
      [cbn [shr_m]; lia|].
    cbn [shr_m] in Eq.
    set (r := iter_pos shr_1 n (Build_shr_record m false false)) in *.
    set (q := shr_m r) in *.
    assert (Hq : 2 ^ 52 <= q < 2 ^ 53).
    { rewrite Eq. pose proof (pow2_pos (Zpos n) ltac:(lia)) as Pn.
      assert (E1 : 2 ^ (d - 1) = 2 ^ 52 * 2 ^ Zpos n)
        by (rewrite <- Z.pow_add_r by lia; f_equal; lia).
      assert (E2 : 2 ^ d = 2 ^ 53 * 2 ^ Zpos n)
        by (rewrite <- Z.pow_add_r by lia; f_equal; lia).
      split.
      - apply Z.div_le_lower_bound; lia.
      - apply Z.div_lt_upper_bound; lia. }
    pose proof (round_nearest_even_near q (loc_of_shr_record r)) as Hr.
    destruct (finish_lower (round_nearest_even q (loc_of_shr_record r)) (e + Zpos n)) as [Hf|Hf].
    + destruct Hr as [-> | ->]; lia.
    + lia.
    + now left.
    + right. replace (e + d - 53) with (e + Zpos n) by lia. exact Hf.
Qed.

Lemma full_from_weaken k k' f : k' <= k -> full_from k f -> full_from k' f.
Proof.
  intros Hk (M & E & -> & HM & HE). exists M, E. split; [reflexivity|]. split; [assumption|lia].
Qed.

(** [float(n)] for a positive [n] of any size. *)
Lemma of_int_lower n :
  0 < n ->
  of_int n = Raise OverflowError \/
  exists f, of_int n = Ok f /\ full_from (Zdigits2 n - 53) f.
Proof.
  intros Hn. destruct (Z.ltb_spec n (2 ^ 53)) as [Hlt|Hge].
  - right. rewrite of_int_exact by lia. eexists. split; [reflexivity|].
    pose proof (Zdigits2_le_53 n ltac:(lia)) as Hd.
    pose proof (Zdigits2_bounds n Hn) as Bd.
    rewrite canon_eq. eexists _, _. split; [reflexivity|].
    rewrite canon_mantissa by lia.
    set (d := Zdigits2 n) in *.
    pose proof (pow2_pos (53 - d) ltac:(lia)) as P.
    assert (E1 : 2 ^ (d - 1) * 2 ^ (53 - d) = 2 ^ 52)
      by (rewrite <- Z.pow_add_r by lia; f_equal; lia).
    assert (E2 : 2 ^ d * 2 ^ (53 - d) = 2 ^ 53)
      by (rewrite <- Z.pow_add_r by lia; f_equal; lia).
    split; [|lia]. nia.
  - pose proof (Zdigits2_bounds n Hn) as Bd.
    set (d := Zdigits2 n) in *.
    assert (Hd : 54 <= d).
    { destruct (Z.ltb_spec d 54) as [Hlt|]; [|assumption].
      assert (2 ^ d <= 2 ^ 53) by (apply Z.pow_le_mono_r; lia). lia. }
    unfold of_int.
    destruct n as [|p|p]; try lia.
    unfold binary_normalize, binary_round, shl_align.
    change (Zpos (digits2_pos p)) with (Zdigits2 (Zpos p)). fold d.
    rewrite fexp_eq.
    replace (Z.max (d + 0 - 53) (-1074) - 0) with (d - 53) by lia.
    destruct (d - 53) as [|k|k] eqn:Ek; try lia.
    destruct (binary_round_aux_lower (Zpos p) 0) as [Hf|Hf]; [lia|lia| |].
    + left. rewrite Hf. reflexivity.
    + right. fold d in Hf. destruct Hf as (M & E & Hf & HM & HE).
      rewrite Hf. eexists. split; [reflexivity|].
      exists M, E. split; [reflexivity|]. split; [assumption|lia].
Qed.

(** Division by [64.] takes at most 6 from the exponent. *)
Lemma div_64_lower k f :
  -1000 <= k -> full_from k f ->
  exists g, div f (S754_finite false 4503599627370496 (-46)) = Ok g /\
            (g = S754_infinity false \/ full_from (k - 6) g).
Proof.
  intros Hk (M & E & -> & HM & HE).
  unfold div. eexists. split; [reflexivity|].
  unfold SFdiv, SFdiv_core_binary.
  assert (HdM : Zdigits2 (Zpos M) = 53)
    by (apply Zdigits2_unique; [change (53 - 1) with 52; lia | lia]).
  rewrite HdM. change (Zdigits2 4503599627370496) with 53.
  rewrite fexp_eq.
  replace (Z.min (Z.max (53 + E - (53 + -46) - 53) (-1074)) (E - -46)) with (E - 7) by lia.
  replace (E - -46 - (E - 7)) with 53 by lia.
  rewrite Z.shiftl_mul_pow2 by lia.
  replace (Z.div_eucl (Zpos M * 2 ^ 53) 4503599627370496) with (2 * Zpos M, 0).
  - change (new_location 4503599627370496 0) with loc_Exact. cbn [xorb].
    destruct (binary_round_aux_lower (2 * Zpos M) (E - 7)) as [Hf|Hf]; [lia|lia| |].
    + now left.
    + right. eapply full_from_weaken; [|exact Hf].
      assert (Zdigits2 (2 * Zpos M) = 54)
        by (apply Zdigits2_unique; [change (54 - 1) with 53;
                                    change (2 ^ 54) with (2 * 2 ^ 53); lia | lia]).
      lia.
  - symmetry.
    pose proof (Z.div_eucl_eq (Zpos M * 2 ^ 53) 4503599627370496 ltac:(lia)) as Eq.
    pose proof (Z.mod_pos_bound (Zpos M * 2 ^ 53) 4503599627370496 ltac:(lia)) as B.
    unfold Z.modulo in B.
    destruct (Z.div_eucl (Zpos M * 2 ^ 53) 4503599627370496) as [q r].
    change (2 ^ 53) with (4503599627370496 * 2) in Eq.
    assert (q = 2 * Zpos M /\ r = 0) by nia.
    destruct H; subst; reflexivity.
Qed.

(** The product of two floats of full precision. *)
Lemma mul_lower k1 k2 f g :
  -1074 <= k1 + k2 -> full_from k1 f -> full_from k2 g ->
  mul f g = S754_infinity false \/ full_from (k1 + k2 + 52) (mul f g).
Proof.
  intros Hk (M1 & E1 & -> & HM1 & HE1) (M2 & E2 & -> & HM2 & HE2).
  unfold mul, SFmul. cbn [xorb]. rewrite Pos2Z.inj_mul.
  assert (HP : 2 ^ 104 <= Zpos M1 * Zpos M2).
  { change (2 ^ 104) with (2 ^ 52 * 2 ^ 52). apply Z.mul_le_mono_nonneg; lia. }
  destruct (binary_round_aux_lower (Zpos M1 * Zpos M2) (E1 + E2)) as [Hf|Hf].
  - assert (2 ^ 52 <= 2 ^ 104) by (apply Z.pow_le_mono_r; lia). lia.
  - lia.
  - now left.
  - right. eapply full_from_weaken; [|exact Hf].
    assert (105 <= Zdigits2 (Zpos M1 * Zpos M2)).
    { pose proof (Zdigits2_bounds (Zpos M1 * Zpos M2) ltac:(lia)) as B.
      destruct (Z.ltb_spec (Zdigits2 (Zpos M1 * Zpos M2)) 105) as [Hlt|]; [|assumption].
      assert (2 ^ Zdigits2 (Zpos M1 * Zpos M2) <= 2 ^ 104) by (apply Z.pow_le_mono_r; lia).
      lia. }
    lia.
Qed.

(** [int(f)] of a float of full precision. *)
Lemma to_int_lower k f v :
  0 <= k + 52 -> full_from k f -> to_int f = Ok v -> 2 ^ (k + 52) <= v.
Proof.
  intros Hk (M & E & -> & HM & HE). cbn [to_int]. intros H. injection H as <-.
  unfold floor_scaled.
  destruct (Z.leb_spec 0 E) as [H0|H0].
  - assert (2 ^ (k + 52) <= 2 ^ (E + 52)) by (apply Z.pow_le_mono_r; lia).
    rewrite (Z.pow_add_r 2 E 52) in H by lia.
    pose proof (pow2_pos E H0). nia.
  - pose proof (pow2_pos (- E) ltac:(lia)) as P.
    apply Z.div_le_lower_bound; [lia|].
    assert (2 ^ (- E) * 2 ^ (k + 52) <= 2 ^ 52).
    { rewrite <- Z.pow_add_r by lia. apply Z.pow_le_mono_r; lia. }
    lia.
Qed.

Lemma mul_infinity f :
  (exists M E, f = S754_finite false M E) -> mul f (S754_infinity false) = S754_infinity false.
Proof. intros (M & E & ->). reflexivity. Qed.

(** Beyond the range where the computation is exact, the computed width is
    at least 2^46 per group. *)
Lemma Bottleneck_width_large planes base_width groups w :
  0 < planes -> 0 < base_width -> 2 ^ 53 <= planes * base_width ->
  Bottleneck_width planes base_width groups = Ok w ->
  exists w0, w = w0 * groups /\ 2 ^ 46 <= w0.
Proof.
  intros Hp Hb Hpb H.
  pose proof (Zdigits2_bounds planes Hp) as Bp.
  pose proof (Zdigits2_bounds base_width Hb) as Bb.
  set (dp := Zdigits2 planes) in *. set (db := Zdigits2 base_width) in *.
  assert (Hdp : 0 < dp) by (unfold dp; rewrite Zdigits2_log2 by lia;
                            pose proof (Z.log2_nonneg planes); lia).
  assert (Hdb : 0 < db) by (unfold db; rewrite Zdigits2_log2 by lia;
                            pose proof (Z.log2_nonneg base_width); lia).
  assert (Hd : 54 <= dp + db).
  { destruct (Z.ltb_spec (dp + db) 54) as [Hlt|]; [|assumption].
    assert (2 ^ (dp + db) <= 2 ^ 53) by (apply Z.pow_le_mono_r; lia).
    rewrite Z.pow_add_r in H0 by lia.
    assert (planes * base_width < 2 ^ dp * 2 ^ db) by nia. lia. }
  unfold Bottleneck_width in H.
  destruct (of_int_lower base_width Hb) as [Eb|(fb & Eb & Fb)]; rewrite Eb in H;
    cbn [rbind] in H; [discriminate|].
  rewrite sixty_four in H. cbn [rbind] in H.
  destruct (div_64_lower (db - 53) fb ltac:(lia) Fb) as (q & Eq & Fq).
  rewrite Eq in H. cbn [rbind] in H.
  destruct (of_int_lower planes Hp) as [Ep|(fp & Ep & Fp)]; rewrite Ep in H;
    cbn [rbind] in H; [discriminate|].
  fold dp in Fp.
  assert (Hfin : exists M E, fp = S754_finite false M E)
    by (destruct Fp as (M & E & -> & _); eauto).
  destruct Fq as [->|Fq].
  { rewrite (mul_infinity fp Hfin) in H. discriminate. }
  destruct (mul_lower (dp - 53) (db - 53 - 6) fp q ltac:(lia) Fp Fq) as [Em|Fm].
  { rewrite Em in H. discriminate. }
  destruct (to_int (mul fp q)) as [w0|e] eqn:Ew; cbn [rbind] in H; [|discriminate].
  injection H as <-. exists w0. split; [reflexivity|].
  pose proof (to_int_lower (dp - 53 + (db - 53 - 6) + 52) _ _ ltac:(lia) Fm Ew) as L.
  assert (2 ^ 46 <= 2 ^ (dp - 53 + (db - 53 - 6) + 52 + 52)) by (apply Z.pow_le_mono_r; lia).
  lia.
Qed.

(** ** BasicBlock.__init__ *)

Lemma BasicBlock_init_eq inplanes planes stride downsample groups base_width dilation :
  BasicBlock_init inplanes planes stride downsample groups base_width dilation =
  if negb (groups =? 1) || negb (base_width =? 64)
  then Raise ValueError_BasicBlock_groups_width
  else if 1 <? dilation
  then Raise NotImplementedError_BasicBlock_dilation
  else Ok (mkBasicBlock (conv3x3 inplanes planes stride 1 1) (nn_BatchNorm2d planes)
             (conv3x3 planes planes 1 1 1) (nn_BatchNorm2d planes) downsample stride).
Proof. reflexivity. Qed.

(** C4: constructing a plain residual block raises if and only if
    [groups != 1], or [base_width != 64], or [dilation > 1]; the first two
    raise the ValueError, the third (alone) the NotImplementedError; and the
    construction succeeds exactly under [groups = 1], [base_width = 64],
    [dilation <= 1]. *)
Theorem BasicBlock_init_raises_iff :
  forall inplanes planes stride downsample groups base_width dilation,
    let r := BasicBlock_init inplanes planes stride downsample groups base_width dilation in
    ((exists e, r = Raise e) <-> (groups <> 1 \/ base_width <> 64 \/ dilation > 1)) /\
    ((exists b, r = Ok b) <-> (groups = 1 /\ base_width = 64 /\ dilation <= 1)) /\
    (r = Raise ValueError_BasicBlock_groups_width <-> (groups <> 1 \/ base_width <> 64)) /\
    (r = Raise NotImplementedError_BasicBlock_dilation <->
       (groups = 1 /\ base_width = 64 /\ dilation > 1)).
Proof.
  intros inplanes planes stride downsample groups base_width dilation r.
  subst r. rewrite BasicBlock_init_eq.
  destruct (groups =? 1) eqn:Eg; destruct (base_width =? 64) eqn:Ew;
    destruct (1 <? dilation) eqn:Ed; simpl;
    rewrite ?Z.eqb_eq, ?Z.eqb_neq in Eg, Ew;
    rewrite ?Z.ltb_lt, ?Z.ltb_ge in Ed;
    repeat split; intros; 
    repeat match goal with
           | H : exists _, _ |- _ => destruct H
           | H : _ /\ _ |- _ => destruct H
           end;
    try discriminate; try lia; eauto;
    try (left; lia); try (right; left; lia); try (right; right; lia).
Qed.

(** ** Bottleneck.__init__ *)

Lemma Bottleneck_init_eq inplanes planes stride downsample groups base_width dilation :
  Bottleneck_init inplanes planes stride downsample groups base_width dilation =
  let? width := Bottleneck_width planes base_width groups in
  Ok (mkBottleneck (conv1x1 inplanes width 1) (nn_BatchNorm2d width)
        (conv3x3 width width stride groups dilation) (nn_BatchNorm2d width)
        (conv1x1 width (planes * 4) 1) (nn_BatchNorm2d (planes * 4))
        downsample stride).
Proof. reflexivity. Qed.

(** What the code computes beyond 53 bits is not a tensor size: the
    weight of the 3x3 convolution, [width * (width // groups) * 9]
    elements, is accepted only in the range where the width is exact. *)
Lemma Bottleneck_width_fits planes base_width groups w :
  0 < planes -> 0 < base_width -> 0 < groups ->
  Bottleneck_width planes base_width groups = Ok w ->
  tensor_fits [w; w / groups; 3; 3] = true ->
  planes * base_width < 2 ^ 53.
Proof.
  intros Hp Hb Hg Hw Hfit.
  destruct (Z.ltb_spec (planes * base_width) (2 ^ 53)) as [|Hge]; [assumption|exfalso].
  destruct (Bottleneck_width_large _ _ _ _ Hp Hb Hge Hw) as (w0 & -> & Hw0).
  unfold tensor_fits in Hfit. apply andb_true_iff in Hfit. destruct Hfit as [_ Hfit].
  apply Z.ltb_lt in Hfit. cbn [fold_right] in Hfit.
  rewrite Z.div_mul in Hfit by lia.
  assert (H1 : 2 ^ 46 * 2 ^ 46 <= w0 * w0) by (apply Z.mul_le_mono_nonneg; lia).
  assert (H2 : w0 * w0 <= w0 * groups * w0) by nia.
  change (2 ^ 46 * 2 ^ 46) with 4951760157141521099596496896 in H1.
  change (2 ^ 63) with 9223372036854775808 in Hfit.
  lia.
Qed.

(** C5: in every Bottleneck constructed with positive [planes],
    [base_width] and [groups] (the Python code returns the block, and
    torch accepts its 3x3 convolution), the 1x1-reduce and the 3x3 stages
    have width [floor(planes * base_width / 64) * groups], and the
    1x1-expand stage produces [planes * 4] channels.  The binary64
    computation [int(planes * (base_width / 64.)) * groups] is exact
    whenever [planes * base_width < 2^53], and beyond that bound the
    width it gives is more than any weight tensor holds. *)
Theorem Bottleneck_init_width :
  forall inplanes planes stride downsample groups base_width dilation b,
    0 < planes -> 0 < base_width -> 0 < groups ->
    Bottleneck_init inplanes planes stride downsample groups base_width dilation = Ok b ->
    Conv2d_accepted (bt_conv2 b) = true ->
    let width := planes * base_width / 64 * groups in
    out_channels (bt_conv1 b) = width /\
    num_features (bt_bn1 b) = width /\
    in_channels (bt_conv2 b) = width /\
    out_channels (bt_conv2 b) = width /\
    num_features (bt_bn2 b) = width /\
    in_channels (bt_conv3 b) = width /\
    out_channels (bt_conv3 b) = planes * 4 /\
    num_features (bt_bn3 b) = planes * 4.
Proof.
  intros inplanes planes stride downsample groups base_width dilation b Hp Hb Hg Hinit Hacc
         width.
  rewrite Bottleneck_init_eq in Hinit. inv_bind Hinit. injection Hinit as <-.
  cbn [bt_conv2] in Hacc. unfold Conv2d_accepted in Hacc.
  apply andb_true_iff in Hacc. destruct Hacc as [_ Hfit].
  cbn in Hfit. change (tensor_fits [v; v / groups; 3; 3] = true) in Hfit.
  pose proof (Bottleneck_width_fits _ _ _ _ Hp Hb Hg E Hfit) as Hlt.
  rewrite Bottleneck_width_exact in E by assumption. injection E as <-.
  cbn. repeat split; reflexivity.
Qed.

Lemma Bottleneck_init_width_witness :
  exists b,
    Bottleneck_init 256 128 2 None 32 4 1 = Ok b /\
    Conv2d_accepted (bt_conv2 b) = true /\
    out_channels (bt_conv1 b) = 128 * 4 / 64 * 32 /\
    num_features (bt_bn1 b) = 128 * 4 / 64 * 32 /\
    in_channels (bt_conv2 b) = 128 * 4 / 64 * 32 /\
    out_channels (bt_conv2 b) = 128 * 4 / 64 * 32 /\
    num_features (bt_bn2 b) = 128 * 4 / 64 * 32 /\
    in_channels (bt_conv3 b) = 128 * 4 / 64 * 32 /\
    out_channels (bt_conv3 b) = 128 * 4 /\
    num_features (bt_bn3 b) = 128 * 4.
Proof.
  eexists. split; [vm_compute; reflexivity|]. split; [vm_compute; reflexivity|].
  apply (Bottleneck_init_width 256 128 2 None 32 4 1);
    [lia | lia | lia | vm_compute; reflexivity | vm_compute; reflexivity].
Defined.

(** The float computation alone does round: [int((2^53 + 1) * (64 / 64.))]
    is [2^53].  No such width reaches a block that torch builds. *)
Lemma Bottleneck_width_rounds :
  Bottleneck_width (2 ^ 53 + 1) 64 1 = Ok (2 ^ 53) /\
  tensor_fits [2 ^ 53; 2 ^ 53 / 1; 3; 3] = false.
Proof. split; vm_compute; reflexivity. Qed.

Lemma last_cons_In {A} (l : list A) : forall a d, In (last (a :: l) d) (a :: l).
Proof.
  induction l as [|b l IH]; intros a d.
  - now left.
  - right. apply (IH b d).
Qed.

(** ** What a constructed block records *)

Lemma construct_fields block inplanes planes stride downsample groups base_width dilation b :
  construct block inplanes planes stride downsample groups base_width dilation = Ok b ->
  block_downsample b = downsample /\
  block_stride b = stride /\
  block_in_channels b = inplanes /\
  block_out_channels b = planes * expansion block.
Proof.
  destruct block; simpl; intros H; inv_bind H; injection H as <-.
  - rewrite BasicBlock_init_eq in E.
    destruct (negb (groups =? 1) || negb (base_width =? 64)); [discriminate|].
    destruct (1 <? dilation); [discriminate|].
    injection E as <-. simpl. repeat split; lia.
  - unfold Bottleneck_init in E. inv_bind E. injection E as <-.
    simpl. repeat split; reflexivity.
Qed.

(** ** The loop of identity blocks *)

Lemma identity_blocks_Ok block planes self n : forall layers out,
  identity_blocks block planes self n layers = Ok out ->
  exists rest,
    out = layers ++ rest /\
    List.length rest = n /\
    Forall (fun b => construct block (self_inplanes self) planes 1 None
                       (self_groups self) (self_base_width self) (self_dilation self) = Ok b)
           rest.
Proof.
  induction n as [|n IH]; simpl; intros layers out H.
  - injection H as <-. exists []. rewrite app_nil_r. repeat split. constructor.
  - inv_bind H. apply IH in H. destruct H as (rest & -> & Hlen & Hall).
    exists (v :: rest). rewrite <- app_assoc. simpl. repeat split.
    + now rewrite Hlen.
    + constructor; assumption.
Qed.

(** The loop succeeds as soon as one identity block can be built (or none
    is asked for). *)
Lemma identity_blocks_total block planes self b n : forall layers,
  construct block (self_inplanes self) planes 1 None
    (self_groups self) (self_base_width self) (self_dilation self) = Ok b ->
  identity_blocks block planes self n layers = Ok (layers ++ repeat b n).
Proof.
  induction n as [|n IH]; simpl; intros layers Hb.
  - now rewrite app_nil_r.
  - rewrite Hb. simpl. rewrite IH by assumption.
    rewrite <- app_assoc. reflexivity.
Qed.

Lemma identity_blocks_Raise block planes self e n : forall layers,
  construct block (self_inplanes self) planes 1 None
    (self_groups self) (self_base_width self) (self_dilation self) = Raise e ->
  identity_blocks block planes self (S n) layers = Raise e.
Proof.
  intros layers Hb. simpl. now rewrite Hb.
Qed.

(** ** _make_layer *)

Lemma _make_layer_Ok block planes blocks stride dilate self layers self' :
  _make_layer block planes blocks stride dilate self = Ok (layers, self') ->
  let s := effective_stride stride dilate in
  let downsample :=
    if negb (s =? 1) || negb (self_inplanes self =? planes * expansion block)
    then Some (projection block (self_inplanes self) planes s) else None in
  self' = mkSelf (planes * expansion block) (dilation_after self stride dilate)
                 (self_groups self) (self_base_width self) /\
  exists b1 rest,
    layers = b1 :: rest /\
    construct block (self_inplanes self) planes s downsample
      (self_groups self) (self_base_width self) (self_dilation self) = Ok b1 /\
    List.length rest = range1_len blocks /\
    Forall (fun b => construct block (planes * expansion block) planes 1 None
                       (self_groups self) (self_base_width self)
                       (dilation_after self stride dilate) = Ok b) rest.
Proof.
  unfold _make_layer, effective_stride, dilation_after, projection.
  intros H. inv_bind H. inv_bind H. injection H as <- <-.
  apply identity_blocks_Ok in E0. destruct E0 as (rest & -> & Hlen & Hall).
  destruct dilate; simpl in *; (split; [reflexivity|]);
    exists v, rest; repeat split; auto.
Qed.

(** C1: when [_make_layer] returns a stage, block #1 carries a projection
    shortcut (the 1x1 convolution followed by a normalization) if and only
    if the effective stride differs from 1 or the running input-channel
    count differs from [planes * expansion]; the running input-channel
    count is [planes * expansion] from block #1 on, so that every later
    block takes, and every block of the stage produces,
    [planes * expansion] channels. *)
Theorem make_layer_projection_iff :
  forall block planes blocks stride dilate self layers self',
    _make_layer block planes blocks stride dilate self = Ok (layers, self') ->
    let s := effective_stride stride dilate in
    exists b1 rest,
      layers = b1 :: rest /\
      (block_downsample b1 <> None <->
         (s <> 1 \/ self_inplanes self <> planes * expansion block)) /\
      (block_downsample b1 <> None ->
         block_downsample b1 = Some (projection block (self_inplanes self) planes s)) /\
      self_inplanes self' = planes * expansion block /\
      Forall (fun b => block_in_channels b = planes * expansion block /\
                       block_downsample b = None) rest /\
      Forall (fun b => block_out_channels b = planes * expansion block) layers /\
      block_out_channels (last layers b1) = planes * expansion block.
Proof.
  intros block planes blocks stride dilate self layers self' H s.
  apply _make_layer_Ok in H. destruct H as (-> & b1 & rest & -> & Hb1 & Hlen & Hrest).
  fold s in Hb1.
  apply construct_fields in Hb1. destruct Hb1 as (Hds & Hst & Hin & Hout).
  assert (Hall : Forall (fun b => block_out_channels b = planes * expansion block)
                   (b1 :: rest)).
  { constructor; [assumption|].
    eapply Forall_impl; [|exact Hrest]. intros b Hb.
    now apply construct_fields in Hb. }
  exists b1, rest. split; [reflexivity|]. rewrite Hds.
  split; [|split; [|split; [reflexivity|split; [|split; [exact Hall|]]]]].
  - destruct (s =? 1) eqn:Es; destruct (self_inplanes self =? planes * expansion block) eqn:Ei;
      simpl; rewrite ?Z.eqb_eq, ?Z.eqb_neq in Es, Ei;
      split; intros; try discriminate; try congruence; try lia; tauto.
  - destruct (negb (s =? 1) || negb (self_inplanes self =? planes * expansion block));
      [reflexivity | intros C; now elim C].
  - eapply Forall_impl; [|exact Hrest]. intros b Hb.
    apply construct_fields in Hb. tauto.
  - rewrite Forall_forall in Hall. apply Hall. apply last_cons_In.
Qed.

Lemma make_layer_projection_iff_witness :
  exists layers self',
    _make_layer BasicBlock 128 2 2 false (mkSelf 64 1 1 64) = Ok (layers, self') /\
    exists b1 rest,
      layers = b1 :: rest /\
      (block_downsample b1 <> None <-> (2 <> 1 \/ 64 <> 128 * 1)) /\
      (block_downsample b1 <> None ->
         block_downsample b1 = Some (projection BasicBlock 64 128 2)) /\
      self_inplanes self' = 128 * 1 /\
      Forall (fun b => block_in_channels b = 128 * 1 /\ block_downsample b = None) rest /\
      Forall (fun b => block_out_channels b = 128 * 1) layers /\
      block_out_channels (last layers b1) = 128 * 1.
Proof.
  eexists. eexists. split.
  - vm_compute. reflexivity.
  - apply (make_layer_projection_iff BasicBlock 128 2 2 false (mkSelf 64 1 1 64)).
    vm_compute. reflexivity.
Defined.

Lemma Bottleneck_conv_dilation inplanes planes stride downsample groups base_width dilation b :
  construct Bottleneck inplanes planes stride downsample groups base_width dilation = Ok b ->
  block_conv_dilation b = dilation.
Proof.
  simpl. intros H. inv_bind H. injection H as <-.
  unfold Bottleneck_init in E. inv_bind E. now injection E as <-.
Qed.

(** C2: when [_make_layer] returns a stage and [dilate] is set, the running
    dilation has been multiplied by the requested stride and the effective
    stride is 1 (without [dilate] both are left alone); block #1 is the
    block built with the effective stride and with the dilation held when
    the call began; each of the [blocks - 1] later blocks is the block built
    with stride 1, no shortcut and the running dilation as it is after the
    substitution.  For a bottleneck the dilation given is the one its 3x3
    convolution carries. *)
Theorem make_layer_dilate :
  forall block planes blocks stride dilate self layers self',
    _make_layer block planes blocks stride dilate self = Ok (layers, self') ->
    self_dilation self' = (if dilate then self_dilation self * stride else self_dilation self) /\
    exists b1 rest,
      layers = b1 :: rest /\
      construct block (self_inplanes self) planes (if dilate then 1 else stride)
        (block_downsample b1) (self_groups self) (self_base_width self)
        (self_dilation self) = Ok b1 /\
      block_stride b1 = (if dilate then 1 else stride) /\
      List.length rest = range1_len blocks /\
      Forall (fun b =>
                construct block (self_inplanes self') planes 1 None
                  (self_groups self) (self_base_width self) (self_dilation self') = Ok b /\
                block_stride b = 1 /\ block_downsample b = None) rest /\
      (block = Bottleneck ->
         block_conv_dilation b1 = self_dilation self /\
         Forall (fun b => block_conv_dilation b = self_dilation self') rest).
Proof.
  intros block planes blocks stride dilate self layers self' H.
  apply _make_layer_Ok in H. destruct H as (-> & b1 & rest & -> & Hb1 & Hlen & Hrest).
  unfold effective_stride, dilation_after in *. simpl.
  split; [reflexivity|].
  exists b1, rest. split; [reflexivity|].
  pose proof (construct_fields _ _ _ _ _ _ _ _ _ Hb1) as (Hds & Hst & _ & _).
  rewrite Hds. split; [exact Hb1|]. split; [exact Hst|]. split; [exact Hlen|]. split.
  - eapply Forall_impl; [|exact Hrest]. intros b Hb.
    pose proof (construct_fields _ _ _ _ _ _ _ _ _ Hb) as (Hd & Hs & _ & _). auto.
  - intros ->. split.
    + eapply Bottleneck_conv_dilation; exact Hb1.
    + eapply Forall_impl; [|exact Hrest]. intros b Hb.
      eapply Bottleneck_conv_dilation; exact Hb.
Qed.

Lemma make_layer_dilate_witness :
  exists layers self',
    _make_layer Bottleneck 256 3 2 true (mkSelf 512 1 32 4) = Ok (layers, self') /\
    self_dilation self' = 1 * 2 /\
    exists b1 rest,
      layers = b1 :: rest /\
      construct Bottleneck 512 256 1 (block_downsample b1) 32 4 1 = Ok b1 /\
      block_stride b1 = 1 /\
      List.length rest = range1_len 3 /\
      Forall (fun b =>
                construct Bottleneck (self_inplanes self') 256 1 None 32 4
                  (self_dilation self') = Ok b /\
                block_stride b = 1 /\ block_downsample b = None) rest /\
      (Bottleneck = Bottleneck ->
         block_conv_dilation b1 = 1 /\
         Forall (fun b => block_conv_dilation b = self_dilation self') rest).
Proof.
  eexists. eexists. split.
  - vm_compute. reflexivity.
  - apply (make_layer_dilate Bottleneck 256 3 2 true (mkSelf 512 1 32 4)).
    vm_compute. reflexivity.
Defined.

(** ** freeze_backbone and Unfreeze_backbone *)

Section SetGrad.

Variable flag : bool.

Lemma Conv2d_set_grad_parameters c :
  Conv2d_parameters (Conv2d_set_grad flag c) =
  map (set_requires_grad flag) (Conv2d_parameters c).
Proof. reflexivity. Qed.

Lemma BatchNorm2d_set_grad_parameters b :
  BatchNorm2d_parameters (BatchNorm2d_set_grad flag b) =
  map (set_requires_grad flag) (BatchNorm2d_parameters b).
Proof. reflexivity. Qed.

Lemma downsample_set_grad_parameters d :
  downsample_parameters (option_map (Shortcut_set_grad flag) d) =
  map (set_requires_grad flag) (downsample_parameters d).
Proof. destruct d; reflexivity. Qed.

Lemma Block_set_grad_parameters b :
  Block_parameters (Block_set_grad flag b) =
  map (set_requires_grad flag) (Block_parameters b).
Proof.
  destruct b as [o|o]; unfold Block_parameters, Block_set_grad; simpl;
    rewrite downsample_set_grad_parameters; reflexivity.
Qed.

Lemma Sequential_set_grad_parameters l :
  Sequential_parameters (map (Block_set_grad flag) l) =
  map (set_requires_grad flag) (Sequential_parameters l).
Proof.
  unfold Sequential_parameters.
  induction l as [|b l IH]; simpl; [reflexivity|].
  now rewrite map_app, Block_set_grad_parameters, IH.
Qed.

Lemma backbone_set_grad_parameters net :
  backbone_parameters (backbone_set_grad flag net) =
  map (set_requires_grad flag) (backbone_parameters net).
Proof.
  unfold backbone_parameters, backbone_set_grad; simpl.
  rewrite !Sequential_set_grad_parameters, !map_app. reflexivity.
Qed.

End SetGrad.

Lemma map_const_all {A} (f : A -> bool) (c : bool) (l : list A) :
  map f l = map (fun _ => c) l <-> Forall (fun a => f a = c) l.
Proof.
  induction l as [|a l IH]; simpl.
  - split; [constructor | reflexivity].
  - split.
    + intros H. injection H as Ha Hl. constructor; [assumption | now apply IH].
    + intros H. apply Forall_cons_iff in H. destruct H as [Ha Hl].
      rewrite Ha. f_equal. now apply IH.
Qed.

(** C3, as the code has it: [freeze_backbone] leaves the head [fc] as it
    is and makes every backbone parameter untrainable; [freeze_backbone]
    followed by [Unfreeze_backbone] leaves [fc] as it is, keeps every
    parameter's values and makes every backbone parameter trainable, so
    that the flags from before the freeze come back exactly when all of
    them were set. *)
Theorem freeze_then_Unfreeze :
  forall net,
    let before := backbone_parameters net in
    let frozen := backbone_parameters (freeze_backbone net) in
    let after := backbone_parameters (Unfreeze_backbone (freeze_backbone net)) in
    fc (freeze_backbone net) = fc net /\
    fc (Unfreeze_backbone (freeze_backbone net)) = fc net /\
    map requires_grad frozen = map (fun _ => false) before /\
    map requires_grad after = map (fun _ => true) before /\
    map data after = map data before /\
    (map requires_grad after = map requires_grad before <->
       Forall (fun p => requires_grad p = true) before).
Proof.
  intros net before frozen after. subst before frozen after.
  unfold freeze_backbone, Unfreeze_backbone.
  rewrite !backbone_set_grad_parameters.
  assert (Hafter : map requires_grad
            (map (set_requires_grad true)
               (map (set_requires_grad false) (backbone_parameters net))) =
          map (fun _ => true) (backbone_parameters net)).
  { rewrite !map_map. reflexivity. }
  split; [reflexivity|]. split; [reflexivity|].
  split; [rewrite !map_map; reflexivity|].
  split; [exact Hafter|].
  split; [rewrite !map_map; reflexivity|].
  rewrite Hafter. rewrite <- map_const_all. split; intros H; now symmetry.
Qed.

(** The flags from before the freeze do not come back: on the 18-layer
    network whose backbone was frozen once already, a freeze followed by an
    unfreeze turns every backbone flag from false to true. *)
Lemma freeze_then_Unfreeze_not_restored :
  exists net,
    ResNet_init BasicBlock [2; 2; 2; 2] 1000 false 1 64 None = Ok net /\
    let net0 := freeze_backbone net in
    map requires_grad (backbone_parameters (Unfreeze_backbone (freeze_backbone net0))) <>
    map requires_grad (backbone_parameters net0).
Proof.
  eexists. split.
  - vm_compute. reflexivity.
  - vm_compute. discriminate.
Qed.

(** ** ResNet.__init__, step by step *)

Lemma ResNet_init_Ok block layers num_classes zero_init_residual groups width_per_group r net :
  ResNet_init block layers num_classes zero_init_residual groups width_per_group r = Ok net ->
  exists n0 n1 n2 n3 d0 d1 d2 l1 l2 l3 l4 s1 s2 s3 s4,
    flags_or_default r = [d0; d1; d2] /\
    index layers 0 = Ok n0 /\ index layers 1 = Ok n1 /\
    index layers 2 = Ok n2 /\ index layers 3 = Ok n3 /\
    _make_layer block 64 n0 1 false (mkSelf 64 1 groups width_per_group) = Ok (l1, s1) /\
    _make_layer block 128 n1 2 d0 s1 = Ok (l2, s2) /\
    _make_layer block 256 n2 2 d1 s2 = Ok (l3, s3) /\
    _make_layer block 512 n3 2 d2 s3 = Ok (l4, s4) /\
    net = initialise zero_init_residual
            (assemble block groups width_per_group num_classes l1 l2 l3 l4 s4).
Proof.
  unfold ResNet_init. fold (flags_or_default r).
  destruct (flags_or_default r) as [|d0 [|d1 [|d2 [|d3 fl]]]]; simpl; try discriminate.
  intros H.
  inv_bind H. rename v into n0. inv_bind H. destruct v as [l1 s1].
  inv_bind H. rename v into n1. inv_bind H. destruct v as [l2 s2].
  inv_bind H. rename v into n2. inv_bind H. destruct v as [l3 s3].
  inv_bind H. rename v into n3. inv_bind H. destruct v as [l4 s4].
  injection H as <-.
  exists n0, n1, n2, n3, d0, d1, d2, l1, l2, l3, l4, s1, s2, s3, s4.
  repeat (split; [first [reflexivity | assumption]|]).
  unfold initialise, assemble. destruct zero_init_residual; reflexivity.
Qed.

(** The converse, for four repeat counts and three flags. *)
Lemma ResNet_init_eq block n0 n1 n2 n3 rest num_classes zero_init_residual groups
    width_per_group r d0 d1 d2 :
  flags_or_default r = [d0; d1; d2] ->
  ResNet_init block (n0 :: n1 :: n2 :: n3 :: rest) num_classes zero_init_residual groups
    width_per_group r =
  (let? '(l1, s1) := _make_layer block 64 n0 1 false (mkSelf 64 1 groups width_per_group) in
   let? '(l2, s2) := _make_layer block 128 n1 2 d0 s1 in
   let? '(l3, s3) := _make_layer block 256 n2 2 d1 s2 in
   let? '(l4, s4) := _make_layer block 512 n3 2 d2 s3 in
   Ok (initialise zero_init_residual
         (assemble block groups width_per_group num_classes l1 l2 l3 l4 s4))).
Proof.
  intros Hr. unfold ResNet_init. fold (flags_or_default r). rewrite Hr. simpl.
  destruct (_make_layer block 64 n0 1 false _) as [[l1 s1]|]; simpl; [|reflexivity].
  destruct (_make_layer block 128 n1 2 d0 s1) as [[l2 s2]|]; simpl; [|reflexivity].
  destruct (_make_layer block 256 n2 2 d1 s2) as [[l3 s3]|]; simpl; [|reflexivity].
  destruct (_make_layer block 512 n3 2 d2 s3) as [[l4 s4]|]; simpl; [|reflexivity].
  unfold initialise, assemble. destruct zero_init_residual; reflexivity.
Qed.

(** ** The initial normalization scales *)

Lemma construct_class block inplanes planes stride downsample groups base_width dilation b :
  construct block inplanes planes stride downsample groups base_width dilation = Ok b ->
  class_of b = block.
Proof.
  destruct block; simpl; intros H; inv_bind H; now injection H as <-.
Qed.

Lemma _make_layer_class block planes blocks stride dilate self layers self' :
  _make_layer block planes blocks stride dilate self = Ok (layers, self') ->
  Forall (fun b => class_of b = block) layers.
Proof.
  intros H. apply _make_layer_Ok in H.
  destruct H as (_ & b1 & rest & -> & Hb1 & _ & Hrest).
  constructor.
  - eapply construct_class; exact Hb1.
  - eapply Forall_impl; [|exact Hrest]. intros b Hb. eapply construct_class; exact Hb.
Qed.

Lemma init_Block_inner_norms b :
  Forall (fun n => scale n = constant_ 1) (Block_inner_norms (init_Block b)).
Proof.
  destruct b as [o|o]; simpl.
  - constructor; [reflexivity|].
    destruct (bb_downsample o); simpl; repeat constructor.
  - constructor; [reflexivity|]. constructor; [reflexivity|].
    destruct (bt_downsample o); simpl; repeat constructor.
Qed.

Lemma init_Block_last_norm b : scale (Block_last_norm (init_Block b)) = constant_ 1.
Proof. destruct b; reflexivity. Qed.

Lemma init_Block_class b : class_of (init_Block b) = class_of b.
Proof. destruct b; reflexivity. Qed.

Lemma zero_init_Block_class b : class_of (zero_init_Block b) = class_of b.
Proof. destruct b; reflexivity. Qed.

Lemma zero_init_Block_inner_norms b :
  Block_inner_norms (zero_init_Block b) = Block_inner_norms b.
Proof. destruct b; reflexivity. Qed.

Lemma zero_init_Block_last_norm b :
  scale (Block_last_norm (zero_init_Block b)) =
  match class_of b with
  | Bottleneck => constant_ 0
  | BasicBlock => scale (Block_last_norm b)
  end.
Proof. destruct b; reflexivity. Qed.

Lemma blocks_of_initialise z block groups w num_classes l1 l2 l3 l4 s :
  blocks_of (initialise z (assemble block groups w num_classes l1 l2 l3 l4 s)) =
  map (init_then z) (l1 ++ l2 ++ l3 ++ l4).
Proof.
  unfold blocks_of, initialise, init_then.
  destruct z; simpl; rewrite !map_app, ?map_map; reflexivity.
Qed.

Lemma bn1_initialise z net : scale (bn1 (initialise z net)) = constant_ 1.
Proof. destruct z; reflexivity. Qed.

(** C6: in a network that [ResNet.__init__] returns, every block is of the
    class asked for, the stem's normalization scale and every normalization
    scale of a block other than the last one of its main path are 1, and the
    last one ([bn3] of a bottleneck, [bn2] of a plain block) is 0 in a
    bottleneck built with [zero_init_residual] and 1 otherwise; so with
    [zero_init_residual] off, or with the plain block, every normalization
    scale is 1. *)
Theorem zero_init_residual_scales :
  forall block layers num_classes zero_init_residual groups width_per_group r net,
    ResNet_init block layers num_classes zero_init_residual groups width_per_group r
      = Ok net ->
    Forall (fun b => class_of b = block) (blocks_of net) /\
    scale (bn1 net) = constant_ 1 /\
    Forall (fun b => Forall (fun n => scale n = constant_ 1) (Block_inner_norms b))
           (blocks_of net) /\
    Forall (fun b =>
              match b with
              | A_Bottleneck o =>
                  scale (bt_bn3 o) = if zero_init_residual then constant_ 0 else constant_ 1
              | A_BasicBlock o => scale (bb_bn2 o) = constant_ 1
              end) (blocks_of net) /\
    (zero_init_residual = false \/ block = BasicBlock ->
       Forall (fun n => scale n = constant_ 1) (ResNet_norms net)).
Proof.
  intros block layers num_classes z groups w r net H.
  apply ResNet_init_Ok in H.
  destruct H as (n0 & n1 & n2 & n3 & d0 & d1 & d2 & l1 & l2 & l3 & l4 & s1 & s2 & s3 & s4
                 & _ & _ & _ & _ & _ & H1 & H2 & H3 & H4 & ->).
  apply _make_layer_class in H1, H2, H3, H4.
  assert (Hcl : Forall (fun b => class_of b = block) (l1 ++ l2 ++ l3 ++ l4)).
  { repeat (apply Forall_app; split); assumption. }
  clear H1 H2 H3 H4.
  assert (Hclass : Forall (fun b => class_of b = block)
                     (map (init_then z) (l1 ++ l2 ++ l3 ++ l4))).
  { rewrite Forall_map. eapply Forall_impl; [|exact Hcl]. intros b Hb.
    unfold init_then. destruct z; rewrite ?zero_init_Block_class, init_Block_class; exact Hb. }
  assert (Hinner : Forall (fun b => Forall (fun n => scale n = constant_ 1)
                                      (Block_inner_norms b))
                     (map (init_then z) (l1 ++ l2 ++ l3 ++ l4))).
  { rewrite Forall_map. rewrite Forall_forall. intros b _.
    unfold init_then. destruct z; rewrite ?zero_init_Block_inner_norms;
      apply init_Block_inner_norms. }
  assert (Hlast : Forall (fun b => scale (Block_last_norm b) =
                            match class_of b with
                            | Bottleneck => if z then constant_ 0 else constant_ 1
                            | BasicBlock => constant_ 1
                            end)
                     (map (init_then z) (l1 ++ l2 ++ l3 ++ l4))).
  { rewrite Forall_map. rewrite Forall_forall. intros b _.
    unfold init_then. destruct z.
    - rewrite zero_init_Block_last_norm, zero_init_Block_class, init_Block_class.
      destruct (class_of b); [apply init_Block_last_norm | reflexivity].
    - rewrite init_Block_last_norm. destruct (class_of (init_Block b)); reflexivity. }
  rewrite blocks_of_initialise.
  split; [exact Hclass|]. split; [apply bn1_initialise|]. split; [exact Hinner|]. split.
  - eapply Forall_impl; [|exact Hlast]. intros [o|o]; simpl; auto.
  - intros Hz. unfold ResNet_norms. rewrite blocks_of_initialise.
    constructor; [apply bn1_initialise|].
    rewrite Forall_flat_map. rewrite Forall_forall in Hclass, Hinner, Hlast.
    rewrite Forall_forall. intros b Hb.
    constructor; [|now apply Hinner].
    rewrite (Hlast b Hb). rewrite (Hclass b Hb).
    destruct Hz as [-> | ->]; [destruct block|]; reflexivity.
Qed.

Lemma zero_init_residual_scales_witness :
  exists net,
    ResNet_init Bottleneck [1; 1; 1; 1] 10 true 1 64 None = Ok net /\
    (Forall (fun b => class_of b = Bottleneck) (blocks_of net) /\
     scale (bn1 net) = constant_ 1 /\
     Forall (fun b => Forall (fun n => scale n = constant_ 1) (Block_inner_norms b))
            (blocks_of net) /\
     Forall (fun b =>
               match b with
               | A_Bottleneck o => scale (bt_bn3 o) = constant_ 0
               | A_BasicBlock o => scale (bb_bn2 o) = constant_ 1
               end) (blocks_of net) /\
     (true = false \/ Bottleneck = BasicBlock ->
        Forall (fun n => scale n = constant_ 1) (ResNet_norms net))).
Proof.
  eexists. split.
  - vm_compute. reflexivity.
  - apply (zero_init_residual_scales Bottleneck [1; 1; 1; 1] 10 true 1 64 None).
    vm_compute. reflexivity.
Defined.

(** ** Which exceptions come from where *)

Lemma of_int_Raise z e : PyFloat.of_int z = Raise e -> e = OverflowError.
Proof.
  unfold PyFloat.of_int.
  destruct (binary_normalize PyFloat.prec PyFloat.emax z 0 false); congruence.
Qed.

Lemma div_Raise x y e : PyFloat.div x y = Raise e -> e = ZeroDivisionError.
Proof. unfold PyFloat.div. destruct y; congruence. Qed.

Lemma to_int_Raise f e : PyFloat.to_int f = Raise e -> e = OverflowError \/ e = ValueError_nan.
Proof. unfold PyFloat.to_int. destruct f as [| | |[] ? ?]; intros H; inversion H; auto. Qed.

Lemma Bottleneck_width_Raise planes base_width groups e :
  Bottleneck_width planes base_width groups = Raise e -> block_exn e = true.
Proof.
  unfold Bottleneck_width. intros H.
  repeat match type of H with
         | rbind ?r _ = Raise _ =>
             let E := fresh "E" in
             apply rbind_Raise_inv in H; destruct H as [H | (? & E & H)]
         end;
    try (apply of_int_Raise in H; subst; reflexivity);
    try (apply div_Raise in H; subst; reflexivity);
    try (apply to_int_Raise in H; destruct H; subst; reflexivity);
    discriminate.
Qed.

Lemma construct_Raise block inplanes planes stride downsample groups base_width dilation e :
  construct block inplanes planes stride downsample groups base_width dilation = Raise e ->
  block_exn e = true.
Proof.
  destruct block; simpl; intros H;
    apply rbind_Raise_inv in H; destruct H as [H | (? & ? & H)]; try discriminate.
  - rewrite BasicBlock_init_eq in H.
    destruct (negb (groups =? 1) || negb (base_width =? 64)); [now inversion H|].
    destruct (1 <? dilation); now inversion H.
  - unfold Bottleneck_init in H.
    apply rbind_Raise_inv in H; destruct H as [H | (? & ? & H)]; try discriminate.
    eapply Bottleneck_width_Raise; exact H.
Qed.

Lemma identity_blocks_Raise_inv block planes self e n : forall layers,
  identity_blocks block planes self n layers = Raise e -> block_exn e = true.
Proof.
  induction n as [|n IH]; simpl; intros layers H; [discriminate|].
  apply rbind_Raise_inv in H; destruct H as [H | (? & ? & H)].
  - eapply construct_Raise; exact H.
  - eapply IH; exact H.
Qed.

Lemma _make_layer_Raise block planes blocks stride dilate self e :
  _make_layer block planes blocks stride dilate self = Raise e -> block_exn e = true.
Proof.
  unfold _make_layer. intros H.
  apply rbind_Raise_inv in H; destruct H as [H | (? & ? & H)].
  - eapply construct_Raise; exact H.
  - apply rbind_Raise_inv in H; destruct H as [H | (? & ? & H)]; [|discriminate].
    eapply identity_blocks_Raise_inv; exact H.
Qed.

Lemma index_Raise {A} (l : list A) i e : index l i = Raise e -> e = IndexError.
Proof. unfold index. destruct (nth_error l i); congruence. Qed.

(** The flag check comes first: with a wrong number of flags no other
    argument is looked at. *)
Lemma ResNet_init_flags block layers num_classes z groups w r :
  List.length (flags_or_default r) <> 3%nat ->
  ResNet_init block layers num_classes z groups w r =
  Raise ValueError_replace_stride_with_dilation.
Proof.
  intros H. unfold ResNet_init. fold (flags_or_default r).
  destruct (Nat.eqb (List.length (flags_or_default r)) 3) eqn:E; [|reflexivity].
  apply Nat.eqb_eq in E. contradiction.
Qed.

(** With three flags, whatever is raised comes from an index or a block. *)
Lemma ResNet_init_Raise block layers num_classes z groups w r e :
  List.length (flags_or_default r) = 3%nat ->
  ResNet_init block layers num_classes z groups w r = Raise e ->
  e = IndexError \/ block_exn e = true.
Proof.
  intros Hlen. unfold ResNet_init. fold (flags_or_default r).
  rewrite Hlen. simpl. intros H.
  repeat match type of H with
         | rbind ?r _ = Raise _ =>
             let E := fresh "E" in
             let v := fresh "v" in
             apply rbind_Raise_inv in H; destruct H as [H | (v & E & H)];
             [| try destruct v as [? ?]]
         end;
    try (apply index_Raise in H; now left);
    try (apply _make_layer_Raise in H; now right);
    discriminate.
Qed.

(** ** The check of the dilation flags *)

(** C7, as the code has it: [ResNet.__init__] raises the ValueError on
    [replace_stride_with_dilation] exactly when the flags ([None] standing
    for three false ones) are not three; the check comes first, before
    any stage is built, so with a wrong number of flags this is the error
    whatever the other arguments are.  With three flags construction can
    still fail, with another error: see the block's own checks below. *)
Theorem ResNet_init_flags_error :
  forall block layers num_classes z groups w r,
    ResNet_init block layers num_classes z groups w r =
      Raise ValueError_replace_stride_with_dilation
    <-> List.length (flags_or_default r) <> 3%nat.
Proof.
  intros block layers num_classes z groups w r. split.
  - intros H.
    destruct (Nat.eq_dec (List.length (flags_or_default r)) 3) as [E|E]; [|exact E].
    apply (ResNet_init_Raise _ _ _ _ _ _ _ _ E) in H. destruct H; discriminate.
  - apply ResNet_init_flags.
Qed.

(** With three flags, construction from plain blocks still fails for
    [groups = 2], and for a dilated third stage. *)
Lemma ResNet_init_fails_with_three_flags :
  List.length (flags_or_default (Some [false; false; false])) = 3%nat /\
  ResNet_init BasicBlock [2; 2; 2; 2] 1000 false 2 64 (Some [false; false; false]) =
    Raise ValueError_BasicBlock_groups_width /\
  List.length (flags_or_default (Some [false; true; false])) = 3%nat /\
  ResNet_init BasicBlock [2; 2; 2; 2] 1000 false 1 64 (Some [false; true; false]) =
    Raise NotImplementedError_BasicBlock_dilation.
Proof. repeat split. Qed.

(** ** Stages of plain blocks *)

Lemma construct_BasicBlock_1_64 inplanes planes stride downsample dilation :
  construct BasicBlock inplanes planes stride downsample 1 64 dilation =
  if 1 <? dilation then Raise NotImplementedError_BasicBlock_dilation
  else Ok (A_BasicBlock
             (mkBasicBlock (conv3x3 inplanes planes stride 1 1) (nn_BatchNorm2d planes)
                (conv3x3 planes planes 1 1 1) (nn_BatchNorm2d planes) downsample stride)).
Proof.
  simpl. rewrite BasicBlock_init_eq. simpl. destruct (1 <? dilation); reflexivity.
Qed.

Lemma construct_BasicBlock_groups_width inplanes planes stride downsample groups w dilation :
  groups <> 1 \/ w <> 64 ->
  construct BasicBlock inplanes planes stride downsample groups w dilation =
  Raise ValueError_BasicBlock_groups_width.
Proof.
  intros H. simpl. rewrite BasicBlock_init_eq.
  replace (negb (groups =? 1) || negb (w =? 64)) with true; [reflexivity|].
  symmetry. apply orb_true_iff.
  destruct H as [H|H]; [left|right]; apply negb_true_iff; now apply Z.eqb_neq.
Qed.

Section PlainStage.

Variables (planes blocks stride : Z) (dilate : bool) (self : self_state).
Hypothesis Hg : self_groups self = 1.
Hypothesis Hw : self_base_width self = 64.

Let after := mkSelf (planes * 1) (dilation_after self stride dilate) 1 64.

Lemma _make_layer_BasicBlock_previous :
  1 < self_dilation self ->
  _make_layer BasicBlock planes blocks stride dilate self =
  Raise NotImplementedError_BasicBlock_dilation.
Proof.
  intros Hd. unfold _make_layer.
  replace (self_groups (if dilate then set_dilation (self_dilation self * stride) self
                        else self)) with 1 by (destruct dilate; simpl; congruence).
  replace (self_base_width (if dilate then set_dilation (self_dilation self * stride) self
                            else self)) with 64 by (destruct dilate; simpl; congruence).
  rewrite construct_BasicBlock_1_64.
  apply Z.ltb_lt in Hd. rewrite Hd. reflexivity.
Qed.

Lemma _make_layer_BasicBlock_inflated :
  self_dilation self <= 1 -> 2 <= blocks -> 1 < dilation_after self stride dilate ->
  _make_layer BasicBlock planes blocks stride dilate self =
  Raise NotImplementedError_BasicBlock_dilation.
Proof.
  intros Hd Hb Ha. unfold _make_layer.
  replace (self_groups (if dilate then set_dilation (self_dilation self * stride) self
                        else self)) with 1 by (destruct dilate; simpl; congruence).
  replace (self_base_width (if dilate then set_dilation (self_dilation self * stride) self
                            else self)) with 64 by (destruct dilate; simpl; congruence).
  rewrite construct_BasicBlock_1_64.
  apply Z.ltb_ge in Hd. rewrite Hd. cbn [rbind].
  unfold range1_len. destruct (Z.to_nat (blocks - 1)) as [|n] eqn:En; [lia|].
  rewrite identity_blocks_Raise with (e := NotImplementedError_BasicBlock_dilation);
    [reflexivity|].
  cbn [set_inplanes self_groups self_base_width self_dilation self_inplanes].
  replace (self_groups (if dilate then set_dilation (self_dilation self * stride) self
                        else self)) with 1 by (destruct dilate; simpl; congruence).
  replace (self_base_width (if dilate then set_dilation (self_dilation self * stride) self
                            else self)) with 64 by (destruct dilate; simpl; congruence).
  rewrite construct_BasicBlock_1_64.
  replace (self_dilation (if dilate then set_dilation (self_dilation self * stride) self
                          else self)) with (dilation_after self stride dilate)
    by (destruct dilate; reflexivity).
  apply Z.ltb_lt in Ha. rewrite Ha. reflexivity.
Qed.

Lemma _make_layer_BasicBlock_Ok :
  self_dilation self <= 1 -> blocks < 2 \/ dilation_after self stride dilate <= 1 ->
  exists layers, _make_layer BasicBlock planes blocks stride dilate self = Ok (layers, after).
Proof.
  intros Hd Hb. unfold _make_layer.
  replace (self_groups (if dilate then set_dilation (self_dilation self * stride) self
                        else self)) with 1 by (destruct dilate; simpl; congruence).
  replace (self_base_width (if dilate then set_dilation (self_dilation self * stride) self
                            else self)) with 64 by (destruct dilate; simpl; congruence).
  rewrite construct_BasicBlock_1_64.
  apply Z.ltb_ge in Hd. rewrite Hd. cbn [rbind].
  assert (Hafter : set_inplanes (planes * expansion BasicBlock)
                     (if dilate then set_dilation (self_dilation self * stride) self
                      else self) = after).
  { unfold after, dilation_after, set_inplanes. destruct dilate; simpl; congruence. }
  rewrite Hafter.
  destruct Hb as [Hb|Hb].
  - unfold range1_len. replace (Z.to_nat (blocks - 1)) with O by lia.
    simpl. eexists. reflexivity.
  - assert (Hk : exists b, construct BasicBlock (self_inplanes after) planes 1 None
                             (self_groups after) (self_base_width after)
                             (self_dilation after) = Ok b).
    { unfold after. cbn [self_inplanes self_groups self_base_width self_dilation].
      rewrite construct_BasicBlock_1_64. apply Z.ltb_ge in Hb. rewrite Hb.
      eexists. reflexivity. }
    destruct Hk as [b Hk].
    rewrite (identity_blocks_total _ _ _ _ _ _ Hk). cbn [rbind].
    eexists. reflexivity.
Qed.

End PlainStage.

Ltac plain_stage_ok :=
  match goal with
  | |- context [_make_layer BasicBlock ?p ?n ?st ?d ?s] =>
      let l := fresh "l" in
      destruct (_make_layer_BasicBlock_Ok p n st d s eq_refl eq_refl) as (l & ->);
      [simpl; lia | simpl; lia | cbn [rbind]]
  end.

Ltac plain_stage_raises :=
  match goal with
  | |- context [_make_layer BasicBlock ?p ?n ?st ?d ?s] =>
      first
        [ rewrite (_make_layer_BasicBlock_previous p n st d s eq_refl eq_refl)
            by (simpl; lia)
        | rewrite (_make_layer_BasicBlock_inflated p n st d s eq_refl eq_refl)
            by (simpl; lia) ];
      reflexivity
  end.

Lemma ResNet_init_BasicBlock_flags n0 n1 n2 n3 rest d0 d1 d2 num_classes z :
  if dilated_plain_fails n3 d0 d1 d2
  then ResNet_init BasicBlock (n0 :: n1 :: n2 :: n3 :: rest) num_classes z 1 64
         (Some [d0; d1; d2]) = Raise NotImplementedError_BasicBlock_dilation
  else exists net,
         ResNet_init BasicBlock (n0 :: n1 :: n2 :: n3 :: rest) num_classes z 1 64
           (Some [d0; d1; d2]) = Ok net.
Proof.
  rewrite (ResNet_init_eq BasicBlock n0 n1 n2 n3 rest num_classes z 1 64
             (Some [d0; d1; d2]) d0 d1 d2 eq_refl).
  unfold dilated_plain_fails.
  plain_stage_ok.
  destruct d0; cbn [orb andb].
  { destruct (Z.ltb_spec n1 2); [plain_stage_ok|]; plain_stage_raises. }
  plain_stage_ok.
  destruct d1; cbn [orb andb].
  { destruct (Z.ltb_spec n2 2); [plain_stage_ok|]; plain_stage_raises. }
  plain_stage_ok.
  destruct d2; cbn [orb andb].
  - destruct (Z.leb_spec 2 n3).
    + plain_stage_raises.
    + plain_stage_ok. eexists. reflexivity.
  - plain_stage_ok. eexists. reflexivity.
Qed.

Lemma ResNet_init_BasicBlock_groups_width n0 n1 n2 n3 rest num_classes z groups w r d0 d1 d2 :
  flags_or_default r = [d0; d1; d2] ->
  groups <> 1 \/ w <> 64 ->
  ResNet_init BasicBlock (n0 :: n1 :: n2 :: n3 :: rest) num_classes z groups w r =
  Raise ValueError_BasicBlock_groups_width.
Proof.
  intros Hr H. rewrite (ResNet_init_eq _ _ _ _ _ _ _ _ _ _ _ _ _ _ Hr).
  unfold _make_layer at 1. cbn [self_groups self_base_width self_inplanes self_dilation].
  rewrite construct_BasicBlock_groups_width by assumption. reflexivity.
Qed.

Lemma inflated_dilation_reaches_iff n0 n1 n2 n3 d0 d1 d2 :
  inflated_dilation_reaches_a_block [n0; n1; n2; n3] [d0; d1; d2] <->
  dilated_plain_fails n3 d0 d1 d2 = true.
Proof.
  unfold inflated_dilation_reaches_a_block, dilated_plain_fails. split.
  - intros (i & Hi & Hreach).
    destruct i as [|[|[|i]]]; simpl in Hi, Hreach.
    + now rewrite Hi.
    + rewrite Hi. now rewrite orb_true_r.
    + rewrite Hi. destruct Hreach as [H|H]; [|lia].
      apply Z.leb_le in H. rewrite H. now rewrite orb_true_r.
    + destruct i; discriminate.
  - intros H. apply orb_true_iff in H. destruct H as [H|H].
    + apply orb_true_iff in H. destruct H as [->| ->].
      * exists 0%nat. simpl. split; [reflexivity|right; lia].
      * exists 1%nat. simpl. split; [reflexivity|right; lia].
    + apply andb_true_iff in H. destruct H as [-> H]. apply Z.leb_le in H.
      exists 2%nat. simpl. split; [reflexivity|left; exact H].
Qed.

(** C10: a network of plain blocks, with [groups = 1] and
    [width_per_group = 64] as a plain block demands, four repeat counts and
    three flags: when some dilated stage has two blocks or more, or is
    followed by another stage, [ResNet.__init__] raises the plain block's
    NotImplementedError on dilation, and otherwise it returns a network; in
    particular with the repeat counts of any of the presets, setting any
    flag makes construction fail.  (With other [groups] or
    [width_per_group] the first block already raises the plain block's
    ValueError.) *)
Theorem BasicBlock_dilation_flags_fail :
  forall n0 n1 n2 n3 d0 d1 d2 num_classes z,
    let r := ResNet_init BasicBlock [n0; n1; n2; n3] num_classes z 1 64
               (Some [d0; d1; d2]) in
    (inflated_dilation_reaches_a_block [n0; n1; n2; n3] [d0; d1; d2] ->
       r = Raise NotImplementedError_BasicBlock_dilation) /\
    (~ inflated_dilation_reaches_a_block [n0; n1; n2; n3] [d0; d1; d2] ->
       exists net, r = Ok net) /\
    (In [n0; n1; n2; n3] [[2; 2; 2; 2]; [3; 4; 6; 3]; [3; 4; 23; 3]; [3; 8; 36; 3]] ->
       d0 = true \/ d1 = true \/ d2 = true ->
       r = Raise NotImplementedError_BasicBlock_dilation) /\
    (forall groups w, groups <> 1 \/ w <> 64 ->
       ResNet_init BasicBlock [n0; n1; n2; n3] num_classes z groups w (Some [d0; d1; d2]) =
       Raise ValueError_BasicBlock_groups_width).
Proof.
  intros n0 n1 n2 n3 d0 d1 d2 num_classes z r.
  pose proof (ResNet_init_BasicBlock_flags n0 n1 n2 n3 [] d0 d1 d2 num_classes z) as H.
  fold r in H.
  split; [|split; [|split]].
  - intros Hreach. apply inflated_dilation_reaches_iff in Hreach.
    rewrite Hreach in H. exact H.
  - intros Hreach. rewrite inflated_dilation_reaches_iff in Hreach.
    destruct (dilated_plain_fails n3 d0 d1 d2); [now elim Hreach | exact H].
  - intros Hin Hd.
    assert (Hn3 : 2 <= n3).
    { simpl in Hin. destruct Hin as [E|[E|[E|[E|[]]]]]; injection E; intros; lia. }
    assert (Hf : dilated_plain_fails n3 d0 d1 d2 = true).
    { unfold dilated_plain_fails. apply Z.leb_le in Hn3. rewrite Hn3.
      destruct d0, d1, d2; try reflexivity. destruct Hd as [?|[?|?]]; discriminate. }
    rewrite Hf in H. exact H.
  - intros groups w Hgw. now apply ResNet_init_BasicBlock_groups_width with d0 d1 d2.
Qed.

Lemma BasicBlock_dilation_flags_fail_witness :
  ResNet_init BasicBlock [2; 2; 2; 1] 1000 false 1 64 (Some [false; true; false]) =
  Raise NotImplementedError_BasicBlock_dilation.
Proof.
  apply (proj1 (BasicBlock_dilation_flags_fail 2 2 2 1 false true false 1000 false)).
  exists 1%nat. simpl. split; [reflexivity | right; lia].
Defined.

(** ** The presets *)

Lemma ResNet_init_block cls layers num_classes z groups w r net :
  ResNet_init cls layers num_classes z groups w r = Ok net ->
  block net = cls /\ fc net = nn_Linear (512 * expansion cls) num_classes.
Proof.
  intros H. apply ResNet_init_Ok in H.
  destruct H as (n0 & n1 & n2 & n3 & d0 & d1 & d2 & l1 & l2 & l3 & l4 & s1 & s2 & s3 & s4
                 & _ & _ & _ & _ & _ & _ & _ & _ & _ & ->).
  unfold initialise. destruct z; split; reflexivity.
Qed.

Section PresetFacts.

Variable load_pretrained : string -> ResNet -> result ResNet.

Lemma preset_1000 name cls layers pretrained :
  preset load_pretrained name cls layers pretrained 1000 =
  (let? model := ResNet_init cls layers 1000 false 1 64 None in
   if pretrained then load_pretrained name model else Ok model).
Proof.
  unfold preset. simpl.
  destruct (ResNet_init cls layers 1000 false 1 64 None) as [m|e]; simpl; [|reflexivity].
  destruct pretrained; [|reflexivity].
  destruct (load_pretrained name m); reflexivity.
Qed.

Lemma preset_other name cls layers pretrained num_classes :
  num_classes <> 1000 ->
  preset load_pretrained name cls layers pretrained num_classes =
  (let? m0 := preset load_pretrained name cls layers pretrained 1000 in
   Ok (replace_fc (nn_Linear (512 * expansion (block m0)) num_classes) m0)).
Proof.
  intros Hn. rewrite preset_1000. unfold preset.
  apply Z.eqb_neq in Hn. rewrite Hn. simpl.
  destruct (ResNet_init cls layers 1000 false 1 64 None) as [m|e]; simpl; [|reflexivity].
  destruct pretrained; [|reflexivity].
  destruct (load_pretrained name m); reflexivity.
Qed.

End PresetFacts.

Lemma presets_spec load_pretrained P name cls layers :
  In (P, (name, cls, layers)) (presets load_pretrained) ->
  P = preset load_pretrained name cls layers /\
  exists m, ResNet_init cls layers 1000 false 1 64 None = Ok m.
Proof.
  unfold presets. simpl.
  intros [H|[H|[H|[H|[H|[]]]]]]; injection H as <- <- <- <-;
    (split; [reflexivity|]); eexists; vm_compute; reflexivity.
Qed.

Lemma keep_model_keeps_block :
  forall (name : string) (m m' : ResNet), keep_model name m = Ok m' -> block m' = block m.
Proof. intros name m m' H. injection H as <-. reflexivity. Qed.

(** C8: for each of the five presets, with a loader that leaves the block
    class of the model alone: called with [num_classes = 1000] the preset
    returns what [ResNet.__init__] built (after the load, when
    [pretrained]), which without [pretrained] exists and has the head
    [Linear(512 * expansion, 1000)]; called with another [num_classes] it
    returns that same model with the head replaced by a new
    [Linear(512 * expansion, num_classes)] (512 inputs for the plain-block
    presets, 2048 for the bottleneck ones), stem and stages being those of
    the [num_classes = 1000] call. *)
Theorem presets_replace_head :
  forall load_pretrained,
    (forall name m m', load_pretrained name m = Ok m' -> block m' = block m) ->
    forall P name cls layers,
      In (P, (name, cls, layers)) (presets load_pretrained) ->
      forall pretrained num_classes,
        (P pretrained 1000 =
           (let? model := ResNet_init cls layers 1000 false 1 64 None in
            if pretrained then load_pretrained name model else Ok model)) /\
        (exists m0, P false 1000 = Ok m0 /\
                    fc m0 = nn_Linear (512 * expansion cls) 1000) /\
        (num_classes <> 1000 ->
           forall m0, P pretrained 1000 = Ok m0 ->
             exists m,
               P pretrained num_classes = Ok m /\
               fc m = nn_Linear (512 * expansion cls) num_classes /\
               in_features (fc m) = 512 * expansion cls /\
               in_features (fc m) = (match cls with BasicBlock => 512 | Bottleneck => 2048 end) /\
               out_features (fc m) = num_classes /\
               backbone m = backbone m0 /\
               m = replace_fc (fc m) m0).
Proof.
  intros load Hload P name cls layers HP pretrained num_classes.
  apply presets_spec in HP. destruct HP as (-> & mi & Hinit).
  split; [apply preset_1000|]. split.
  - exists mi. rewrite preset_1000, Hinit. simpl. split; [reflexivity|].
    now apply ResNet_init_block in Hinit.
  - intros Hn m0 Hm0. rewrite preset_other by assumption. rewrite Hm0. simpl.
    assert (Hb : block m0 = cls).
    { rewrite preset_1000, Hinit in Hm0. simpl in Hm0.
      apply ResNet_init_block in Hinit. destruct Hinit as [Hb _].
      destruct pretrained.
      - apply Hload in Hm0. congruence.
      - injection Hm0 as <-. exact Hb. }
    eexists. split; [reflexivity|]. rewrite Hb. simpl.
    repeat split. destruct cls; reflexivity.
Qed.

Lemma presets_replace_head_witness :
  (resnet50 keep_model true 1000 =
     (let? model := ResNet_init Bottleneck [3; 4; 6; 3] 1000 false 1 64 None in
      if true then keep_model "resnet50"%string model else Ok model)) /\
  (exists m0, resnet50 keep_model false 1000 = Ok m0 /\
              fc m0 = nn_Linear (512 * expansion Bottleneck) 1000) /\
  (10 <> 1000 ->
     forall m0, resnet50 keep_model true 1000 = Ok m0 ->
       exists m,
         resnet50 keep_model true 10 = Ok m /\
         fc m = nn_Linear (512 * expansion Bottleneck) 10 /\
         in_features (fc m) = 512 * expansion Bottleneck /\
         in_features (fc m) = 2048 /\
         out_features (fc m) = 10 /\
         backbone m = backbone m0 /\
         m = replace_fc (fc m) m0).
Proof.
  apply (presets_replace_head keep_model keep_model_keeps_block
           (resnet50 keep_model) "resnet50"%string Bottleneck [3; 4; 6; 3]).
  unfold presets. simpl. right. right. left. reflexivity.
Defined.

(** * Further properties of the construction and of the forward passes *)

(** X1 ([ResNet._make_layer]): a stage that is built holds [max 1 blocks]
    blocks: the first block is always made, and [range(1, blocks)] adds
    [blocks - 1] more only when [blocks] exceeds one; a count of zero or
    below still gives one block. *)
Theorem make_layer_length :
  forall cls planes blocks stride dilate self layers self',
    _make_layer cls planes blocks stride dilate self = Ok (layers, self') ->
    Z.of_nat (List.length layers) = Z.max 1 blocks.
Proof.
  intros cls planes blocks stride dilate self layers self' H.
  apply _make_layer_Ok in H. destruct H as (_ & b1 & rest & -> & _ & Hlen & _).
  simpl List.length. rewrite Hlen. unfold range1_len. lia.
Qed.

Lemma make_layer_length_witness :
  exists layers self',
    _make_layer BasicBlock 64 0 1 false (mkSelf 64 1 1 64) = Ok (layers, self') /\
    Z.of_nat (List.length layers) = Z.max 1 0.
Proof.
  eexists. eexists. split.
  - vm_compute. reflexivity.
  - eapply (make_layer_length BasicBlock 64 0 1 false (mkSelf 64 1 1 64)).
    vm_compute. reflexivity.
Defined.

Lemma chained_app cin l1 l2 :
  chained cin (l1 ++ l2) <-> chained cin l1 /\ chained (chain_end cin l1) l2.
Proof.
  revert cin. induction l1 as [|b l1 IH]; intros cin; simpl.
  - tauto.
  - unfold chain_end. simpl. fold (chain_end (block_out_channels b) l1).
    rewrite IH. tauto.
Qed.

Lemma chain_end_app cin l1 l2 :
  chain_end cin (l1 ++ l2) = chain_end (chain_end cin l1) l2.
Proof. unfold chain_end. apply fold_left_app. Qed.

Lemma chained_uniform c l :
  Forall (fun b => block_in_channels b = c /\ block_out_channels b = c) l ->
  chained c l /\ chain_end c l = c.
Proof.
  induction l as [|b l IH]; intros H.
  - split; [exact I | reflexivity].
  - apply Forall_cons_iff in H. destruct H as [[Hi Ho] Hl].
    destruct (IH Hl) as [Hc He].
    unfold chain_end. simpl. rewrite Ho. fold (chain_end c l).
    repeat split; assumption.
Qed.

(** A stage is chained from the running channel count and ends at
    [planes * expansion]; its shortcuts fit. *)
Lemma make_layer_chained cls planes blocks stride dilate self layers self' :
  _make_layer cls planes blocks stride dilate self = Ok (layers, self') ->
  chained (self_inplanes self) layers /\
  chain_end (self_inplanes self) layers = planes * expansion cls /\
  Forall shortcut_fits layers /\
  stage_stride layers = effective_stride stride dilate /\
  Forall (fun b => block_stride b = 1) (tl layers).
Proof.
  intros H. apply _make_layer_Ok in H.
  destruct H as (_ & b1 & rest & -> & Hb1 & _ & Hrest).
  pose proof (construct_fields _ _ _ _ _ _ _ _ _ Hb1) as (Hds & Hst & Hin & Hout).
  assert (Hr : Forall (fun b => block_in_channels b = planes * expansion cls /\
                                block_out_channels b = planes * expansion cls) rest).
  { eapply Forall_impl; [|exact Hrest]. intros b Hb.
    apply construct_fields in Hb. tauto. }
  destruct (chained_uniform _ _ Hr) as [Hc He].
  split; [|split; [|split; [|split]]].
  - simpl. rewrite Hout. auto.
  - unfold chain_end. simpl. rewrite Hout. exact He.
  - constructor.
    + unfold shortcut_fits. rewrite Hds, Hst, Hin, Hout.
      destruct (effective_stride stride dilate =? 1) eqn:Es;
        destruct (self_inplanes self =? planes * expansion cls) eqn:Ei; simpl;
        rewrite ?Z.eqb_eq in *; repeat split; auto.
    + eapply Forall_impl; [|exact Hrest]. intros b Hb.
      apply construct_fields in Hb. destruct Hb as (Hd & Hs & Hi & Ho).
      unfold shortcut_fits. rewrite Hd, Hs, Hi, Ho. auto.
  - simpl. exact Hst.
  - simpl. eapply Forall_impl; [|exact Hrest]. intros b Hb.
    apply construct_fields in Hb. tauto.
Qed.

(** The initialisation passes change parameters only. *)
Lemma init_then_geometry z b :
  block_in_channels (init_then z b) = block_in_channels b /\
  block_out_channels (init_then z b) = block_out_channels b /\
  block_stride (init_then z b) = block_stride b /\
  block_conv_dilation (init_then z b) = block_conv_dilation b /\
  (shortcut_fits b -> shortcut_fits (init_then z b)).
Proof.
  unfold init_then, shortcut_fits.
  destruct z, b as [o|o]; simpl; repeat split; try reflexivity;
    first [destruct (bb_downsample o) | destruct (bt_downsample o)]; simpl; auto.
Qed.

Lemma chained_map_init z l : forall cin,
  chained cin l -> chained cin (map (init_then z) l).
Proof.
  induction l as [|b l IH]; intros cin H; simpl in *; [exact I|].
  destruct (init_then_geometry z b) as (Hi & Ho & _).
  rewrite Hi, Ho. destruct H as [H1 H2]. split; [exact H1 | now apply IH].
Qed.

Lemma chain_end_map_init z l : forall cin,
  chain_end cin (map (init_then z) l) = chain_end cin l.
Proof.
  unfold chain_end. induction l as [|b l IH]; intros cin; simpl; [reflexivity|].
  destruct (init_then_geometry z b) as (_ & Ho & _). rewrite Ho. apply IH.
Qed.

Lemma stage_stride_map_init z l :
  stage_stride (map (init_then z) l) = stage_stride l.
Proof.
  destruct l as [|b l]; [reflexivity|]. simpl.
  now destruct (init_then_geometry z b) as (_ & _ & Hs & _).
Qed.

Lemma layers_of_initialise z cls g w num_classes l1 l2 l3 l4 s :
  let net := initialise z (assemble cls g w num_classes l1 l2 l3 l4 s) in
  layer1 net = map (init_then z) l1 /\ layer2 net = map (init_then z) l2 /\
  layer3 net = map (init_then z) l3 /\ layer4 net = map (init_then z) l4 /\
  inplanes net = self_inplanes s /\ dilation net = self_dilation s /\
  in_channels (conv1 net) = 3 /\ out_channels (conv1 net) = 64 /\
  kernel_size (conv1 net) = 7 /\ conv_stride (conv1 net) = 2 /\
  padding (conv1 net) = 3 /\ conv_dilation (conv1 net) = 1 /\
  num_features (bn1 net) = 64 /\
  fc net = nn_Linear (512 * expansion cls) num_classes /\
  groups net = g /\ base_width net = w /\ block net = cls.
Proof.
  unfold initialise, init_then. destruct z; simpl; rewrite ?map_map; repeat split.
Qed.

(** X2 ([ResNet.__init__], [ResNet._make_layer]): in a network that is
    built, the stem reads 3 channels and its normalization has the stem's
    width; every block reads the channels the block before it writes,
    beginning with the stem's; the last block writes [512 * expansion]
    channels, which is what the classifier reads and what [self.inplanes]
    ends at; the classifier writes [num_classes]; and every shortcut maps
    the block's input to the shape of its output, a block without one
    keeping channels and stride. *)
Theorem ResNet_init_chained :
  forall cls layers num_classes z groups w r net,
    ResNet_init cls layers num_classes z groups w r = Ok net ->
    in_channels (conv1 net) = 3 /\
    num_features (bn1 net) = out_channels (conv1 net) /\
    chained (out_channels (conv1 net)) (blocks_of net) /\
    chain_end (out_channels (conv1 net)) (blocks_of net) = in_features (fc net) /\
    in_features (fc net) = 512 * expansion cls /\
    out_features (fc net) = num_classes /\
    inplanes net = 512 * expansion cls /\
    Forall shortcut_fits (blocks_of net).
Proof.
  intros cls layers num_classes z groups w r net H.
  apply ResNet_init_Ok in H.
  destruct H as (n0 & n1 & n2 & n3 & d0 & d1 & d2 & l1 & l2 & l3 & l4 & s1 & s2 & s3 & s4
                 & _ & _ & _ & _ & _ & H1 & H2 & H3 & H4 & ->).
  pose proof (make_layer_chained _ _ _ _ _ _ _ _ H1) as (C1 & E1 & F1 & _).
  pose proof (make_layer_chained _ _ _ _ _ _ _ _ H2) as (C2 & E2 & F2 & _).
  pose proof (make_layer_chained _ _ _ _ _ _ _ _ H3) as (C3 & E3 & F3 & _).
  pose proof (make_layer_chained _ _ _ _ _ _ _ _ H4) as (C4 & E4 & F4 & _).
  apply _make_layer_Ok in H1, H2, H3, H4.
  destruct H1 as (-> & _), H2 as (-> & _), H3 as (-> & _), H4 as (-> & _).
  cbn [self_inplanes] in *.
  match goal with
  | |- context [initialise z (assemble cls groups w num_classes l1 l2 l3 l4 ?s)] =>
      pose proof (layers_of_initialise z cls groups w num_classes l1 l2 l3 l4 s)
        as (_ & _ & _ & _ & Hin & _ & Hc1 & Hc2 & _ & _ & _ & _ & Hb1 & Hfc & _)
  end.
  rewrite blocks_of_initialise, Hc1, Hc2, Hb1, Hfc, Hin.
  cbn [in_features out_features nn_Linear self_inplanes].
  assert (Hch : chained 64 (l1 ++ l2 ++ l3 ++ l4) /\
                chain_end 64 (l1 ++ l2 ++ l3 ++ l4) = 512 * expansion cls).
  { rewrite !chained_app, !chain_end_app. rewrite E1, E2, E3, E4. tauto. }
  destruct Hch as [Hch Hend].
  repeat split; try reflexivity.
  - now apply chained_map_init.
  - rewrite chain_end_map_init. exact Hend.
  - rewrite Forall_map.
    assert (Hf : Forall shortcut_fits (l1 ++ l2 ++ l3 ++ l4))
      by (repeat (apply Forall_app; split); assumption).
    eapply Forall_impl; [|exact Hf]. intros b Hb.
    now apply init_then_geometry.
Qed.

Lemma ResNet_init_chained_witness :
  exists net,
    ResNet_init Bottleneck [3; 4; 6; 3] 1000 true 32 4 (Some [false; true; true]) = Ok net /\
    (in_channels (conv1 net) = 3 /\
     num_features (bn1 net) = out_channels (conv1 net) /\
     chained (out_channels (conv1 net)) (blocks_of net) /\
     chain_end (out_channels (conv1 net)) (blocks_of net) = in_features (fc net) /\
     in_features (fc net) = 512 * expansion Bottleneck /\
     out_features (fc net) = 1000 /\
     inplanes net = 512 * expansion Bottleneck /\
     Forall shortcut_fits (blocks_of net)).
Proof.
  eexists. split.
  - vm_compute. reflexivity.
  - apply (ResNet_init_chained Bottleneck [3; 4; 6; 3] 1000 true 32 4
             (Some [false; true; true])).
    vm_compute. reflexivity.
Defined.

Lemma tl_map_init z l : tl (map (init_then z) l) = map (init_then z) (tl l).
Proof. destruct l; reflexivity. Qed.

(** X3 ([ResNet.__init__], [ResNet._make_layer]): with the three flags
    [d0], [d1], [d2] for stages 2 to 4, the network's final [dilation] is
    the product of a factor 2 per flag set; stage 1 has stride 1 and each
    later stage stride 1 when its flag is set and 2 otherwise, so that
    dilation times the strides of stages 2 to 4 is always 8; and every
    block but the first of its stage has stride 1. *)
Theorem ResNet_init_stride_dilation :
  forall cls layers num_classes z groups w r net d0 d1 d2,
    ResNet_init cls layers num_classes z groups w r = Ok net ->
    flags_or_default r = [d0; d1; d2] ->
    dilation net = flag_factor d0 * flag_factor d1 * flag_factor d2 /\
    stage_stride (layer1 net) = 1 /\
    stage_stride (layer2 net) = (if d0 then 1 else 2) /\
    stage_stride (layer3 net) = (if d1 then 1 else 2) /\
    stage_stride (layer4 net) = (if d2 then 1 else 2) /\
    dilation net *
      (stage_stride (layer2 net) * stage_stride (layer3 net) * stage_stride (layer4 net)) = 8 /\
    Forall (fun b => block_stride b = 1)
      (tl (layer1 net) ++ tl (layer2 net) ++ tl (layer3 net) ++ tl (layer4 net)).
Proof.
  intros cls layers num_classes z groups w r net d0 d1 d2 H Hr.
  apply ResNet_init_Ok in H.
  destruct H as (n0 & n1 & n2 & n3 & e0 & e1 & e2 & l1 & l2 & l3 & l4 & s1 & s2 & s3 & s4
                 & Hr' & _ & _ & _ & _ & H1 & H2 & H3 & H4 & ->).
  rewrite Hr in Hr'. injection Hr' as <- <- <-.
  pose proof (make_layer_chained _ _ _ _ _ _ _ _ H1) as (_ & _ & _ & S1 & T1).
  pose proof (make_layer_chained _ _ _ _ _ _ _ _ H2) as (_ & _ & _ & S2 & T2).
  pose proof (make_layer_chained _ _ _ _ _ _ _ _ H3) as (_ & _ & _ & S3 & T3).
  pose proof (make_layer_chained _ _ _ _ _ _ _ _ H4) as (_ & _ & _ & S4 & T4).
  apply _make_layer_Ok in H1, H2, H3, H4.
  destruct H1 as (-> & _), H2 as (-> & _), H3 as (-> & _), H4 as (-> & _).
  match goal with
  | |- context [initialise z (assemble cls groups w num_classes l1 l2 l3 l4 ?s)] =>
      pose proof (layers_of_initialise z cls groups w num_classes l1 l2 l3 l4 s)
        as (L1 & L2 & L3 & L4 & _ & Hd & _)
  end.
  rewrite L1, L2, L3, L4, Hd, !stage_stride_map_init, S1, S2, S3, S4.
  unfold effective_stride, dilation_after, flag_factor. simpl self_dilation.
  repeat split; try (destruct d0, d1, d2; reflexivity).
  rewrite !tl_map_init, <- !map_app, Forall_map.
  assert (Hf : Forall (fun b => block_stride b = 1) (tl l1 ++ tl l2 ++ tl l3 ++ tl l4))
    by (repeat (apply Forall_app; split); assumption).
  eapply Forall_impl; [|exact Hf]. intros b Hb.
  destruct (init_then_geometry z b) as (_ & _ & Hs & _). congruence.
Qed.

Lemma ResNet_init_stride_dilation_witness :
  exists net,
    ResNet_init Bottleneck [3; 4; 6; 3] 10 false 1 64 (Some [false; true; true]) = Ok net /\
    (dilation net = flag_factor false * flag_factor true * flag_factor true /\
     stage_stride (layer1 net) = 1 /\
     stage_stride (layer2 net) = 2 /\
     stage_stride (layer3 net) = 1 /\
     stage_stride (layer4 net) = 1 /\
     dilation net *
       (stage_stride (layer2 net) * stage_stride (layer3 net) * stage_stride (layer4 net)) = 8 /\
     Forall (fun b => block_stride b = 1)
       (tl (layer1 net) ++ tl (layer2 net) ++ tl (layer3 net) ++ tl (layer4 net))).
Proof.
  eexists. split.
  - vm_compute. reflexivity.
  - apply (ResNet_init_stride_dilation Bottleneck [3; 4; 6; 3] 10 false 1 64
             (Some [false; true; true]) _ false true true).
    + vm_compute. reflexivity.
    + reflexivity.
Defined.

(** ** Grouped convolutions *)

Lemma Bottleneck_width_multiple planes base_width groups w :
  Bottleneck_width planes base_width groups = Ok w -> (groups | w).
Proof.
  unfold Bottleneck_width. intros H.
  repeat inv_bind H. injection H as <-. apply Z.divide_factor_r.
Qed.

(** X4 ([Bottleneck.__init__]): a bottleneck that is built has layers
    that fit each other: each normalization has the width of the
    convolution before it, each convolution reads what the one before
    writes; only the middle convolution is grouped, strided and dilated,
    its padding equals its dilation, and its width is a multiple of
    [groups], as a grouped convolution demands. *)
Theorem Bottleneck_init_consistent :
  forall inplanes planes stride downsample groups base_width dilation b,
    Bottleneck_init inplanes planes stride downsample groups base_width dilation = Ok b ->
    in_channels (bt_conv1 b) = inplanes /\
    num_features (bt_bn1 b) = out_channels (bt_conv1 b) /\
    in_channels (bt_conv2 b) = out_channels (bt_conv1 b) /\
    out_channels (bt_conv2 b) = in_channels (bt_conv2 b) /\
    num_features (bt_bn2 b) = out_channels (bt_conv2 b) /\
    in_channels (bt_conv3 b) = out_channels (bt_conv2 b) /\
    num_features (bt_bn3 b) = out_channels (bt_conv3 b) /\
    conv_groups (bt_conv1 b) = 1 /\ conv_groups (bt_conv3 b) = 1 /\
    conv_groups (bt_conv2 b) = groups /\
    (groups | in_channels (bt_conv2 b)) /\
    (groups | out_channels (bt_conv2 b)) /\
    conv_stride (bt_conv1 b) = 1 /\ conv_stride (bt_conv3 b) = 1 /\
    conv_stride (bt_conv2 b) = stride /\
    conv_dilation (bt_conv2 b) = dilation /\ padding (bt_conv2 b) = dilation.
Proof.
  intros inplanes planes stride downsample groups base_width dilation b H.
  unfold Bottleneck_init in H. inv_bind H. injection H as <-.
  apply Bottleneck_width_multiple in E. simpl. repeat split; assumption.
Qed.

Lemma Bottleneck_init_consistent_witness :
  exists b,
    Bottleneck_init 256 128 2 None 32 4 1 = Ok b /\
    (in_channels (bt_conv1 b) = 256 /\
     num_features (bt_bn1 b) = out_channels (bt_conv1 b) /\
     in_channels (bt_conv2 b) = out_channels (bt_conv1 b) /\
     out_channels (bt_conv2 b) = in_channels (bt_conv2 b) /\
     num_features (bt_bn2 b) = out_channels (bt_conv2 b) /\
     in_channels (bt_conv3 b) = out_channels (bt_conv2 b) /\
     num_features (bt_bn3 b) = out_channels (bt_conv3 b) /\
     conv_groups (bt_conv1 b) = 1 /\ conv_groups (bt_conv3 b) = 1 /\
     conv_groups (bt_conv2 b) = 32 /\
     (32 | in_channels (bt_conv2 b)) /\
     (32 | out_channels (bt_conv2 b)) /\
     conv_stride (bt_conv1 b) = 1 /\ conv_stride (bt_conv3 b) = 1 /\
     conv_stride (bt_conv2 b) = 2 /\
     conv_dilation (bt_conv2 b) = 1 /\ padding (bt_conv2 b) = 1).
Proof.
  eexists. split.
  - vm_compute. reflexivity.
  - apply (Bottleneck_init_consistent 256 128 2 None 32 4 1). vm_compute. reflexivity.
Defined.

(** ** Freezing and unfreezing, composed *)

Section SetGradTwice.

Variables a b : bool.

Lemma Conv2d_set_grad_twice c :
  Conv2d_set_grad a (Conv2d_set_grad b c) = Conv2d_set_grad a c.
Proof. reflexivity. Qed.

Lemma BatchNorm2d_set_grad_twice n :
  BatchNorm2d_set_grad a (BatchNorm2d_set_grad b n) = BatchNorm2d_set_grad a n.
Proof. reflexivity. Qed.

Lemma Block_set_grad_twice blk :
  Block_set_grad a (Block_set_grad b blk) = Block_set_grad a blk.
Proof.
  destruct blk as [o|o]; simpl;
    first [destruct (bb_downsample o) | destruct (bt_downsample o)]; reflexivity.
Qed.

Lemma backbone_set_grad_twice net :
  backbone_set_grad a (backbone_set_grad b net) = backbone_set_grad a net.
Proof.
  unfold backbone_set_grad. simpl. rewrite !map_map.
  f_equal; apply map_ext; intros; apply Block_set_grad_twice.
Qed.

End SetGradTwice.

(** X5 ([ResNet.freeze_backbone], [ResNet.Unfreeze_backbone]): each of
    the two switches is idempotent, and of two switches applied in a row
    only the second counts. *)
Theorem freeze_Unfreeze_compose :
  forall net,
    freeze_backbone (freeze_backbone net) = freeze_backbone net /\
    Unfreeze_backbone (Unfreeze_backbone net) = Unfreeze_backbone net /\
    Unfreeze_backbone (freeze_backbone net) = Unfreeze_backbone net /\
    freeze_backbone (Unfreeze_backbone net) = freeze_backbone net.
Proof.
  intros net. unfold freeze_backbone, Unfreeze_backbone.
  repeat split; apply backbone_set_grad_twice.
Qed.

(** ** The parameters of a freshly built network *)

Lemma construct_fresh cls inplanes planes stride downsample groups base_width dilation b :
  construct cls inplanes planes stride downsample groups base_width dilation = Ok b ->
  (forall d, downsample = Some d ->
             conv_weight (sc_conv d) = new_parameter /\
             bn_weight (sc_norm d) = new_parameter /\ bn_bias (sc_norm d) = new_parameter) ->
  fresh_block b.
Proof.
  intros H Hd. unfold fresh_block.
  destruct cls; simpl in H; inv_bind H; injection H as <-.
  - rewrite BasicBlock_init_eq in E.
    destruct (negb (groups =? 1) || negb (base_width =? 64)); [discriminate|].
    destruct (1 <? dilation); [discriminate|]. injection E as <-.
    unfold Block_convs, Block_norms, Block_inner_norms, Block_last_norm. simpl.
    destruct downsample as [d|]; simpl.
    + destruct (Hd d eq_refl) as (H1 & H2 & H3). repeat constructor; assumption.
    + repeat constructor.
  - unfold Bottleneck_init in E. inv_bind E. injection E as <-.
    unfold Block_convs, Block_norms, Block_inner_norms, Block_last_norm. simpl.
    destruct downsample as [d|]; simpl.
    + destruct (Hd d eq_refl) as (H1 & H2 & H3). repeat constructor; assumption.
    + repeat constructor.
Qed.

Lemma make_layer_fresh cls planes blocks stride dilate self layers self' :
  _make_layer cls planes blocks stride dilate self = Ok (layers, self') ->
  Forall fresh_block layers.
Proof.
  intros H. apply _make_layer_Ok in H.
  destruct H as (_ & b1 & rest & -> & Hb1 & _ & Hrest).
  constructor.
  - eapply construct_fresh; [exact Hb1|].
    intros d Hd.
    destruct (negb (effective_stride stride dilate =? 1)
              || negb (self_inplanes self =? planes * expansion cls));
      [|discriminate].
    injection Hd as <-. repeat split.
  - eapply Forall_impl; [|exact Hrest]. intros b Hb.
    eapply construct_fresh; [exact Hb|]. intros d Hd. discriminate.
Qed.

Lemma init_then_fresh z b :
  fresh_block b ->
  Forall (fun c => conv_weight c = mkParam kaiming_normal_fan_out_relu true)
         (Block_convs (init_then z b)) /\
  Forall (fun n => bn_bias n = mkParam (constant_ 0) true /\
                   requires_grad (bn_weight n) = true) (Block_norms (init_then z b)).
Proof.
  unfold fresh_block, init_then, Block_convs, Block_norms,
    Block_inner_norms, Block_last_norm.
  intros [Hc Hn].
  destruct b as [o|o]; simpl in *;
    first [destruct (bb_downsample o) as [d|] | destruct (bt_downsample o) as [d|]];
    simpl in *;
    repeat match goal with
           | H : Forall _ (_ :: _) |- _ => apply Forall_cons_iff in H; destruct H
           | H : _ /\ _ |- _ => destruct H
           end;
    destruct z; simpl;
    split; repeat constructor; simpl;
    repeat match goal with
           | H : _ = new_parameter |- _ => rewrite H
           end;
    reflexivity.
Qed.

Lemma Conv2d_set_grad_fix c :
  requires_grad (conv_weight c) = true -> Conv2d_set_grad true c = c.
Proof.
  destruct c as [? ? ? ? ? ? ? [dt rg]]. simpl. intros ->. reflexivity.
Qed.

Lemma BatchNorm2d_set_grad_fix n :
  requires_grad (bn_weight n) = true -> requires_grad (bn_bias n) = true ->
  BatchNorm2d_set_grad true n = n.
Proof.
  destruct n as [? [dw rw] [db rb]]. simpl. intros -> ->. reflexivity.
Qed.

Lemma trainable_block_fix b :
  trainable_block b ->
  Block_set_grad true b = b /\
  Forall (fun p => requires_grad p = true) (Block_parameters b).
Proof.
  unfold trainable_block, Block_convs, Block_norms, Block_inner_norms, Block_last_norm.
  intros [Hc Hn].
  destruct b as [o|o]; destruct o; simpl in *;
    match goal with
    | d : option Shortcut |- _ => destruct d as [[sc sn]|]
    end; simpl in *;
    repeat match goal with
           | H : Forall _ (_ :: _) |- _ => apply Forall_cons_iff in H; destruct H
           | H : _ /\ _ |- _ => destruct H
           end;
    (split;
     [ unfold Shortcut_set_grad; simpl;
       rewrite ?Conv2d_set_grad_fix, ?BatchNorm2d_set_grad_fix by assumption; reflexivity
     | unfold Block_parameters, Shortcut_parameters, Conv2d_parameters,
         BatchNorm2d_parameters; simpl; repeat constructor; assumption ]).
Qed.

Lemma map_fix {A} (f : A -> A) l : Forall (fun a => f a = a) l -> map f l = l.
Proof.
  induction l as [|a l IH]; intros H; [reflexivity|].
  apply Forall_cons_iff in H. destruct H as [Ha Hl]. simpl. now rewrite Ha, IH.
Qed.

Lemma init_then_trainable z b : fresh_block b -> trainable_block (init_then z b).
Proof.
  intros H. destruct (init_then_fresh z b H) as [Hc Hn]. split.
  - eapply Forall_impl; [|exact Hc]. intros c ->. reflexivity.
  - eapply Forall_impl; [|exact Hn]. intros n [-> Hw]. split; [exact Hw|reflexivity].
Qed.

(** X6 ([ResNet.__init__], [ResNet.Unfreeze_backbone]): in a network that
    is built every convolution weight is initialised by
    [kaiming_normal_] (fan out, relu), every normalization bias is the
    constant 0, the classifier keeps torch's default initialisation, and
    every parameter is trainable; hence [Unfreeze_backbone] leaves a new
    network as it is, and freezing then unfreezing gives it back. *)
Theorem ResNet_init_parameters :
  forall cls layers num_classes z groups w r net,
    ResNet_init cls layers num_classes z groups w r = Ok net ->
    Forall (fun c => conv_weight c = mkParam kaiming_normal_fan_out_relu true)
           (ResNet_convs net) /\
    Forall (fun n => bn_bias n = mkParam (constant_ 0) true /\
                     requires_grad (bn_weight n) = true) (ResNet_norms net) /\
    fc_weight (fc net) = mkParam torch_default true /\
    fc_bias (fc net) = mkParam torch_default true /\
    Forall (fun p => requires_grad p = true) (backbone_parameters net) /\
    Unfreeze_backbone net = net /\
    Unfreeze_backbone (freeze_backbone net) = net.
Proof.
  intros cls layers num_classes z groups w r net H.
  apply ResNet_init_Ok in H.
  destruct H as (n0 & n1 & n2 & n3 & d0 & d1 & d2 & l1 & l2 & l3 & l4 & s1 & s2 & s3 & s4
                 & _ & _ & _ & _ & _ & H1 & H2 & H3 & H4 & ->).
  apply make_layer_fresh in H1, H2, H3, H4.
  assert (Hf : Forall fresh_block (l1 ++ l2 ++ l3 ++ l4))
    by (repeat (apply Forall_app; split); assumption).
  set (net := initialise z (assemble cls groups w num_classes l1 l2 l3 l4 s4)).
  pose proof (layers_of_initialise z cls groups w num_classes l1 l2 l3 l4 s4)
    as (L1 & L2 & L3 & L4 & _ & _ & _ & _ & _ & _ & _ & _ & _ & Hfc & _).
  fold net in L1, L2, L3, L4, Hfc.
  assert (Hconv1 : conv_weight (conv1 net) = mkParam kaiming_normal_fan_out_relu true)
    by (unfold net, initialise; destruct z; reflexivity).
  assert (Hbn1 : bn_bias (bn1 net) = mkParam (constant_ 0) true /\
                 bn_weight (bn1 net) = mkParam (constant_ 1) true)
    by (unfold net, initialise; destruct z; split; reflexivity).
  assert (Hblocks : blocks_of net = map (init_then z) (l1 ++ l2 ++ l3 ++ l4))
    by apply blocks_of_initialise.
  assert (Htr : Forall trainable_block (blocks_of net)).
  { rewrite Hblocks, Forall_map. eapply Forall_impl; [|exact Hf].
    intros b Hb. now apply init_then_trainable. }
  assert (Htrl : forall l, Forall trainable_block l ->
             map (Block_set_grad true) l = l /\
             Forall (fun p => requires_grad p = true) (Sequential_parameters l)).
  { intros l Hl. split.
    - apply map_fix. eapply Forall_impl; [|exact Hl].
      intros b Hb. now apply trainable_block_fix.
    - unfold Sequential_parameters. rewrite Forall_flat_map.
      eapply Forall_impl; [|exact Hl]. intros b Hb. now apply trainable_block_fix. }
  unfold blocks_of in Htr.
  apply Forall_app in Htr. destruct Htr as [T1 Htr].
  apply Forall_app in Htr. destruct Htr as [T2 Htr].
  apply Forall_app in Htr. destruct Htr as [T3 T4].
  destruct (Htrl _ T1) as [M1 P1], (Htrl _ T2) as [M2 P2],
    (Htrl _ T3) as [M3 P3], (Htrl _ T4) as [M4 P4].
  assert (Hun : Unfreeze_backbone net = net).
  { unfold Unfreeze_backbone, backbone_set_grad.
    rewrite M1, M2, M3, M4.
    rewrite Conv2d_set_grad_fix by (rewrite Hconv1; reflexivity).
    destruct Hbn1 as [Hb Hw].
    rewrite BatchNorm2d_set_grad_fix by (rewrite ?Hb, ?Hw; reflexivity).
    destruct net; reflexivity. }
  split; [|split; [|split; [|split; [|split; [|split]]]]].
  - unfold ResNet_convs. constructor; [exact Hconv1|].
    rewrite Hblocks, Forall_flat_map, Forall_map.
    eapply Forall_impl; [|exact Hf]. intros b Hb. now apply init_then_fresh.
  - unfold ResNet_norms. constructor.
    + destruct Hbn1 as [-> ->]. split; reflexivity.
    + rewrite Hblocks, Forall_flat_map, Forall_map.
      eapply Forall_impl; [|exact Hf]. intros b Hb. now apply init_then_fresh.
  - rewrite Hfc. reflexivity.
  - rewrite Hfc. reflexivity.
  - unfold backbone_parameters.
    repeat (apply Forall_app; split); try assumption.
    + constructor; [rewrite Hconv1; reflexivity | constructor].
    + destruct Hbn1 as [Hb Hw]. repeat constructor; [rewrite Hw | rewrite Hb]; reflexivity.
  - exact Hun.
  - unfold freeze_backbone. fold (Unfreeze_backbone net) in Hun.
    unfold Unfreeze_backbone in *. rewrite backbone_set_grad_twice. exact Hun.
Qed.

Lemma ResNet_init_parameters_witness :
  exists net,
    ResNet_init BasicBlock [2; 2; 2; 2] 1000 false 1 64 None = Ok net /\
    (Forall (fun c => conv_weight c = mkParam kaiming_normal_fan_out_relu true)
            (ResNet_convs net) /\
     Forall (fun n => bn_bias n = mkParam (constant_ 0) true /\
                      requires_grad (bn_weight n) = true) (ResNet_norms net) /\
     fc_weight (fc net) = mkParam torch_default true /\
     fc_bias (fc net) = mkParam torch_default true /\
     Forall (fun p => requires_grad p = true) (backbone_parameters net) /\
     Unfreeze_backbone net = net /\
     Unfreeze_backbone (freeze_backbone net) = net).
Proof.
  eexists. split.
  - vm_compute. reflexivity.
  - apply (ResNet_init_parameters BasicBlock [2; 2; 2; 2] 1000 false 1 64 None).
    vm_compute. reflexivity.
Defined.

(** ** The repeat counts *)

(** X7 ([ResNet.__init__]): of the repeat counts only [layers[0]] to
    [layers[3]] are read, a longer list building the same network; an
    empty list raises IndexError; and no list of fewer than four counts
    builds a network, whatever the block class: the missing count is
    asked for unless an earlier stage has failed already. *)
Theorem ResNet_init_repeat_counts :
  forall cls layers num_classes z groups w r,
    List.length (flags_or_default r) = 3%nat ->
    (forall n0 n1 n2 n3 rest,
       layers = n0 :: n1 :: n2 :: n3 :: rest ->
       ResNet_init cls layers num_classes z groups w r =
       ResNet_init cls [n0; n1; n2; n3] num_classes z groups w r) /\
    (layers = [] ->
       ResNet_init cls layers num_classes z groups w r = Raise IndexError) /\
    ((List.length layers < 4)%nat ->
       forall net, ResNet_init cls layers num_classes z groups w r <> Ok net).
Proof.
  intros cls layers num_classes z groups w r Hr.
  destruct (flags_or_default r) as [|d0 [|d1 [|d2 [|d3 fl]]]] eqn:Er; try discriminate.
  split; [|split].
  - intros n0 n1 n2 n3 rest ->. unfold ResNet_init. reflexivity.
  - intros ->. unfold ResNet_init. fold (flags_or_default r). rewrite Er. reflexivity.
  - intros Hl net H. apply ResNet_init_Ok in H.
    destruct H as (n0 & n1 & n2 & n3 & _ & _ & _ & _ & _ & _ & _ & _ & _ & _ & _
                   & _ & _ & _ & _ & I3 & _).
    unfold index in I3. destruct (nth_error layers 3) eqn:E3; [|discriminate].
    assert (Hlt : (3 < List.length layers)%nat) by (apply nth_error_Some; congruence).
    lia.
Qed.

Lemma ResNet_init_repeat_counts_witness :
  ResNet_init BasicBlock [2; 2; 2; 2; 7] 1000 false 1 64 None =
    ResNet_init BasicBlock [2; 2; 2; 2] 1000 false 1 64 None /\
  ResNet_init BasicBlock [] 1000 false 1 64 None = Raise IndexError /\
  (forall net, ResNet_init Bottleneck [3; 4; 6] 1000 false 1 64 None <> Ok net).
Proof.
  split; [|split].
  - apply (proj1 (ResNet_init_repeat_counts BasicBlock [2; 2; 2; 2; 7] 1000 false 1 64 None
                    eq_refl) 2 2 2 2 [7]).
    reflexivity.
  - apply (proj1 (proj2 (ResNet_init_repeat_counts BasicBlock [] 1000 false 1 64 None
                           eq_refl))).
    reflexivity.
  - apply (proj2 (proj2 (ResNet_init_repeat_counts Bottleneck [3; 4; 6] 1000 false 1 64 None
                           eq_refl))).
    simpl. lia.
Defined.

(** ** The side of a feature map *)

Lemma reduce_bounds s n : 1 <= s -> 1 <= n -> 1 <= reduce s n <= n.
Proof.
  intros Hs Hn. unfold reduce.
  assert (0 <= (n - 1) / s) by (apply Z.div_pos; lia).
  assert ((n - 1) / s <= n - 1) by (apply Z.div_le_upper_bound; nia).
  lia.
Qed.

Lemma reduce_1 n : reduce 1 n = n.
Proof. unfold reduce. rewrite Z.div_1_r. lia. Qed.

Lemma reduce_one s : 1 <= s -> reduce s 1 = 1.
Proof.
  intros Hs. unfold reduce. replace (1 - 1) with 0 by reflexivity.
  rewrite Z.div_0_l by lia. reflexivity.
Qed.

Lemma bn_refuses_inv tr n h w :
  1 <= h -> 1 <= w -> bn_refuses tr n h w = true -> tr = true /\ n = 1 /\ h = 1 /\ w = 1.
Proof.
  unfold bn_refuses. intros Hh Hw H. apply andb_true_iff in H. destruct H as [-> H].
  apply Z.eqb_eq in H. split; [reflexivity|].
  assert (Hhw : 1 <= h * w) by nia.
  assert (Hn : 1 <= n) by nia.
  assert (n = 1) by nia. subst n.
  assert (h * w = 1) by lia.
  assert (h = 1) by nia. subst h. lia.
Qed.

Lemma bn_refuses_reduce tr n h w s s' :
  1 <= h -> 1 <= w -> 1 <= s -> 1 <= s' ->
  bn_refuses tr n h w = true -> bn_refuses tr n (reduce s h) (reduce s' w) = true.
Proof.
  intros Hh Hw Hs Hs' H. apply bn_refuses_inv in H; [|assumption..].
  destruct H as (-> & -> & -> & ->). rewrite !reduce_one by assumption. reflexivity.
Qed.

Lemma bn_refuses_reduce_false tr n h w s s' :
  1 <= h -> 1 <= w -> 1 <= s -> 1 <= s' ->
  bn_refuses tr n (reduce s h) (reduce s' w) = false -> bn_refuses tr n h w = false.
Proof.
  intros Hh Hw Hs Hs' H. destruct (bn_refuses tr n h w) eqn:E; [|reflexivity].
  rewrite (bn_refuses_reduce _ _ _ _ s s' Hh Hw Hs Hs' E) in H. discriminate.
Qed.

(** ** Layers, applied *)

Lemma window_out_same_padding n s d :
  1 <= s -> 1 <= n -> window_out n 3 s d d = Done (reduce s n).
Proof.
  intros Hs Hn. unfold window_out, reduce.
  replace (n + 2 * d - d * (3 - 1) - 1) with (n - 1) by ring.
  replace (s <=? 0) with false by (symmetry; apply Z.leb_gt; lia).
  replace (n - 1 <? 0) with false by (symmetry; apply Z.ltb_ge; lia).
  reflexivity.
Qed.

Lemma window_out_1x1 n s :
  1 <= s -> 1 <= n -> window_out n 1 s 0 1 = Done (reduce s n).
Proof.
  intros Hs Hn. unfold window_out, reduce.
  replace (n + 2 * 0 - 1 * (1 - 1) - 1) with (n - 1) by ring.
  replace (s <=? 0) with false by (symmetry; apply Z.leb_gt; lia).
  replace (n - 1 <? 0) with false by (symmetry; apply Z.ltb_ge; lia).
  reflexivity.
Qed.

Lemma Conv2d_forward_conv3x3 cin cout s g d N H W :
  1 <= s -> 1 <= H -> 1 <= W ->
  Conv2d_forward (conv3x3 cin cout s g d) (mkShape N cin H W) =
  Done (mkShape N cout (reduce s H) (reduce s W)).
Proof.
  intros Hs HH HW. unfold Conv2d_forward, conv3x3, nn_Conv2d.
  cbn [sh_channels in_channels sh_height sh_width sh_batch kernel_size conv_stride padding
       conv_dilation out_channels].
  rewrite Z.eqb_refl. cbn [negb].
  rewrite !window_out_same_padding by assumption. reflexivity.
Qed.

Lemma Conv2d_forward_conv1x1 cin cout s N H W :
  1 <= s -> 1 <= H -> 1 <= W ->
  Conv2d_forward (conv1x1 cin cout s) (mkShape N cin H W) =
  Done (mkShape N cout (reduce s H) (reduce s W)).
Proof.
  intros Hs HH HW. unfold Conv2d_forward, conv1x1, nn_Conv2d.
  cbn [sh_channels in_channels sh_height sh_width sh_batch kernel_size conv_stride padding
       conv_dilation out_channels].
  rewrite Z.eqb_refl. cbn [negb].
  rewrite !window_out_1x1 by assumption. reflexivity.
Qed.

Lemma BatchNorm2d_forward_new tr c N h w :
  BatchNorm2d_forward tr (nn_BatchNorm2d c) (mkShape N c h w) =
  if bn_refuses tr N h w then Fails one_value_per_channel else Done (mkShape N c h w).
Proof.
  unfold BatchNorm2d_forward, bn_refuses, nn_BatchNorm2d.
  cbn [sh_batch sh_height sh_width sh_channels num_features].
  rewrite Z.eqb_refl. reflexivity.
Qed.

Lemma iadd_same x : iadd x x = Done x.
Proof. unfold iadd, broadcasts_to. now rewrite !Z.eqb_refl. Qed.

(** X8 ([conv3x3], [conv1x1]): on an input with the right channels,
    [conv3x3] (padding equal to dilation) and [conv1x1] with the same
    stride give feature maps of the same size, [(n - 1) div stride + 1]
    per side, whatever the dilation and the groups; with stride 1
    [conv3x3] keeps the size. *)
Theorem conv3x3_conv1x1_sides :
  forall cin cout s g d N H W,
    1 <= g -> (g | cin) -> (g | cout) -> 1 <= cin -> 1 <= cout ->
    1 <= s -> 1 <= d -> 1 <= N -> 1 <= H -> 1 <= W ->
    Conv2d_forward (conv3x3 cin cout s g d) (mkShape N cin H W) =
      Done (mkShape N cout ((H - 1) / s + 1) ((W - 1) / s + 1)) /\
    Conv2d_forward (conv1x1 cin cout s) (mkShape N cin H W) =
      Done (mkShape N cout ((H - 1) / s + 1) ((W - 1) / s + 1)) /\
    Conv2d_forward (conv3x3 cin cout 1 g d) (mkShape N cin H W) =
      Done (mkShape N cout H W).
Proof.
  intros cin cout s g d N H W _ _ _ _ _ Hs Hd _ HH HW.
  rewrite !Conv2d_forward_conv3x3, Conv2d_forward_conv1x1 by lia.
  rewrite !reduce_1. repeat split.
Qed.

Lemma conv3x3_conv1x1_sides_witness :
  Conv2d_forward (conv3x3 64 128 2 32 4) (mkShape 1 64 56 56) =
    Done (mkShape 1 128 ((56 - 1) / 2 + 1) ((56 - 1) / 2 + 1)) /\
  Conv2d_forward (conv1x1 64 128 2) (mkShape 1 64 56 56) =
    Done (mkShape 1 128 ((56 - 1) / 2 + 1) ((56 - 1) / 2 + 1)) /\
  Conv2d_forward (conv3x3 64 128 1 32 4) (mkShape 1 64 56 56) =
    Done (mkShape 1 128 56 56).
Proof.
  apply (conv3x3_conv1x1_sides 64 128 2 32 4 1 56 56);
    [lia | exists 2; reflexivity | exists 4; reflexivity | lia | lia | lia | lia | lia
    | lia | lia].
Defined.

(** ** Blocks, applied *)

Lemma construct_BasicBlock_form inplanes planes stride downsample groups base_width dilation b :
  construct BasicBlock inplanes planes stride downsample groups base_width dilation = Ok b ->
  b = A_BasicBlock
        (mkBasicBlock (conv3x3 inplanes planes stride 1 1) (nn_BatchNorm2d planes)
           (conv3x3 planes planes 1 1 1) (nn_BatchNorm2d planes) downsample stride).
Proof.
  simpl. intros H. inv_bind H. injection H as <-.
  rewrite BasicBlock_init_eq in E.
  destruct (negb (groups =? 1) || negb (base_width =? 64)); [discriminate|].
  destruct (1 <? dilation); [discriminate|]. now injection E as <-.
Qed.

Lemma construct_Bottleneck_form inplanes planes stride downsample groups base_width dilation b :
  construct Bottleneck inplanes planes stride downsample groups base_width dilation = Ok b ->
  exists width,
    b = A_Bottleneck
          (mkBottleneck (conv1x1 inplanes width 1) (nn_BatchNorm2d width)
             (conv3x3 width width stride groups dilation) (nn_BatchNorm2d width)
             (conv1x1 width (planes * 4) 1) (nn_BatchNorm2d (planes * 4))
             downsample stride).
Proof.
  simpl. intros H. inv_bind H. injection H as <-.
  unfold Bottleneck_init in E. inv_bind E. injection E as <-.
  eexists. reflexivity.
Qed.

Lemma downsample_forward_as_built tr cls inplanes planes s N H W :
  1 <= s -> 1 <= H -> 1 <= W ->
  bn_refuses tr N (reduce s H) (reduce s W) = false ->
  downsample_forward tr (shortcut_as_built cls inplanes planes s) (mkShape N inplanes H W) =
  Done (mkShape N (planes * expansion cls) (reduce s H) (reduce s W)).
Proof.
  intros Hs HH HW Hbn. unfold shortcut_as_built.
  destruct (s =? 1) eqn:Es; destruct (inplanes =? planes * expansion cls) eqn:Ei;
    cbn [negb orb downsample_forward];
    try (unfold Shortcut_forward, projection; cbn [sc_conv sc_norm];
         rewrite Conv2d_forward_conv1x1 by assumption; cbn [obind];
         rewrite BatchNorm2d_forward_new, Hbn; reflexivity).
  apply Z.eqb_eq in Es, Ei. subst s. rewrite !reduce_1, Ei. reflexivity.
Qed.

Lemma Block_forward_as_built tr cls inplanes planes s groups base_width dilation b N H W :
  construct cls inplanes planes s (shortcut_as_built cls inplanes planes s)
    groups base_width dilation = Ok b ->
  1 <= s -> 1 <= H -> 1 <= W ->
  Block_forward tr b (mkShape N inplanes H W) =
  if bn_refuses tr N (reduce s H) (reduce s W) then Fails one_value_per_channel
  else Done (mkShape N (planes * expansion cls) (reduce s H) (reduce s W)).
Proof.
  intros Hb Hs HH HW.
  pose proof (reduce_bounds s H Hs HH) as BH. pose proof (reduce_bounds s W Hs HW) as BW.
  destruct cls.
  - apply construct_BasicBlock_form in Hb. subst b.
    cbn [Block_forward]. unfold BasicBlock_forward.
    cbn [bb_conv1 bb_bn1 bb_conv2 bb_bn2 bb_downsample].
    rewrite Conv2d_forward_conv3x3 by assumption. cbn [obind].
    rewrite BatchNorm2d_forward_new.
    destruct (bn_refuses tr N (reduce s H) (reduce s W)) eqn:Ebn; [reflexivity|].
    cbn [obind]. rewrite Conv2d_forward_conv3x3 by lia. cbn [obind].
    rewrite !reduce_1, BatchNorm2d_forward_new, Ebn. cbn [obind].
    rewrite downsample_forward_as_built by assumption. cbn [obind].
    replace (planes * expansion BasicBlock) with planes by (simpl; lia).
    rewrite iadd_same. reflexivity.
  - apply construct_Bottleneck_form in Hb. destruct Hb as [width ->].
    cbn [Block_forward]. unfold Bottleneck_forward.
    cbn [bt_conv1 bt_bn1 bt_conv2 bt_bn2 bt_conv3 bt_bn3 bt_downsample].
    rewrite Conv2d_forward_conv1x1 by lia. cbn [obind].
    rewrite !reduce_1, BatchNorm2d_forward_new.
    destruct (bn_refuses tr N (reduce s H) (reduce s W)) eqn:Ebn.
    + destruct (bn_refuses tr N H W) eqn:Ebn0; [reflexivity|]. cbn [obind].
      rewrite Conv2d_forward_conv3x3 by assumption. cbn [obind].
      rewrite BatchNorm2d_forward_new, Ebn. reflexivity.
    + rewrite (bn_refuses_reduce_false _ _ _ _ s s HH HW Hs Hs Ebn). cbn [obind].
      rewrite Conv2d_forward_conv3x3 by assumption. cbn [obind].
      rewrite BatchNorm2d_forward_new, Ebn. cbn [obind].
      rewrite Conv2d_forward_conv1x1 by lia. cbn [obind].
      rewrite !reduce_1, BatchNorm2d_forward_new, Ebn. cbn [obind].
      rewrite downsample_forward_as_built by assumption. cbn [obind].
      change (expansion Bottleneck) with 4.
      rewrite iadd_same. reflexivity.
Qed.

Lemma shortcut_as_built_None cls c : shortcut_as_built cls (c * expansion cls) c 1 = None.
Proof. unfold shortcut_as_built. now rewrite !Z.eqb_refl. Qed.

(** ** Stages, applied *)

Lemma Sequential_forward_identity_blocks tr cls planes groups base_width dilation N h w :
  1 <= h -> 1 <= w -> bn_refuses tr N h w = false ->
  forall rest,
    Forall (fun b => construct cls (planes * expansion cls) planes 1 None
                       groups base_width dilation = Ok b) rest ->
    Sequential_forward tr rest (mkShape N (planes * expansion cls) h w) =
    Done (mkShape N (planes * expansion cls) h w).
Proof.
  intros Hh Hw Hbn rest. induction rest as [|b rest IH]; intros H; [reflexivity|].
  apply Forall_cons_iff in H. destruct H as [Hb Hrest].
  cbn [Sequential_forward].
  rewrite <- (shortcut_as_built_None cls planes) in Hb.
  rewrite (Block_forward_as_built tr _ _ _ _ _ _ _ _ N h w Hb) by lia.
  rewrite !reduce_1, Hbn. cbn [obind]. now apply IH.
Qed.

(** X9 ([ResNet._make_layer], [BasicBlock.forward],
    [Bottleneck.forward]): a stage that is built, and all of whose
    convolutions torch builds and applies (so none has a width of zero),
    applied to a feature map with [self.inplanes] channels (a tensor that
    fits, also at the widest point of the stage), gives
    [planes * expansion] channels and sides [(n - 1) div s + 1], with [s]
    the stride, or 1 when [dilate] is set (the map then keeps its size);
    the one failure is batch normalization in training mode on a single
    value per channel. *)
Theorem make_layer_forward :
  forall tr cls planes blocks stride dilate self layers self' N H W,
    _make_layer cls planes blocks stride dilate self = Ok (layers, self') ->
    Sequential_usable layers = true ->
    tensor_fits [N; Sequential_widest layers; H; W] = true ->
    1 <= self_dilation self -> 1 <= stride -> 1 <= N -> 1 <= H -> 1 <= W ->
    let s := if dilate then 1 else stride in
    let h := (H - 1) / s + 1 in
    let w := (W - 1) / s + 1 in
    Sequential_forward tr layers (mkShape N (self_inplanes self) H W) =
      (if tr && (N * (h * w) =? 1) then Fails one_value_per_channel
       else Done (mkShape N (planes * expansion cls) h w)) /\
    (dilate = true -> h = H /\ w = W).
Proof.
  intros tr cls planes blocks stride dilate self layers self' N H W Hm _ _ _ Hs _ HH HW s h w.
  apply _make_layer_Ok in Hm. destruct Hm as (_ & b1 & rest & -> & Hb1 & _ & Hrest).
  fold (effective_stride stride dilate) in s.
  assert (Hs1 : 1 <= s) by (unfold s, effective_stride; destruct dilate; lia).
  fold (shortcut_as_built cls (self_inplanes self) planes (effective_stride stride dilate))
    in Hb1.
  fold s in Hb1.
  fold (reduce s H) in h. fold (reduce s W) in w.
  fold (bn_refuses tr N h w).
  pose proof (reduce_bounds s H Hs1 HH) as BH. pose proof (reduce_bounds s W Hs1 HW) as BW.
  split.
  - cbn [Sequential_forward].
    rewrite (Block_forward_as_built tr _ _ _ _ _ _ _ _ N H W Hb1) by assumption.
    fold h w. destruct (bn_refuses tr N h w) eqn:Ebn; [reflexivity|]. cbn [obind].
    eapply Sequential_forward_identity_blocks; [unfold h; lia | unfold w; lia | exact Ebn |].
    exact Hrest.
  - intros ->. unfold h, w, s, effective_stride. now rewrite !reduce_1.
Qed.

Lemma make_layer_forward_witness :
  exists layers self',
    _make_layer Bottleneck 256 3 2 true (mkSelf 512 1 32 4) = Ok (layers, self') /\
    Sequential_usable layers = true /\
    tensor_fits [1; Sequential_widest layers; 28; 28] = true /\
    (Sequential_forward true layers (mkShape 1 512 28 28) =
       (if true && (1 * (((28 - 1) / 1 + 1) * ((28 - 1) / 1 + 1)) =? 1)
        then Fails one_value_per_channel
        else Done (mkShape 1 (256 * expansion Bottleneck)
                     ((28 - 1) / 1 + 1) ((28 - 1) / 1 + 1))) /\
     (true = true -> (28 - 1) / 1 + 1 = 28 /\ (28 - 1) / 1 + 1 = 28)).
Proof.
  eexists. eexists. split; [|split; [|split]].
  - vm_compute. reflexivity.
  - vm_compute. reflexivity.
  - vm_compute. reflexivity.
  - eapply (make_layer_forward true Bottleneck 256 3 2 true (mkSelf 512 1 32 4)).
    + vm_compute. reflexivity.
    + vm_compute. reflexivity.
    + vm_compute. reflexivity.
    + simpl. lia.
    + lia.
    + lia.
    + lia.
    + lia.
Defined.

(** ** The network, applied *)

Lemma Block_forward_init_then tr z b x :
  Block_forward tr (init_then z b) x = Block_forward tr b x.
Proof.
  unfold init_then.
  destruct z, b as [o|o]; destruct o;
    match goal with
    | d : option Shortcut |- _ => destruct d
    end; reflexivity.
Qed.

Lemma Sequential_forward_init_then tr z l : forall x,
  Sequential_forward tr (map (init_then z) l) x = Sequential_forward tr l x.
Proof.
  induction l as [|b l IH]; intros x; [reflexivity|].
  cbn [map Sequential_forward]. rewrite Block_forward_init_then.
  destruct (Block_forward tr b x); cbn [obind]; [apply IH | reflexivity].
Qed.

(** A stage applied, in the vocabulary of the proofs. *)
Lemma stage_forward tr cls planes blocks stride dilate self layers self' N H W :
  _make_layer cls planes blocks stride dilate self = Ok (layers, self') ->
  1 <= stride -> 1 <= H -> 1 <= W ->
  Sequential_forward tr layers (mkShape N (self_inplanes self) H W) =
  if bn_refuses tr N (reduce (effective_stride stride dilate) H)
       (reduce (effective_stride stride dilate) W)
  then Fails one_value_per_channel
  else Done (mkShape N (planes * expansion cls)
               (reduce (effective_stride stride dilate) H)
               (reduce (effective_stride stride dilate) W)).
Proof.
  intros Hm Hs HH HW.
  apply _make_layer_Ok in Hm. destruct Hm as (_ & b1 & rest & -> & Hb1 & _ & Hrest).
  set (s := effective_stride stride dilate) in *.
  assert (Hs1 : 1 <= s) by (unfold s, effective_stride; destruct dilate; lia).
  fold (shortcut_as_built cls (self_inplanes self) planes s) in Hb1.
  pose proof (reduce_bounds s H Hs1 HH) as BH. pose proof (reduce_bounds s W Hs1 HW) as BW.
  cbn [Sequential_forward].
  rewrite (Block_forward_as_built tr _ _ _ _ _ _ _ _ N H W Hb1) by assumption.
  destruct (bn_refuses tr N (reduce s H) (reduce s W)) eqn:Ebn; [reflexivity|]. cbn [obind].
  eapply Sequential_forward_identity_blocks; [lia | lia | exact Ebn | exact Hrest].
Qed.

Lemma final_side_bounds d0 d1 d2 n : 1 <= n -> 1 <= final_side d0 d1 d2 n <= n.
Proof.
  intros Hn. unfold final_side.
  assert (S : forall d, 1 <= effective_stride 2 d)
    by (intros d; unfold effective_stride; destruct d; lia).
  pose proof (reduce_bounds 2 n ltac:(lia) Hn) as B1.
  pose proof (reduce_bounds 2 _ ltac:(lia) (proj1 B1)) as B2.
  pose proof (reduce_bounds _ _ (S d0) (proj1 B2)) as B3.
  pose proof (reduce_bounds _ _ (S d1) (proj1 B3)) as B4.
  pose proof (reduce_bounds _ _ (S d2) (proj1 B4)) as B5.
  lia.
Qed.

Lemma ResNet_forward_built :
  forall tr cls layers num_classes z groups w r net d0 d1 d2 N H W,
    ResNet_init cls layers num_classes z groups w r = Ok net ->
    flags_or_default r = [d0; d1; d2] ->
    1 <= H -> 1 <= W ->
    ResNet_forward tr net (mkShape N 3 H W) =
      (if bn_refuses tr N (final_side d0 d1 d2 H) (final_side d0 d1 d2 W)
       then Fails one_value_per_channel
       else Done (N, num_classes)) /\
    (forall C, C <> 3 -> ResNet_forward tr net (mkShape N C H W) = Fails channels_mismatch).
Proof.
  intros tr cls layers num_classes z groups w r net d0 d1 d2 N H W Hinit Hr HH HW.
  apply ResNet_init_Ok in Hinit.
  destruct Hinit as (n0 & n1 & n2 & n3 & e0 & e1 & e2 & l1 & l2 & l3 & l4 & s1 & s2 & s3 & s4
                     & Hr' & _ & _ & _ & _ & H1 & H2 & H3 & H4 & ->).
  rewrite Hr in Hr'. injection Hr' as <- <- <-.
  pose proof (layers_of_initialise z cls groups w num_classes l1 l2 l3 l4 s4)
    as (L1 & L2 & L3 & L4 & _ & _ & C1 & C2 & C3 & C4 & C5 & C6 & B1 & Hfc & _).
  set (net := initialise z (assemble cls groups w num_classes l1 l2 l3 l4 s4)) in *.
  assert (S : forall d, 1 <= effective_stride 2 d)
    by (intros d; unfold effective_stride; destruct d; lia).
  set (h1 := reduce 2 H). set (w1 := reduce 2 W).
  set (h2 := reduce 2 h1). set (w2 := reduce 2 w1).
  set (h3 := reduce (effective_stride 2 d0) h2). set (w3 := reduce (effective_stride 2 d0) w2).
  set (h4 := reduce (effective_stride 2 d1) h3). set (w4 := reduce (effective_stride 2 d1) w3).
  set (h5 := reduce (effective_stride 2 d2) h4). set (w5 := reduce (effective_stride 2 d2) w4).
  pose proof (reduce_bounds 2 H ltac:(lia) HH) as BH1. fold h1 in BH1.
  pose proof (reduce_bounds 2 W ltac:(lia) HW) as BW1. fold w1 in BW1.
  pose proof (reduce_bounds 2 h1 ltac:(lia) (proj1 BH1)) as BH2. fold h2 in BH2.
  pose proof (reduce_bounds 2 w1 ltac:(lia) (proj1 BW1)) as BW2. fold w2 in BW2.
  pose proof (reduce_bounds _ h2 (S d0) (proj1 BH2)) as BH3. fold h3 in BH3.
  pose proof (reduce_bounds _ w2 (S d0) (proj1 BW2)) as BW3. fold w3 in BW3.
  pose proof (reduce_bounds _ h3 (S d1) (proj1 BH3)) as BH4. fold h4 in BH4.
  pose proof (reduce_bounds _ w3 (S d1) (proj1 BW3)) as BW4. fold w4 in BW4.
  pose proof (reduce_bounds _ h4 (S d2) (proj1 BH4)) as BH5. fold h5 in BH5.
  pose proof (reduce_bounds _ w4 (S d2) (proj1 BW4)) as BW5. fold w5 in BW5.
  (* the stem *)
  assert (Hstem : forall C,
            Conv2d_forward (conv1 net) (mkShape N C H W) =
            if negb (C =? 3) then Fails channels_mismatch else Done (mkShape N 64 h1 w1)).
  { intros C. unfold Conv2d_forward.
    cbn [sh_channels sh_height sh_width sh_batch]. rewrite C1, C2, C3, C4, C5, C6.
    destruct (C =? 3); cbn [negb]; [|reflexivity].
    unfold window_out.
    replace (H + 2 * 3 - 1 * (7 - 1) - 1) with (H - 1) by ring.
    replace (W + 2 * 3 - 1 * (7 - 1) - 1) with (W - 1) by ring.
    replace (H - 1 <? 0) with false by (symmetry; apply Z.ltb_ge; lia).
    replace (W - 1 <? 0) with false by (symmetry; apply Z.ltb_ge; lia).
    reflexivity. }
  assert (Hbn1 : BatchNorm2d_forward tr (bn1 net) (mkShape N 64 h1 w1) =
                 if bn_refuses tr N h1 w1 then Fails one_value_per_channel
                 else Done (mkShape N 64 h1 w1)).
  { unfold BatchNorm2d_forward, bn_refuses.
    cbn [sh_channels sh_height sh_width sh_batch]. rewrite B1. reflexivity. }
  assert (Hpool : MaxPool2d_forward 3 2 1 (mkShape N 64 h1 w1) = Done (mkShape N 64 h2 w2)).
  { unfold MaxPool2d_forward. cbn [sh_channels sh_height sh_width sh_batch].
    unfold window_out.
    replace (h1 + 2 * 1 - 1 * (3 - 1) - 1) with (h1 - 1) by ring.
    replace (w1 + 2 * 1 - 1 * (3 - 1) - 1) with (w1 - 1) by ring.
    replace (h1 - 1 <? 0) with false by (symmetry; apply Z.ltb_ge; lia).
    replace (w1 - 1 <? 0) with false by (symmetry; apply Z.ltb_ge; lia).
    reflexivity. }
  (* the stages *)
  pose proof (_make_layer_Ok _ _ _ _ _ _ _ _ H1) as (E1 & _).
  pose proof (_make_layer_Ok _ _ _ _ _ _ _ _ H2) as (E2 & _).
  pose proof (_make_layer_Ok _ _ _ _ _ _ _ _ H3) as (E3 & _).
  assert (I1 : self_inplanes s1 = 64 * expansion cls) by (rewrite E1; reflexivity).
  assert (I2 : self_inplanes s2 = 128 * expansion cls) by (rewrite E2; reflexivity).
  assert (I3 : self_inplanes s3 = 256 * expansion cls) by (rewrite E3; reflexivity).
  pose proof (stage_forward tr _ _ _ _ _ _ _ _ N h2 w2 H1 ltac:(lia) (proj1 BH2) (proj1 BW2))
    as F1.
  pose proof (stage_forward tr _ _ _ _ _ _ _ _ N h2 w2 H2 ltac:(lia) (proj1 BH2) (proj1 BW2))
    as F2.
  pose proof (stage_forward tr _ _ _ _ _ _ _ _ N h3 w3 H3 ltac:(lia) (proj1 BH3) (proj1 BW3))
    as F3.
  pose proof (stage_forward tr _ _ _ _ _ _ _ _ N h4 w4 H4 ltac:(lia) (proj1 BH4) (proj1 BW4))
    as F4.
  cbn [self_inplanes] in F1. rewrite I1 in F2. rewrite I2 in F3. rewrite I3 in F4.
  change (effective_stride 1 false) with 1 in F1. rewrite !reduce_1 in F1.
  fold h3 w3 in F2. fold h4 w4 in F3. fold h5 w5 in F4.
  assert (Hhead : forall x, x = mkShape N (512 * expansion cls) h5 w5 ->
            (let! y := AdaptiveAvgPool2d_1x1_forward x in
             Linear_forward (fc net) (flatten_1 y)) = Done (N, num_classes)).
  { intros x ->. unfold AdaptiveAvgPool2d_1x1_forward.
    cbn [sh_channels sh_height sh_width sh_batch].
    replace (512 * expansion cls =? 0) with false
      by (symmetry; apply Z.eqb_neq; destruct cls; simpl; lia).
    replace (h5 =? 0) with false by (symmetry; apply Z.eqb_neq; lia).
    replace (w5 =? 0) with false by (symmetry; apply Z.eqb_neq; lia).
    cbn [orb obind]. unfold flatten_1, Linear_forward.
    cbn [sh_channels sh_height sh_width sh_batch fst snd].
    rewrite Hfc. cbn [in_features out_features nn_Linear].
    replace (512 * expansion cls * (1 * 1)) with (512 * expansion cls) by ring.
    rewrite Z.eqb_refl. reflexivity. }
  assert (Hmain : ResNet_forward tr net (mkShape N 3 H W) =
                  if bn_refuses tr N h5 w5 then Fails one_value_per_channel
                  else Done (N, num_classes)).
  { assert (G1 : forall x, Sequential_forward tr (layer1 net) x = Sequential_forward tr l1 x)
      by (intros x; rewrite L1; apply Sequential_forward_init_then).
    assert (G2 : forall x, Sequential_forward tr (layer2 net) x = Sequential_forward tr l2 x)
      by (intros x; rewrite L2; apply Sequential_forward_init_then).
    assert (G3 : forall x, Sequential_forward tr (layer3 net) x = Sequential_forward tr l3 x)
      by (intros x; rewrite L3; apply Sequential_forward_init_then).
    assert (G4 : forall x, Sequential_forward tr (layer4 net) x = Sequential_forward tr l4 x)
      by (intros x; rewrite L4; apply Sequential_forward_init_then).
    unfold ResNet_forward. rewrite Hstem. cbn [Z.eqb negb obind Pos.eqb].
    rewrite Hbn1.
    destruct (bn_refuses tr N h5 w5) eqn:E5.
    - (* some normalization refuses *)
      destruct (bn_refuses tr N h1 w1); [reflexivity|]. cbn [obind].
      rewrite Hpool. cbn [obind]. rewrite G1, F1.
      destruct (bn_refuses tr N h2 w2); [reflexivity|]. cbn [obind]. rewrite G2, F2.
      destruct (bn_refuses tr N h3 w3); [reflexivity|]. cbn [obind]. rewrite G3, F3.
      destruct (bn_refuses tr N h4 w4); [reflexivity|]. cbn [obind]. rewrite G4, F4.
      reflexivity.
    - (* none does *)
      pose proof (bn_refuses_reduce_false _ _ _ _ _ _ (proj1 BH4) (proj1 BW4) (S d2) (S d2) E5)
        as E4.
      pose proof (bn_refuses_reduce_false _ _ _ _ _ _ (proj1 BH3) (proj1 BW3) (S d1) (S d1) E4)
        as E3'.
      pose proof (bn_refuses_reduce_false _ _ _ _ _ _ (proj1 BH2) (proj1 BW2) (S d0) (S d0) E3')
        as E2'.
      pose proof (bn_refuses_reduce_false _ _ _ _ 2 2 (proj1 BH1) (proj1 BW1)
                    ltac:(lia) ltac:(lia) E2') as E1'.
      rewrite E1'. cbn [obind]. rewrite Hpool. cbn [obind].
      rewrite G1, F1, E2'. cbn [obind]. rewrite G2, F2, E3'. cbn [obind].
      rewrite G3, F3, E4. cbn [obind]. rewrite G4, F4. cbn [obind].
      now apply Hhead. }
  change (final_side d0 d1 d2 H) with h5. change (final_side d0 d1 d2 W) with w5.
  split; [exact Hmain|].
  - intros C HC. unfold ResNet_forward. rewrite Hstem.
    replace (C =? 3) with false by (symmetry; now apply Z.eqb_neq). reflexivity.
Qed.

(** X10 ([ResNet.forward]): a network that is built maps a batch of [N]
    three-channel images of any size from 1x1 up to [N] rows of
    [num_classes] scores, except in training mode when the batch and the
    last feature map leave a single value per channel, where batch
    normalization refuses; in evaluation mode, or with a batch other than
    one, it always succeeds.  An input with another number of channels
    is refused by the stem. *)
Theorem ResNet_forward_shape :
  forall tr cls layers num_classes z groups w r net d0 d1 d2 N H W,
    ResNet_init cls layers num_classes z groups w r = Ok net ->
    flags_or_default r = [d0; d1; d2] ->
    1 <= N -> 1 <= H -> 1 <= W ->
    ResNet_forward tr net (mkShape N 3 H W) =
      (if tr && (N * (final_side d0 d1 d2 H * final_side d0 d1 d2 W) =? 1)
       then Fails one_value_per_channel
       else Done (N, num_classes)) /\
    (tr = false \/ N <> 1 -> ResNet_forward tr net (mkShape N 3 H W) = Done (N, num_classes)) /\
    (forall C, C <> 3 -> ResNet_forward tr net (mkShape N C H W) = Fails channels_mismatch).
Proof.
  intros tr cls layers num_classes z groups w r net d0 d1 d2 N H W Hinit Hr _ HH HW.
  destruct (ResNet_forward_built tr _ _ _ _ _ _ _ _ _ _ _ N H W Hinit Hr HH HW)
    as [Hmain Hch].
  fold (bn_refuses tr N (final_side d0 d1 d2 H) (final_side d0 d1 d2 W)).
  split; [exact Hmain|]. split; [|exact Hch].
  intros Hc. rewrite Hmain.
  destruct (bn_refuses tr N (final_side d0 d1 d2 H) (final_side d0 d1 d2 W)) eqn:E;
    [|reflexivity].
  pose proof (final_side_bounds d0 d1 d2 H HH). pose proof (final_side_bounds d0 d1 d2 W HW).
  apply bn_refuses_inv in E; [|lia|lia].
  destruct E as (Et & En & _). destruct Hc as [Hc|Hc]; congruence.
Qed.

Lemma ResNet_forward_shape_witness :
  exists net,
    ResNet_init BasicBlock [2; 2; 2; 2] 1000 false 1 64 None = Ok net /\
    (ResNet_forward true net (mkShape 2 3 224 224) =
       (if true && (2 * (final_side false false false 224 *
                         final_side false false false 224) =? 1)
        then Fails one_value_per_channel
        else Done (2, 1000)) /\
     (true = false \/ 2 <> 1 ->
        ResNet_forward true net (mkShape 2 3 224 224) = Done (2, 1000)) /\
     (forall C, C <> 3 ->
        ResNet_forward true net (mkShape 2 C 224 224) = Fails channels_mismatch)).
Proof.
  eexists. split.
  - vm_compute. reflexivity.
  - apply (ResNet_forward_shape true BasicBlock [2; 2; 2; 2] 1000 false 1 64 None).
    + vm_compute. reflexivity.
    + reflexivity.
    + lia.
    + lia.
    + lia.
Defined.

(** ** The ghost module, applied *)

Lemma odd_half dw : dw = 2 * (dw / 2) + (if Z.odd dw then 1 else 0).
Proof. rewrite <- Z.div2_div. apply Zdiv2_odd_eqn. Qed.



(** *** What the forward pass returns, and when *)

Lemma window_out_Done n k stride pad dil v :
  window_out n k stride pad dil = Done v ->
  v = (n + 2 * pad - dil * (k - 1) - 1) / stride + 1.
Proof.
  unfold window_out. destruct (stride <=? 0); [discriminate|].
  destruct (n + 2 * pad - dil * (k - 1) - 1 <? 0); [discriminate|]. congruence.
Qed.

Lemma BatchNorm2d_forward_Done tr b x y : BatchNorm2d_forward tr b x = Done y -> y = x.
Proof.
  unfold BatchNorm2d_forward.
  destruct (tr && _); [discriminate|]. destruct (negb _); [discriminate|]. congruence.
Qed.

Lemma ConvBnAct_forward_Done tr m x y :
  ConvBnAct_forward tr m x = Done y ->
  sh_channels x = in_channels (cba_conv m) /\
  sh_batch y = sh_batch x /\
  sh_channels y = out_channels (cba_conv m) /\
  sh_height y =
    (sh_height x + 2 * padding (cba_conv m)
     - conv_dilation (cba_conv m) * (kernel_size (cba_conv m) - 1) - 1)
    / conv_stride (cba_conv m) + 1.
Proof.
  unfold ConvBnAct_forward, Conv2d_forward.
  destruct (sh_channels x =? in_channels (cba_conv m)) eqn:Ex; cbn [negb]; [|discriminate].
  apply Z.eqb_eq in Ex.
  destruct (window_out (sh_height x) _ _ _ _) as [h|] eqn:Eh; cbn [obind]; [|discriminate].
  destruct (window_out (sh_width x) _ _ _ _) as [w|] eqn:Ew; cbn [obind]; [|discriminate].
  intros H. apply BatchNorm2d_forward_Done in H. subst y.
  apply window_out_Done in Eh. cbn [sh_batch sh_channels sh_height]. auto.
Qed.

(** Whatever the forward pass is given, it returns only for an odd
    [dw_size], and then the channels of both parts, cut at [oup]. *)
Lemma GhostModule_forward_Done tr o inp c c' k dw stride relu x y :
  GhostModule_forward tr
    (mkGhostModule o
       (mkConvBnAct (nn_Conv2d inp c k stride (k / 2) 1 1) (nn_BatchNorm2d c) relu)
       (mkConvBnAct (nn_Conv2d c c' dw 1 (dw / 2) c 1) (nn_BatchNorm2d c') relu)) x = Done y ->
  sh_channels x = inp /\ sh_channels y = slice_to (c + c') o /\ Z.odd dw = true.
Proof.
  unfold GhostModule_forward. cbn [primary_conv cheap_operation oup].
  destruct (ConvBnAct_forward tr _ x) as [x1|] eqn:E1; cbn [obind]; [|discriminate].
  destruct (ConvBnAct_forward tr _ x1) as [x2|] eqn:E2; cbn [obind]; [|discriminate].
  apply ConvBnAct_forward_Done in E1, E2.
  cbn [cba_conv nn_Conv2d in_channels out_channels kernel_size conv_stride padding
       conv_dilation] in E1, E2.
  destruct E1 as (Hx & _ & Hc1 & _). destruct E2 as (_ & _ & Hc2 & Hh2).
  unfold cat_channels.
  destruct ((sh_batch x1 =? sh_batch x2) && (sh_height x1 =? sh_height x2) &&
            (sh_width x1 =? sh_width x2)) eqn:Ecat; cbn [obind]; [|discriminate].
  intros H. injection H as <-. cbn [sh_channels].
  split; [exact Hx|]. split; [congruence|].
  apply andb_true_iff in Ecat. destruct Ecat as [Ecat _].
  apply andb_true_iff in Ecat. destruct Ecat as [_ Eh]. apply Z.eqb_eq in Eh.
  rewrite Z.div_1_r in Hh2. pose proof (odd_half dw) as Edw.
  destruct (Z.odd dw); [reflexivity|lia].
Qed.

(** In evaluation mode, with an odd [dw_size], it does return. *)
Lemma GhostModule_forward_odd o inp c c' k dw stride relu N H W :
  Z.odd dw = true -> 1 <= k -> 1 <= dw -> 1 <= stride -> 1 <= H -> 1 <= W ->
  GhostModule_forward false
    (mkGhostModule o
       (mkConvBnAct (nn_Conv2d inp c k stride (k / 2) 1 1) (nn_BatchNorm2d c) relu)
       (mkConvBnAct (nn_Conv2d c c' dw 1 (dw / 2) c 1) (nn_BatchNorm2d c') relu))
    (mkShape N inp H W) =
  Done (mkShape N (slice_to (c + c') o) (primary_side k stride H) (primary_side k stride W)).
Proof.
  intros Hodd Hk Hdw Hs HH HW.
  pose proof (odd_half k) as Ek. pose proof (odd_half dw) as Edw. rewrite Hodd in Edw.
  assert (Hspan : forall n, 1 <= n -> 0 <= n + 2 * (k / 2) - 1 * (k - 1) - 1)
    by (intros n Hn; destruct (Z.odd k); lia).
  assert (Hside : forall n, 1 <= n -> 1 <= primary_side k stride n).
  { intros n Hn. unfold primary_side.
    assert (0 <= (n + 2 * (k / 2) - (k - 1) - 1) / stride).
    { apply Z.div_pos; [|lia]. specialize (Hspan n Hn). lia. }
    lia. }
  assert (Hwin : forall n, 1 <= n ->
            window_out n k stride (k / 2) 1 = Done (primary_side k stride n)).
  { intros n Hn. unfold window_out, primary_side.
    replace (stride <=? 0) with false by (symmetry; apply Z.leb_gt; lia).
    replace (n + 2 * (k / 2) - 1 * (k - 1) - 1 <? 0) with false
      by (symmetry; apply Z.ltb_ge; now apply Hspan).
    do 2 f_equal. f_equal. ring. }
  assert (Hwin2 : forall n, 1 <= n -> window_out n dw 1 (dw / 2) 1 = Done n).
  { intros n Hn. unfold window_out.
    replace (1 <=? 0) with false by reflexivity.
    replace (n + 2 * (dw / 2) - 1 * (dw - 1) - 1 <? 0) with false
      by (symmetry; apply Z.ltb_ge; lia).
    rewrite Z.div_1_r. f_equal. lia. }
  pose proof (Hside H HH) as Hh. pose proof (Hside W HW) as Hw.
  unfold GhostModule_forward, ConvBnAct_forward, Conv2d_forward.
  cbn [primary_conv cheap_operation cba_conv cba_bn nn_Conv2d in_channels out_channels
       kernel_size conv_stride padding conv_dilation sh_channels sh_height sh_width sh_batch
       oup].
  rewrite Z.eqb_refl. cbn [negb].
  rewrite (Hwin H HH), (Hwin W HW). cbn [obind].
  rewrite BatchNorm2d_forward_new. cbn [bn_refuses andb obind].
  cbn [sh_channels sh_height sh_width sh_batch].
  rewrite Z.eqb_refl. cbn [negb].
  rewrite (Hwin2 _ Hh), (Hwin2 _ Hw). cbn [obind].
  rewrite BatchNorm2d_forward_new. cbn [bn_refuses andb obind].
  unfold cat_channels. cbn [sh_channels sh_height sh_width sh_batch].
  rewrite !Z.eqb_refl. reflexivity.
Qed.

(** C9, as the code has it: take [0 < oup < 2^53], [ratio >= 2] and
    [dw_size >= 1], and a ghost module that is constructed: the Python
    code returns it and torch builds and applies its two convolutions.
    Then the binary64 computation [math.ceil(oup / ratio)] has been
    exact: the primary convolution has [intrinsic = ceil(oup / ratio)]
    output channels (the least integer with [oup <= intrinsic * ratio]),
    the cheap operation is a convolution from [intrinsic] to
    [intrinsic * (ratio - 1)] channels in [intrinsic] groups, and
    [intrinsic + cheap >= oup].  Whenever the forward pass returns, its
    input had [inp] channels, [dw_size] is odd and the output has exactly
    [oup] channels; with an odd [dw_size] it does return, in evaluation
    mode, on every input of [inp] channels with batch and sides of at
    least 1 (the input and the concatenation being tensors that fit).
    With an even [dw_size] it never returns: the cheap operation's output
    is one larger per side than the primary's, and [torch.cat] refuses
    the two. *)
Theorem GhostModule_channels :
  forall inp oup0 kernel_size ratio dw_size stride relu m,
    0 < oup0 < 2 ^ 53 -> 1 < ratio -> 1 <= dw_size ->
    GhostModule_init inp oup0 kernel_size ratio dw_size stride relu = Ok m ->
    Conv2d_usable (cba_conv (primary_conv m)) = true ->
    Conv2d_usable (cba_conv (cheap_operation m)) = true ->
    let intrinsic := out_channels (cba_conv (primary_conv m)) in
    let cheap := out_channels (cba_conv (cheap_operation m)) in
    (intrinsic - 1) * ratio < oup0 <= intrinsic * ratio /\
    intrinsic = (oup0 + ratio - 1) / ratio /\
    cheap = intrinsic * (ratio - 1) /\
    in_channels (cba_conv (cheap_operation m)) = intrinsic /\
    conv_groups (cba_conv (cheap_operation m)) = intrinsic /\
    oup0 <= intrinsic + cheap /\
    (forall tr x y,
       GhostModule_forward tr m x = Done y ->
       sh_channels x = inp /\ sh_channels y = oup0 /\ Z.odd dw_size = true) /\
    (Z.odd dw_size = true -> 1 <= kernel_size -> 1 <= stride ->
     forall N H W, 1 <= N -> 1 <= H -> 1 <= W ->
       tensor_fits [N; inp; H; W] = true ->
       tensor_fits [N; intrinsic + cheap; primary_side kernel_size stride H;
                    primary_side kernel_size stride W] = true ->
       exists y, GhostModule_forward false m (mkShape N inp H W) = Done y /\
                 sh_channels y = oup0) /\
    (Z.odd dw_size = false ->
     forall tr x, exists e, GhostModule_forward tr m x = Fails e).
Proof.
  intros inp oup0 k ratio dw stride relu m Ho Hr Hdw Hinit _ Hcheap.
  unfold GhostModule_init in Hinit. inv_bind Hinit. injection Hinit as <-.
  cbn [primary_conv cheap_operation cba_conv nn_Conv2d out_channels in_channels conv_groups]
    in *.
  (* torch has built the cheap convolution: so [ratio] is a size *)
  assert (Hratio : ratio < 2 ^ 1000).
  { unfold Conv2d_usable, Conv2d_accepted, Conv2d_weight, tensor_fits in Hcheap.
    cbn [nn_Conv2d out_channels in_channels conv_groups kernel_size fold_right forallb]
      in Hcheap.
    repeat (apply andb_true_iff in Hcheap; destruct Hcheap as [Hcheap ?]).
    repeat match goal with
           | H : (_ <? _) = true |- _ => apply Z.ltb_lt in H
           | H : (_ <=? _) = true |- _ => apply Z.leb_le in H
           | H : (_ && _) = true |- _ => apply andb_true_iff in H; destruct H
           end.
    rewrite Z.div_same in * by lia.
    assert (2 ^ 63 < 2 ^ 1000) by (apply Z.pow_lt_mono_r; lia).
    assert (1 <= dw * (dw * 1)) by nia.
    assert (v * (ratio - 1) <= 4 * (v * (ratio - 1) * (1 * (dw * (dw * 1))))) by nia.
    assert (ratio - 1 <= v * (ratio - 1)) by nia.
    lia. }
  rewrite ceil_div_exact in E by lia. injection E as <-.
  set (c := (oup0 + ratio - 1) / ratio).
  assert (Hc : (c - 1) * ratio < oup0 <= c * ratio).
  { pose proof (Z.div_mod (oup0 + ratio - 1) ratio ltac:(lia)) as E.
    pose proof (Z.mod_pos_bound (oup0 + ratio - 1) ratio ltac:(lia)) as B.
    fold c in E. nia. }
  assert (Hsum : c + c * (ratio - 1) = c * ratio) by ring.
  assert (Hslice : slice_to (c + c * (ratio - 1)) oup0 = oup0).
  { unfold slice_to. replace (oup0 <? 0) with false by (symmetry; apply Z.ltb_ge; lia). lia. }
  cbv zeta.
  split; [exact Hc|]. split; [reflexivity|]. split; [reflexivity|].
  split; [reflexivity|]. split; [reflexivity|]. split; [lia|].
  split; [|split].
  - intros tr x y Hy. apply GhostModule_forward_Done in Hy.
    rewrite Hslice in Hy. exact Hy.
  - intros Hodd Hk Hs N H W _ HH HW _ _. eexists. split.
    + apply GhostModule_forward_odd; assumption.
    + cbn [sh_channels]. exact Hslice.
  - intros Hodd tr x.
    destruct (GhostModule_forward tr _ x) as [y|e] eqn:E; [|eauto].
    apply GhostModule_forward_Done in E. destruct E as (_ & _ & E). congruence.
Qed.

Lemma GhostModule_channels_witness :
  exists m,
    GhostModule_init 16 33 1 2 3 1 true = Ok m /\
    Conv2d_usable (cba_conv (primary_conv m)) = true /\
    Conv2d_usable (cba_conv (cheap_operation m)) = true /\
    let intrinsic := out_channels (cba_conv (primary_conv m)) in
    let cheap := out_channels (cba_conv (cheap_operation m)) in
    (intrinsic - 1) * 2 < 33 <= intrinsic * 2 /\
    intrinsic = (33 + 2 - 1) / 2 /\
    cheap = intrinsic * (2 - 1) /\
    in_channels (cba_conv (cheap_operation m)) = intrinsic /\
    conv_groups (cba_conv (cheap_operation m)) = intrinsic /\
    33 <= intrinsic + cheap /\
    (forall tr x y,
       GhostModule_forward tr m x = Done y ->
       sh_channels x = 16 /\ sh_channels y = 33 /\ Z.odd 3 = true) /\
    (Z.odd 3 = true -> 1 <= 1 -> 1 <= 1 ->
     forall N H W, 1 <= N -> 1 <= H -> 1 <= W ->
       tensor_fits [N; 16; H; W] = true ->
       tensor_fits [N; intrinsic + cheap; primary_side 1 1 H; primary_side 1 1 W] = true ->
       exists y, GhostModule_forward false m (mkShape N 16 H W) = Done y /\
                 sh_channels y = 33) /\
    (Z.odd 3 = false ->
     forall tr x, exists e, GhostModule_forward tr m x = Fails e).
Proof.
  eexists. split; [vm_compute; reflexivity|].
  split; [vm_compute; reflexivity|]. split; [vm_compute; reflexivity|].
  apply (GhostModule_channels 16 33 1 2 3 1 true);
    [lia | lia | lia | vm_compute; reflexivity | vm_compute; reflexivity
    | vm_compute; reflexivity].
Defined.

(** Beyond 53 bits the quotient rounds: [math.ceil((2^53 + 1) / 2)] is
    [2^52], the two convolutions give [2^53] channels together, and the
    output has fewer channels than the [2^53 + 1] asked for. *)
Lemma GhostModule_channels_inexact :
  exists m,
    GhostModule_init 16 (2 ^ 53 + 1) 1 2 3 1 true = Ok m /\
    out_channels (cba_conv (primary_conv m)) = 2 ^ 52 /\
    out_channels (cba_conv (cheap_operation m)) = 2 ^ 52 /\
    Conv2d_usable (cba_conv (primary_conv m)) = true /\
    Conv2d_usable (cba_conv (cheap_operation m)) = true /\
    GhostModule_forward false m (mkShape 1 16 8 8) = Done (mkShape 1 (2 ^ 53) 8 8) /\
    2 ^ 53 < 2 ^ 53 + 1.
Proof.
  eexists. split; [vm_compute; reflexivity|]. repeat split.
Qed.

Lemma reduce_lt s n : 2 <= s -> 2 <= n -> reduce s n < n.
Proof.
  intros Hs Hn. unfold reduce.
  assert ((n - 1) / s <= (n - 1) / 2) by (apply Z.div_le_compat_l; lia).
  pose proof (Z.div_mod (n - 1) 2 ltac:(lia)) as E.
  pose proof (Z.mod_pos_bound (n - 1) 2 ltac:(lia)) as B.
  lia.
Qed.

(** X12 ([BasicBlock.forward], [Bottleneck.forward]): a block built
    without a shortcut, all of whose convolutions torch builds and
    applies (so none has a width of zero), applied in evaluation mode to
    a feature map of its output width and of height at least 2 (a tensor
    that fits, also at the widest point of the block), keeps
    the shape when its stride is 1; with a larger stride the addition of
    the identity fails, as the main path has shrunk. *)
Theorem Block_forward_without_shortcut :
  forall cls planes s groups base_width dilation b N H W,
    construct cls (planes * expansion cls) planes s None groups base_width dilation = Ok b ->
    Block_usable b = true ->
    tensor_fits [N; Block_widest b; H; W] = true ->
    1 <= dilation -> 1 <= s -> 1 <= N -> 2 <= H -> 1 <= W ->
    Block_forward false b (mkShape N (planes * expansion cls) H W) =
      if s =? 1 then Done (mkShape N (planes * expansion cls) H W)
      else Fails not_broadcastable.
Proof.
  intros cls planes s groups base_width dilation b N H W Hb _ _ _ Hs _ HH HW.
  assert (Hbn : forall c h w, BatchNorm2d_forward false (nn_BatchNorm2d c) (mkShape N c h w) =
                              Done (mkShape N c h w))
    by (intros; apply BatchNorm2d_forward_new).
  assert (Hadd : iadd (mkShape N (planes * expansion cls) (reduce s H) (reduce s W))
                   (mkShape N (planes * expansion cls) H W) =
                 if s =? 1 then Done (mkShape N (planes * expansion cls) H W)
                 else Fails not_broadcastable).
  { destruct (Z.eqb_spec s 1) as [->|Hne].
    - rewrite !reduce_1. apply iadd_same.
    - pose proof (reduce_lt s H ltac:(lia) HH).
      unfold iadd, broadcasts_to. cbn [sh_batch sh_channels sh_height sh_width].
      replace (H =? reduce s H) with false by (symmetry; apply Z.eqb_neq; lia).
      replace (H =? 1) with false by (symmetry; apply Z.eqb_neq; lia).
      cbn [orb]. rewrite andb_false_r. reflexivity. }
  destruct cls.
  - change (expansion BasicBlock) with 1 in *. rewrite Z.mul_1_r in *.
    apply construct_BasicBlock_form in Hb. subst b.
    cbn [Block_forward]. unfold BasicBlock_forward.
    cbn [bb_conv1 bb_bn1 bb_conv2 bb_bn2 bb_downsample downsample_forward].
    rewrite Conv2d_forward_conv3x3 by lia. cbn [obind]. rewrite Hbn. cbn [obind].
    pose proof (reduce_bounds s H Hs ltac:(lia)). pose proof (reduce_bounds s W Hs HW).
    rewrite Conv2d_forward_conv3x3 by lia. cbn [obind]. rewrite !reduce_1, Hbn. cbn [obind].
    rewrite Hadd. destruct (s =? 1); reflexivity.
  - change (expansion Bottleneck) with 4 in *.
    apply construct_Bottleneck_form in Hb. destruct Hb as [width ->].
    cbn [Block_forward]. unfold Bottleneck_forward.
    cbn [bt_conv1 bt_bn1 bt_conv2 bt_bn2 bt_conv3 bt_bn3 bt_downsample downsample_forward].
    rewrite Conv2d_forward_conv1x1 by lia. cbn [obind]. rewrite !reduce_1, Hbn. cbn [obind].
    rewrite Conv2d_forward_conv3x3 by lia. cbn [obind]. rewrite Hbn. cbn [obind].
    pose proof (reduce_bounds s H Hs ltac:(lia)). pose proof (reduce_bounds s W Hs HW).
    rewrite Conv2d_forward_conv1x1 by lia. cbn [obind]. rewrite !reduce_1, Hbn. cbn [obind].
    rewrite Hadd. destruct (s =? 1); reflexivity.
Qed.

Lemma Block_forward_without_shortcut_witness :
  exists b,
    construct Bottleneck (64 * expansion Bottleneck) 64 2 None 1 64 1 = Ok b /\
    Block_usable b = true /\
    tensor_fits [1; Block_widest b; 56; 56] = true /\
    Block_forward false b (mkShape 1 (64 * expansion Bottleneck) 56 56) =
      if 2 =? 1 then Done (mkShape 1 (64 * expansion Bottleneck) 56 56)
      else Fails not_broadcastable.
Proof.
  eexists. split; [|split; [|split]].
  - vm_compute. reflexivity.
  - vm_compute. reflexivity.
  - vm_compute. reflexivity.
  - apply (Block_forward_without_shortcut Bottleneck 64 2 1 64 1);
      [vm_compute; reflexivity | vm_compute; reflexivity | vm_compute; reflexivity
      | lia | lia | lia | lia | lia].
Defined.

(** ** The presets, applied *)

Lemma ResNet_forward_replace_fc tr net o x :
  ResNet_forward tr (replace_fc (nn_Linear (in_features (fc net)) o) net) x =
  match ResNet_forward tr net x with
  | Done (n, _) => Done (n, o)
  | Fails e => Fails e
  end.
Proof.
  unfold ResNet_forward, replace_fc.
  cbn [conv1 bn1 layer1 layer2 layer3 layer4 fc].
  repeat match goal with
         | |- context [obind ?r _] =>
             match r with
             | Linear_forward _ _ => fail 1
             | _ => destruct r; cbn [obind]; [|reflexivity]
             end
         end.
  unfold Linear_forward. cbn [in_features out_features nn_Linear].
  match goal with
  | |- context [negb ?c] => destruct (negb c); reflexivity
  end.
Qed.

Lemma reduce_2_le n k : reduce 2 n <= k <-> n <= 2 * k.
Proof.
  unfold reduce.
  pose proof (Z.div_mod (n - 1) 2 ltac:(lia)) as E.
  pose proof (Z.mod_pos_bound (n - 1) 2 ltac:(lia)) as B.
  lia.
Qed.

Lemma final_side_one n :
  1 <= n -> (final_side false false false n = 1 <-> n <= 32).
Proof.
  intros Hn. pose proof (final_side_bounds false false false n Hn) as B.
  assert (E : final_side false false false n <= 1 <-> n <= 32).
  { unfold final_side, effective_stride. rewrite !reduce_2_le. lia. }
  lia.
Qed.

(** X13 ([resnet18] to [resnet152], [ResNet.forward]): each preset,
    built without pretrained weights for any [num_classes], maps a batch
    of [N] three-channel images to [N] rows of [num_classes] scores; the
    pass fails exactly in training mode on a batch of one image of at
    most 32 by 32, where the last feature map is 1x1. *)
Theorem presets_forward :
  forall load_pretrained P name cls layers,
    In (P, (name, cls, layers)) (presets load_pretrained) ->
    forall num_classes tr N H W,
      1 <= num_classes -> 1 <= N -> 1 <= H -> 1 <= W ->
      exists m,
        P false num_classes = Ok m /\
        (tr = true /\ N = 1 /\ H <= 32 /\ W <= 32 ->
           ResNet_forward tr m (mkShape N 3 H W) = Fails one_value_per_channel) /\
        (tr = false \/ N <> 1 \/ 32 < H \/ 32 < W ->
           ResNet_forward tr m (mkShape N 3 H W) = Done (N, num_classes)).
Proof.
  intros load P name cls layers HP num_classes tr N H W _ _ HH HW.
  apply presets_spec in HP. destruct HP as (-> & mi & Hinit).
  pose proof (ResNet_forward_built tr _ _ _ _ _ _ _ _ false false false N H W Hinit
                eq_refl HH HW) as [Hmain _].
  pose proof (ResNet_init_block _ _ _ _ _ _ _ _ Hinit) as [Hb Hfc].
  pose proof (final_side_bounds false false false H HH) as BH.
  pose proof (final_side_bounds false false false W HW) as BW.
  pose proof (final_side_one H HH) as OH. pose proof (final_side_one W HW) as OW.
  assert (Hm : exists m, preset load name cls layers false num_classes = Ok m /\
                 ResNet_forward tr m (mkShape N 3 H W) =
                 if bn_refuses tr N (final_side false false false H)
                      (final_side false false false W)
                 then Fails one_value_per_channel else Done (N, num_classes)).
  { unfold preset. rewrite Hinit. cbn [rbind].
    destruct (num_classes =? 1000) eqn:En; cbn [negb].
    - apply Z.eqb_eq in En. subst num_classes. exists mi. split; [reflexivity|exact Hmain].
    - eexists. split; [reflexivity|].
      rewrite Hb. replace (512 * expansion cls) with (in_features (fc mi))
        by (rewrite Hfc; reflexivity).
      rewrite ResNet_forward_replace_fc, Hmain.
      destruct (bn_refuses tr N _ _); reflexivity. }
  destruct Hm as (m & Hm & Hf). exists m. split; [exact Hm|]. rewrite Hf. split.
  - intros (-> & -> & Hh & Hw). apply OH in Hh. apply OW in Hw.
    unfold bn_refuses. rewrite Hh, Hw. reflexivity.
  - intros Hc.
    destruct (bn_refuses tr N (final_side false false false H)
                (final_side false false false W)) eqn:E; [|reflexivity].
    apply bn_refuses_inv in E; [|lia|lia].
    destruct E as (Et & En & Eh & Ew). apply OH in Eh. apply OW in Ew.
    destruct Hc as [Hc|[Hc|[Hc|Hc]]]; try congruence; lia.
Qed.

Lemma presets_forward_witness :
  exists m,
    resnet50 keep_model false 10 = Ok m /\
    (true = true /\ 1 = 1 /\ 32 <= 32 /\ 32 <= 32 ->
       ResNet_forward true m (mkShape 1 3 32 32) = Fails one_value_per_channel) /\
    (true = false \/ 1 <> 1 \/ 32 < 32 \/ 32 < 32 ->
       ResNet_forward true m (mkShape 1 3 32 32) = Done (1, 10)).
Proof.
  apply (presets_forward keep_model (resnet50 keep_model) "resnet50"%string
           Bottleneck [3; 4; 6; 3]); [|lia|lia|lia|lia].
  unfold presets. simpl. right. right. left. reflexivity.
Defined.

(** ** The dilations of a network of bottlenecks *)

Lemma map_all_equal {A B} (f : A -> B) (v : B) (l : list A) :
  Forall (fun a => f a = v) l -> map f l = repeat v (List.length l).
Proof.
  induction l as [|a l IH]; intros H; [reflexivity|].
  apply Forall_cons_iff in H. destruct H as [Ha Hl]. simpl. now rewrite Ha, IH.
Qed.

Lemma make_layer_Bottleneck_dilations planes blocks stride dilate self layers self' z :
  _make_layer Bottleneck planes blocks stride dilate self = Ok (layers, self') ->
  map block_conv_dilation (map (init_then z) layers) =
  self_dilation self :: repeat (self_dilation self') (List.length layers - 1).
Proof.
  intros H. apply _make_layer_Ok in H.
  destruct H as (-> & b1 & rest & -> & Hb1 & _ & Hrest).
  cbn [map List.length self_dilation]. rewrite Nat.sub_succ, Nat.sub_0_r.
  destruct (init_then_geometry z b1) as (_ & _ & _ & -> & _).
  rewrite (Bottleneck_conv_dilation _ _ _ _ _ _ _ _ Hb1). f_equal.
  rewrite map_map. apply map_all_equal.
  eapply Forall_impl; [|exact Hrest]. intros b Hb.
  destruct (init_then_geometry z b) as (_ & _ & _ & -> & _).
  eapply Bottleneck_conv_dilation; exact Hb.
Qed.

(** X14 ([ResNet.__init__], [ResNet._make_layer],
    [Bottleneck.__init__]): in a network of bottlenecks the first block of
    a stage is dilated by the dilation accumulated before the stage, and
    the later blocks by the dilation after it: a factor 2 per flag set so
    far. *)
Theorem ResNet_init_Bottleneck_dilations :
  forall layers num_classes z groups w r net d0 d1 d2,
    ResNet_init Bottleneck layers num_classes z groups w r = Ok net ->
    flags_or_default r = [d0; d1; d2] ->
    let f := flag_factor in
    map block_conv_dilation (layer1 net) = 1 :: repeat 1 (List.length (layer1 net) - 1) /\
    map block_conv_dilation (layer2 net) =
      1 :: repeat (f d0) (List.length (layer2 net) - 1) /\
    map block_conv_dilation (layer3 net) =
      f d0 :: repeat (f d0 * f d1) (List.length (layer3 net) - 1) /\
    map block_conv_dilation (layer4 net) =
      f d0 * f d1 :: repeat (f d0 * f d1 * f d2) (List.length (layer4 net) - 1).
Proof.
  intros layers num_classes z groups w r net d0 d1 d2 H Hr f.
  apply ResNet_init_Ok in H.
  destruct H as (n0 & n1 & n2 & n3 & e0 & e1 & e2 & l1 & l2 & l3 & l4 & s1 & s2 & s3 & s4
                 & Hr' & _ & _ & _ & _ & H1 & H2 & H3 & H4 & ->).
  rewrite Hr in Hr'. injection Hr' as <- <- <-.
  pose proof (make_layer_Bottleneck_dilations _ _ _ _ _ _ _ z H1) as D1.
  pose proof (make_layer_Bottleneck_dilations _ _ _ _ _ _ _ z H2) as D2.
  pose proof (make_layer_Bottleneck_dilations _ _ _ _ _ _ _ z H3) as D3.
  pose proof (make_layer_Bottleneck_dilations _ _ _ _ _ _ _ z H4) as D4.
  apply _make_layer_Ok in H1, H2, H3, H4.
  destruct H1 as (-> & _), H2 as (-> & _), H3 as (-> & _), H4 as (-> & _).
  match goal with
  | |- context [initialise z (assemble Bottleneck groups w num_classes l1 l2 l3 l4 ?s)] =>
      pose proof (layers_of_initialise z Bottleneck groups w num_classes l1 l2 l3 l4 s)
        as (L1 & L2 & L3 & L4 & _)
  end.
  rewrite L1, L2, L3, L4, !length_map, D1, D2, D3, D4.
  unfold f, flag_factor, dilation_after. cbn [self_dilation].
  destruct d0, d1, d2; repeat split.
Qed.

Lemma ResNet_init_Bottleneck_dilations_witness :
  exists net,
    ResNet_init Bottleneck [3; 4; 6; 3] 1000 false 1 64 (Some [false; true; true]) = Ok net /\
    (map block_conv_dilation (layer1 net) = 1 :: repeat 1 (List.length (layer1 net) - 1) /\
     map block_conv_dilation (layer2 net) =
       1 :: repeat (flag_factor false) (List.length (layer2 net) - 1) /\
     map block_conv_dilation (layer3 net) =
       flag_factor false ::
         repeat (flag_factor false * flag_factor true) (List.length (layer3 net) - 1) /\
     map block_conv_dilation (layer4 net) =
       flag_factor false * flag_factor true ::
         repeat (flag_factor false * flag_factor true * flag_factor true)
           (List.length (layer4 net) - 1)).
Proof.
  eexists. split.
  - vm_compute. reflexivity.
  - apply (ResNet_init_Bottleneck_dilations [3; 4; 6; 3] 1000 false 1 64
             (Some [false; true; true])).
    + vm_compute. reflexivity.
    + reflexivity.
Defined.

Lemma has_shortcut_init_then z b : has_shortcut (init_then z b) = has_shortcut b.
Proof.
  unfold has_shortcut, init_then.
  destruct z, b as [o|o]; simpl;
    first [destruct (bb_downsample o) | destruct (bt_downsample o)]; reflexivity.
Qed.

Lemma make_layer_shortcuts cls planes blocks stride dilate self layers self' z :
  _make_layer cls planes blocks stride dilate self = Ok (layers, self') ->
  map has_shortcut (map (init_then z) layers) =
  (negb (effective_stride stride dilate =? 1)
   || negb (self_inplanes self =? planes * expansion cls))
    :: repeat false (List.length layers - 1).
Proof.
  intros H. apply _make_layer_Ok in H.
  destruct H as (_ & b1 & rest & -> & Hb1 & _ & Hrest).
  cbn [map List.length]. rewrite Nat.sub_succ, Nat.sub_0_r.
  rewrite has_shortcut_init_then. f_equal.
  - apply construct_fields in Hb1. destruct Hb1 as (Hd & _).
    unfold has_shortcut. rewrite Hd.
    destruct (negb (effective_stride stride dilate =? 1)
              || negb (self_inplanes self =? planes * expansion cls)); reflexivity.
  - rewrite map_map. apply map_all_equal.
    eapply Forall_impl; [|exact Hrest]. intros b Hb.
    rewrite has_shortcut_init_then.
    apply construct_fields in Hb. destruct Hb as (Hd & _).
    unfold has_shortcut. now rewrite Hd.
Qed.

(** X15 ([ResNet.__init__], [ResNet._make_layer]): in a network that is
    built, the first block of stages 2, 3 and 4 carries a projection
    shortcut and no later block of a stage does; the first block of
    stage 1 carries one for [Bottleneck] and none for [BasicBlock]. *)
Theorem ResNet_init_shortcuts :
  forall cls layers num_classes z groups w r net,
    ResNet_init cls layers num_classes z groups w r = Ok net ->
    map has_shortcut (layer1 net) =
      (match cls with BasicBlock => false | Bottleneck => true end)
        :: repeat false (List.length (layer1 net) - 1) /\
    map has_shortcut (layer2 net) = true :: repeat false (List.length (layer2 net) - 1) /\
    map has_shortcut (layer3 net) = true :: repeat false (List.length (layer3 net) - 1) /\
    map has_shortcut (layer4 net) = true :: repeat false (List.length (layer4 net) - 1).
Proof.
  intros cls layers num_classes z groups w r net H.
  apply ResNet_init_Ok in H.
  destruct H as (n0 & n1 & n2 & n3 & d0 & d1 & d2 & l1 & l2 & l3 & l4 & s1 & s2 & s3 & s4
                 & _ & _ & _ & _ & _ & H1 & H2 & H3 & H4 & ->).
  pose proof (make_layer_shortcuts _ _ _ _ _ _ _ _ z H1) as D1.
  pose proof (make_layer_shortcuts _ _ _ _ _ _ _ _ z H2) as D2.
  pose proof (make_layer_shortcuts _ _ _ _ _ _ _ _ z H3) as D3.
  pose proof (make_layer_shortcuts _ _ _ _ _ _ _ _ z H4) as D4.
  apply _make_layer_Ok in H1, H2, H3, H4.
  destruct H1 as (-> & _), H2 as (-> & _), H3 as (-> & _), H4 as (-> & _).
  match goal with
  | |- context [initialise z (assemble cls groups w num_classes l1 l2 l3 l4 ?s)] =>
      pose proof (layers_of_initialise z cls groups w num_classes l1 l2 l3 l4 s)
        as (L1 & L2 & L3 & L4 & _)
  end.
  rewrite L1, L2, L3, L4, !length_map, D1, D2, D3, D4.
  cbn [self_inplanes].
  assert (E : forall a b, a <> b -> negb (a * expansion cls =? b * expansion cls) = true).
  { intros a b Hab. apply negb_true_iff. apply Z.eqb_neq. destruct cls; simpl; lia. }
  rewrite !E by lia. rewrite !orb_true_r.
  repeat split. destruct cls; reflexivity.
Qed.

Lemma ResNet_init_shortcuts_witness :
  exists net,
    ResNet_init BasicBlock [2; 2; 2; 2] 1000 false 1 64 None = Ok net /\
    (map has_shortcut (layer1 net) = false :: repeat false (List.length (layer1 net) - 1) /\
     map has_shortcut (layer2 net) = true :: repeat false (List.length (layer2 net) - 1) /\
     map has_shortcut (layer3 net) = true :: repeat false (List.length (layer3 net) - 1) /\
     map has_shortcut (layer4 net) = true :: repeat false (List.length (layer4 net) - 1)).
Proof.
  eexists. split.
  - vm_compute. reflexivity.
  - apply (ResNet_init_shortcuts BasicBlock [2; 2; 2; 2] 1000 false 1 64 None).
    vm_compute. reflexivity.
Defined.
